(** * pyudev.monitor: the synchronous monitor and its background observer

    A shallow embedding of [pyudev/monitor.py].  The two classes of the
    module, [Monitor] and [MonitorObserver], become two Rocq modules whose
    definitions carry the names of the Python methods.  Python statements
    that read or write [self], call into libudev or into the operating
    system are written in a small state-and-exception monad, so that each
    definition can be read next to the method it embeds.

    What the Python code takes from its surroundings is made explicit:
    - libudev (the [udev_monitor_*] functions) acts on a record
      [udev_monitor] holding the netlink socket's queue;
    - [os.pipe], [os.write], [os.close] act on a record [Pipe];
    - [select.select] and [epoll.poll] answer from that state, a list of
      wakes being handed to the observer loop from outside;
    - [threading.Thread] contributes a thread state and the rules of
      [join]. *)

From Stdlib Require Import ZArith QArith List String Bool Lia.
Import ListNotations.
Close Scope Q_scope.

(** ** Exceptions, outcomes and the monad of method bodies *)

(** The exception classes the module raises or meets. *)
Inductive exn : Type :=
| ValueError
| EnvironmentError
| OSError
| RuntimeError
| OverflowError
| TypeError.

Definition exn_eqb (a b : exn) : bool :=
  match a, b with
  | ValueError, ValueError
  | EnvironmentError, EnvironmentError
  | OSError, OSError
  | RuntimeError, RuntimeError
  | OverflowError, OverflowError
  | TypeError, TypeError => true
  | _, _ => false
  end.

(** How a call ends: it returns a value, it raises, or it does not come
    back in the state in which it was made ([select] with no timeout on an
    idle socket, [join] on a thread that is still alive). *)
Inductive outcome (A : Type) : Type :=
| Return (a : A)
| Raise (e : exn)
| Blocks.

Arguments Return {A} a.
Arguments Raise {A} e.
Arguments Blocks {A}.

Definition M (S A : Type) : Type := S -> S * outcome A.

Definition ret {S A : Type} (a : A) : M S A := fun s => (s, Return a).

Definition raise {S A : Type} (e : exn) : M S A := fun s => (s, Raise e).

Definition bind {S A B : Type} (m : M S A) (k : A -> M S B) : M S B :=
  fun s =>
    match m s with
    | (s', Return a) => k a s'
    | (s', Raise e) => (s', Raise e)
    | (s', Blocks) => (s', Blocks)
    end.

Definition get {S : Type} : M S S := fun s => (s, Return s).

Definition modify {S : Type} (f : S -> S) : M S unit := fun s => (f s, Return tt).

(** [try: body finally: final].  The final block runs whether the body
    returned or raised; an exception of the final block replaces the
    body's outcome. *)
Definition try_finally {S A : Type} (body : M S A) (final : M S unit) : M S A :=
  fun s =>
    match body s with
    | (s', Blocks) => (s', Blocks)
    | (s', o) =>
        match final s' with
        | (s'', Return _) => (s'', o)
        | (s'', Raise e) => (s'', Raise e)
        | (s'', Blocks) => (s'', Blocks)
        end
    end.

(** [try: body except e: handler]. *)
Definition try_except {S A : Type} (body : M S A) (e : exn) (handler : M S A) : M S A :=
  fun s =>
    match body s with
    | (s', Raise e') => if exn_eqb e' e then handler s' else (s', Raise e')
    | r => r
    end.

Declare Scope py_scope.
Delimit Scope py_scope with py.
Notation "x <- m ;; k" := (bind m (fun x => k))
  (at level 61, m at next level, right associativity) : py_scope.
Notation "m ;; k" := (bind m (fun _ => k))
  (at level 61, right associativity) : py_scope.
Open Scope py_scope.

(** Proof steps used throughout: open the monad, split a conjunction into
    its conjuncts. *)
Ltac unfold_m :=
  unfold bind, ret, raise, get, modify, try_finally, try_except in *.

Ltac conjuncts :=
  repeat match goal with
         | |- _ /\ _ => split
         end.

(** ** class Monitor *)

Module Monitor.

(** What the kernel queued on the monitor's netlink socket: a device event
    that [udev_monitor_receive_device] turns into a device pointer, or a
    datagram it cannot read, for which it returns NULL. *)
Inductive Datagram : Type :=
| Event (device_p : positive)
| Garbled.

Inductive Filter : Type :=
| MatchSubsystemDevtype (subsystem : string) (device_type : option string)
| MatchTag (tag : string).

(** Modelled from the spec: the libudev monitor behind [_as_parameter_]
    (the collaborator contract of the device-daemon binding).  [socket] is
    the queue of datagrams not yet received, oldest first; [delivered]
    keeps every datagram the kernel ever queued, in order. *)
Record udev_monitor : Type := {
  fd : Z;
  receiving : bool;
  enable_receiving_calls : nat;
  filters : list Filter;
  filter_updates : nat;
  receive_buffer_size : option Z;
  socket : list Datagram;
  delivered : list Datagram;
  receive_device_calls : nat
}.

(** Modelled from the spec: [pyudev.core.Device], which is not among the
    sources; a structured device, opaque here but for the pointer it was
    built from ([Device(self.context, device_p)]). *)
Record Device : Type := { device_p : positive }.

(** The Python object: [self._as_parameter_] and [self._started]
    ([self.context] and [self._libudev] only route the calls). *)
Record t : Type := {
  _as_parameter_ : udev_monitor;
  _started : bool
}.

Definition set_as_parameter (um : udev_monitor) (self : t) : t :=
  {| _as_parameter_ := um; _started := _started self |}.

Definition set_started (b : bool) (self : t) : t :=
  {| _as_parameter_ := _as_parameter_ self; _started := b |}.

(** A libudev call on [self] ([self._libudev.f(self, ...)]). *)
Definition libudev {A : Type} (f : udev_monitor -> udev_monitor * A) : M t A :=
  fun self =>
    let (um, a) := f (_as_parameter_ self) in (set_as_parameter um self, Return a).

(** A libudev call whose return code the binding checks
    ([self._libudev.f(self, ...)] with an error check): a failure is raised
    as the exception of its error number. *)
Definition libudev_checked (f : udev_monitor -> udev_monitor * option exn) : M t unit :=
  fun self =>
    let (um, failure) := f (_as_parameter_ self) in
    (set_as_parameter um self,
     match failure with
     | None => Return tt
     | Some e => Raise e
     end).

(** Modelled from the spec: the functions of the libudev binding on a
    monitor ([channel_fd], [channel_enable], [channel_add_filter],
    [channel_clear_filters], [channel_commit_filters],
    [channel_set_buffer_size], [channel_receive]).  Each acts on the
    [udev_monitor] and counts its calls where they are counted.  Two of
    them fail in an environment that the caller of the model names:
    [channel_clear_filters] on a daemon version whose removal of filters
    is broken, [channel_set_buffer_size] for a process without the
    capability it needs. *)
Definition udev_monitor_get_fd (um : udev_monitor) : udev_monitor * Z :=
  (um, fd um).

Definition udev_monitor_enable_receiving (um : udev_monitor) : udev_monitor * unit :=
  ({| fd := fd um;
      receiving := true;
      enable_receiving_calls := S (enable_receiving_calls um);
      filters := filters um;
      filter_updates := filter_updates um;
      receive_buffer_size := receive_buffer_size um;
      socket := socket um;
      delivered := delivered um;
      receive_device_calls := receive_device_calls um |}, tt).

Definition set_filters (fs : list Filter) (um : udev_monitor) : udev_monitor :=
  {| fd := fd um;
     receiving := receiving um;
     enable_receiving_calls := enable_receiving_calls um;
     filters := fs;
     filter_updates := filter_updates um;
     receive_buffer_size := receive_buffer_size um;
     socket := socket um;
     delivered := delivered um;
     receive_device_calls := receive_device_calls um |}.

Definition udev_monitor_filter_add_match_subsystem_devtype
  (subsystem : string) (device_type : option string) (um : udev_monitor)
  : udev_monitor * unit :=
  (set_filters (filters um ++ [MatchSubsystemDevtype subsystem device_type]) um, tt).

Definition udev_monitor_filter_add_match_tag (tag : string) (um : udev_monitor)
  : udev_monitor * unit :=
  (set_filters (filters um ++ [MatchTag tag]) um, tt).

(** Modelled from the spec: [channel_clear_filters], which fails with
    [OperationNotSupported] on the daemon versions where removal is
    broken; the binding raises it as [ValueError], as the docstring of
    [remove_filter] says.  Nothing is removed then. *)
Definition udev_monitor_filter_remove (broken : bool) (um : udev_monitor)
  : udev_monitor * option exn :=
  if broken then (um, Some ValueError) else (set_filters [] um, None).

Definition udev_monitor_filter_update (um : udev_monitor) : udev_monitor * unit :=
  ({| fd := fd um;
      receiving := receiving um;
      enable_receiving_calls := enable_receiving_calls um;
      filters := filters um;
      filter_updates := S (filter_updates um);
      receive_buffer_size := receive_buffer_size um;
      socket := socket um;
      delivered := delivered um;
      receive_device_calls := receive_device_calls um |}, tt).

(** Modelled from the spec: [channel_set_buffer_size], which fails with
    [PermissionError] when the process lacks the capability
    (CAP_NET_ADMIN); the binding raises it as [EnvironmentError] with
    EPERM, as the docstring of [set_receive_buffer_size] says.  The size
    is not set then. *)
Definition udev_monitor_set_receive_buffer_size (permitted : bool) (size : Z)
  (um : udev_monitor) : udev_monitor * option exn :=
  if negb permitted then (um, Some EnvironmentError) else
  ({| fd := fd um;
      receiving := receiving um;
      enable_receiving_calls := enable_receiving_calls um;
      filters := filters um;
      filter_updates := filter_updates um;
      receive_buffer_size := Some size;
      socket := socket um;
      delivered := delivered um;
      receive_device_calls := receive_device_calls um |}, None).

(** Modelled from the spec: [udev_monitor_receive_device]
    ([channel_receive], non-blocking).  The oldest datagram leaves the
    queue; the answer is the device pointer, or NULL ([None]) for an empty
    queue or a datagram that cannot be read. *)
Definition udev_monitor_receive_device (um : udev_monitor)
  : udev_monitor * option positive :=
  let received (rest : list Datagram) :=
    {| fd := fd um;
       receiving := receiving um;
       enable_receiving_calls := enable_receiving_calls um;
       filters := filters um;
       filter_updates := filter_updates um;
       receive_buffer_size := receive_buffer_size um;
       socket := rest;
       delivered := delivered um;
       receive_device_calls := S (receive_device_calls um) |} in
  match socket um with
  | [] => (received [], None)
  | Event p :: rest => (received rest, Some p)
  | Garbled :: rest => (received rest, None)
  end.

(** The kernel side: a datagram reaches the socket only once receiving
    was enabled. *)
Definition deliver (dg : Datagram) (um : udev_monitor) : udev_monitor :=
  if receiving um then
    {| fd := fd um;
       receiving := receiving um;
       enable_receiving_calls := enable_receiving_calls um;
       filters := filters um;
       filter_updates := filter_updates um;
       receive_buffer_size := receive_buffer_size um;
       socket := socket um ++ [dg];
       delivered := delivered um ++ [dg];
       receive_device_calls := receive_device_calls um |}
  else um.

(** The device events among datagrams, as the [Device] objects [poll]
    builds from them. *)
Fixpoint devices (dgs : list Datagram) : list Device :=
  match dgs with
  | [] => []
  | Event p :: rest => {| device_p := p |} :: devices rest
  | Garbled :: rest => devices rest
  end.

(** Modelled from the spec: [pyudev.core.Context] with its libudev
    binding, as [from_netlink] uses it ([open_channel]).  [daemon] says
    which socket a netlink connection to a named source yields, if any;
    [netlink_calls] records the names [udev_monitor_new_from_netlink] was
    called with. *)
Record Context : Type := {
  daemon : string -> option Z;
  netlink_calls : list string
}.

(** The libudev monitor of a netlink socket that was just opened. *)
Definition new_udev_monitor (sock : Z) : udev_monitor :=
  {| fd := sock;
     receiving := false;
     enable_receiving_calls := 0;
     filters := [];
     filter_updates := 0;
     receive_buffer_size := None;
     socket := [];
     delivered := [];
     receive_device_calls := 0 |}.

(** Modelled from the spec: [udev_monitor_new_from_netlink]
    ([open_channel]); one connection attempt, answering with the new
    monitor or with NULL. *)
Definition udev_monitor_new_from_netlink (name : string)
  : M Context (option udev_monitor) :=
  fun context =>
    ({| daemon := daemon context;
        netlink_calls := netlink_calls context ++ [name] |},
     Return (option_map new_udev_monitor (daemon context name))).

(** Modelled from the spec: [pyudev._util.ensure_byte_string], which is
    not among the sources; the name handed to the binding is the name
    given, as bytes. *)
Definition ensure_byte_string (s : string) : string := s.

(** [Monitor.__init__(self, context, monitor_p)]. *)
Definition __init__ (monitor_p : udev_monitor) : t :=
  {| _as_parameter_ := monitor_p; _started := false |}.

(** [Monitor.from_netlink(cls, context, source)], acting on the context. *)
Definition from_netlink (source : string) : M Context t :=
  if negb (existsb (String.eqb source) ["kernel"; "udev"]%string) then
    raise ValueError
  else
    monitor <- udev_monitor_new_from_netlink (ensure_byte_string source) ;;
    match monitor with
    | None => raise EnvironmentError
    | Some monitor_p => ret (__init__ monitor_p)
    end.

(** The property [Monitor.started]. *)
Definition started (self : t) : bool := _started self.

Definition fileno : M t Z := libudev udev_monitor_get_fd.

Definition filter_by (subsystem : string) (device_type : option string) : M t unit :=
  libudev (udev_monitor_filter_add_match_subsystem_devtype
             (ensure_byte_string subsystem)
             (option_map ensure_byte_string device_type)) ;;
  libudev udev_monitor_filter_update.

Definition filter_by_tag (tag : string) : M t unit :=
  libudev (udev_monitor_filter_add_match_tag (ensure_byte_string tag)) ;;
  libudev udev_monitor_filter_update.

(** [Monitor.remove_filter(self)], on a daemon whose removal of filters
    is broken or not. *)
Definition remove_filter (broken : bool) : M t unit :=
  libudev_checked (udev_monitor_filter_remove broken) ;;
  libudev udev_monitor_filter_update.

(** [Monitor.start(self)]. *)
Definition start : M t unit :=
  self <- get ;;
  if negb (_started self) then
    libudev udev_monitor_enable_receiving ;;
    modify (set_started true)
  else ret tt.

(** [Monitor.set_receive_buffer_size(self, size)], in a process that is
    permitted to set it or not. *)
Definition set_receive_buffer_size (permitted : bool) (size : Z) : M t unit :=
  libudev_checked (udev_monitor_set_receive_buffer_size permitted size).

(** [FD_SETSIZE]: [select] takes the descriptors from 0 up to it. *)
Definition FD_SETSIZE : Z := 1024.

Definition selectable (fd : Z) : bool := (0 <=? fd)%Z && (fd <? FD_SETSIZE)%Z.

(** The seconds [select] can hold: it counts a timeout in nanoseconds, in
    64 bits. *)
Definition TIMEOUT_LIMIT : Q := 9223372036854775808 # 1000000000.

Definition representable (seconds : Q) : bool :=
  Qle_bool (- TIMEOUT_LIMIT) seconds && negb (Qle_bool TIMEOUT_LIMIT seconds).

(** What [select] raises for a timeout before it looks at any
    descriptor: [OverflowError] for seconds it cannot hold, [ValueError]
    for negative ones. *)
Definition timeout_error (timeout : option Q) : option exn :=
  match timeout with
  | None => None
  | Some seconds =>
      if negb (representable seconds) then Some OverflowError
      else if negb (Qle_bool 0 seconds) then Some ValueError
      else None
  end.

(** The timeouts [select] accepts: none, or a number of seconds that is
    not negative and that it can hold. *)
Definition valid_timeout (timeout : option Q) : bool :=
  match timeout_error timeout with
  | None => true
  | Some _ => false
  end.

(** [select.select([self], [], [], timeout)]: the read list it returns,
    as descriptors.  A timeout is a number of seconds; the floats that are
    no number (infinite, NaN) it refuses as well, and they are not among
    the timeouts here.  It refuses a timeout first, then a descriptor
    ([self.fileno()]) that is negative or not below [FD_SETSIZE], with
    [ValueError].  A queued datagram makes the socket readable; an idle
    socket gives the empty list when the timeout runs out and never
    returns without one. *)
Definition select_select (timeout : option Q) : M t (list Z) :=
  fun self =>
    let um := _as_parameter_ self in
    match timeout_error timeout with
    | Some e => (self, Raise e)
    | None =>
        if negb (selectable (fd um)) then (self, Raise ValueError)
        else
          match socket um with
          | [] =>
              match timeout with
              | Some _ => (self, Return [])
              | None => (self, Blocks)
              end
          | _ :: _ => (self, Return [fd um])
          end
    end.

(** [Monitor.poll(self, timeout)].  [self in rlist] is decided on the
    descriptor, the way [select] itself identifies the object it was
    given. *)
Definition poll (timeout : option Q) : M t (option Device) :=
  rlist <- select_select timeout ;;
  self_fd <- fileno ;;
  if existsb (Z.eqb self_fd) rlist then
    device_p <- libudev udev_monitor_receive_device ;;
    match device_p with
    | None => raise EnvironmentError
    | Some p => ret (Some {| device_p := p |})
    end
  else ret None.

(** The public operations of a monitor, for sequences of calls. *)
Inductive Op : Type :=
| OpStart
| OpPoll (timeout : option Q)
| OpFilterBy (subsystem : string) (device_type : option string)
| OpFilterByTag (tag : string)
| OpRemoveFilter (broken : bool)
| OpSetReceiveBufferSize (permitted : bool) (size : Z)
| OpFileno
| OpDeliver (dg : Datagram).

(** The monitor after one operation, whatever its outcome. *)
Definition apply (op : Op) (self : t) : t :=
  match op with
  | OpStart => fst (start self)
  | OpPoll timeout => fst (poll timeout self)
  | OpFilterBy subsystem device_type => fst (filter_by subsystem device_type self)
  | OpFilterByTag tag => fst (filter_by_tag tag self)
  | OpRemoveFilter broken => fst (remove_filter broken self)
  | OpSetReceiveBufferSize permitted size =>
      fst (set_receive_buffer_size permitted size self)
  | OpFileno => fst (fileno self)
  | OpDeliver dg => set_as_parameter (deliver dg (_as_parameter_ self)) self
  end.

(** The states a sequence of operations goes through, the first one
    included. *)
Fixpoint history (ops : list Op) (self : t) : list t :=
  match ops with
  | [] => [self]
  | op :: rest => self :: history rest (apply op self)
  end.

(** How often a flag goes from [false] to [true], and from [true] to
    [false], along a sequence. *)
Fixpoint rises (flags : list bool) : nat :=
  match flags with
  | false :: ((true :: _) as rest) => S (rises rest)
  | _ :: rest => rises rest
  | [] => 0
  end.

Fixpoint falls (flags : list bool) : nat :=
  match flags with
  | true :: ((false :: _) as rest) => S (falls rest)
  | _ :: rest => falls rest
  | [] => 0
  end.

End Monitor.

(** ** class MonitorObserver *)

Module MonitorObserver.

(** What a callback does besides being called with the device: nothing
    more, or a call back into the observer it runs in, or an exception. *)
Inductive Action : Type :=
| Pass
| CallSendStop
| CallStop
| Throw (e : exn).

(** The pipe [os.pipe()] made, as the operating system sees it: the two
    descriptors, which of them are open, the bytes written and not read,
    and counts of what was done to it. *)
Record Pipe : Type := {
  read_end : Z;
  write_end : Z;
  read_open : bool;
  write_open : bool;
  unread : nat;
  bytes_written : nat;
  read_closes : nat;
  write_closes : nat
}.

(** [threading.Thread]: not started, running [run] (with the entries of
    the current wake the [for] loop has still to visit), or finished,
    normally or with the exception that ended [run]. *)
Inductive thread_state : Type :=
| Unstarted
| Alive (pending : list Z)
| Finished (error : option exn).

(** Who makes a call. *)
Inductive caller : Type :=
| ObserverThread
| ForeignThread.

(** The observer object ([monitor], [daemon], [_stop_event_source],
    [_stop_event_sink], [_callback]) together with what it acts on: its
    pipe, the number of [os.pipe()] calls made for it, its thread, and the
    devices the callback was invoked with, oldest first. *)
Record World : Type := {
  monitor : Monitor.t;
  daemon : bool;
  _stop_event_source : Z;
  _stop_event_sink : option Z;
  _callback : Monitor.Device -> Action;
  pipe : Pipe;
  pipe_calls : nat;
  thread : thread_state;
  invoked : list Monitor.Device
}.

Definition set_monitor (m : Monitor.t) (w : World) : World :=
  {| monitor := m;
     daemon := daemon w;
     _stop_event_source := _stop_event_source w;
     _stop_event_sink := _stop_event_sink w;
     _callback := _callback w;
     pipe := pipe w;
     pipe_calls := pipe_calls w;
     thread := thread w;
     invoked := invoked w |}.

Definition set_stop_event_sink (sink : option Z) (w : World) : World :=
  {| monitor := monitor w;
     daemon := daemon w;
     _stop_event_source := _stop_event_source w;
     _stop_event_sink := sink;
     _callback := _callback w;
     pipe := pipe w;
     pipe_calls := pipe_calls w;
     thread := thread w;
     invoked := invoked w |}.

Definition set_pipe (p : Pipe) (w : World) : World :=
  {| monitor := monitor w;
     daemon := daemon w;
     _stop_event_source := _stop_event_source w;
     _stop_event_sink := _stop_event_sink w;
     _callback := _callback w;
     pipe := p;
     pipe_calls := pipe_calls w;
     thread := thread w;
     invoked := invoked w |}.

Definition set_thread (th : thread_state) (w : World) : World :=
  {| monitor := monitor w;
     daemon := daemon w;
     _stop_event_source := _stop_event_source w;
     _stop_event_sink := _stop_event_sink w;
     _callback := _callback w;
     pipe := pipe w;
     pipe_calls := pipe_calls w;
     thread := th;
     invoked := invoked w |}.

Definition record_call (device : Monitor.Device) (w : World) : World :=
  {| monitor := monitor w;
     daemon := daemon w;
     _stop_event_source := _stop_event_source w;
     _stop_event_sink := _stop_event_sink w;
     _callback := _callback w;
     pipe := pipe w;
     pipe_calls := pipe_calls w;
     thread := thread w;
     invoked := invoked w ++ [device] |}.

(** A method of [self.monitor]. *)
Definition on_monitor {A : Type} (m : M Monitor.t A) : M World A :=
  fun w => let (mon, o) := m (monitor w) in (set_monitor mon w, o).

(** [os.write(fd, b'\x01')]: one byte goes into the pipe when [fd] is its
    open write end and the read end is still open (EPIPE otherwise); any
    other descriptor is not one that can be written (EBADF). *)
Definition os_write (fd : Z) : M World unit :=
  fun w =>
    let p := pipe w in
    if (fd =? write_end p)%Z && write_open p then
      if read_open p then
        (set_pipe {| read_end := read_end p;
                     write_end := write_end p;
                     read_open := read_open p;
                     write_open := write_open p;
                     unread := S (unread p);
                     bytes_written := S (bytes_written p);
                     read_closes := read_closes p;
                     write_closes := write_closes p |} w, Return tt)
      else (w, Raise OSError)
    else (w, Raise OSError).

(** [os.close(fd)]: closes the end of the pipe [fd] names, when that end
    is open (EBADF otherwise). *)
Definition os_close (fd : Z) : M World unit :=
  fun w =>
    let p := pipe w in
    if (fd =? write_end p)%Z && write_open p then
      (set_pipe {| read_end := read_end p;
                   write_end := write_end p;
                   read_open := read_open p;
                   write_open := false;
                   unread := unread p;
                   bytes_written := bytes_written p;
                   read_closes := read_closes p;
                   write_closes := S (write_closes p) |} w, Return tt)
    else if (fd =? read_end p)%Z && read_open p then
      (set_pipe {| read_end := read_end p;
                   write_end := write_end p;
                   read_open := false;
                   write_open := write_open p;
                   unread := unread p;
                   bytes_written := bytes_written p;
                   read_closes := S (read_closes p);
                   write_closes := write_closes p |} w, Return tt)
    else (w, Raise OSError).

(** [MonitorObserver.__init__(self, monitor, callback)].  [os_pipe] is
    the pair of descriptors [os.pipe()] returns; the thread it sets up is
    not started. *)
Definition __init__ (monitor : Monitor.t) (callback : option (Monitor.Device -> Action))
  (os_pipe : Z * Z) : outcome World :=
  match callback with
  | None => Raise ValueError
  | Some callback =>
      Return {| monitor := monitor;
                daemon := true;
                _stop_event_source := fst os_pipe;
                _stop_event_sink := Some (snd os_pipe);
                _callback := callback;
                pipe := {| read_end := fst os_pipe;
                           write_end := snd os_pipe;
                           read_open := true;
                           write_open := true;
                           unread := 0;
                           bytes_written := 0;
                           read_closes := 0;
                           write_closes := 0 |};
                pipe_calls := 1;
                thread := Unstarted;
                invoked := [] |}
  end.

(** [MonitorObserver.send_stop(self)]. *)
Definition send_stop : M World unit :=
  self <- get ;;
  match _stop_event_sink self with
  | None => ret tt
  | Some sink =>
      try_finally
        (os_write sink)
        (os_close sink ;;
         modify (set_stop_event_sink None))
  end.

(** [Thread.join()]: refused on a thread that was not started and on the
    calling thread itself; otherwise it returns once the thread has
    finished and not before. *)
Definition join (who : caller) : M World unit :=
  fun w =>
    match thread w, who with
    | Unstarted, _ => (w, Raise RuntimeError)
    | _, ObserverThread => (w, Raise RuntimeError)
    | Alive _, ForeignThread => (w, Blocks)
    | Finished _, ForeignThread => (w, Return tt)
    end.

(** [MonitorObserver.stop(self)], called from the thread [who]. *)
Definition stop (who : caller) : M World unit :=
  send_stop ;;
  try_except (join who) RuntimeError (ret tt).

(** [self._callback(device)], in the observer thread. *)
Definition call_callback (device : Monitor.Device) : M World unit :=
  modify (record_call device) ;;
  self <- get ;;
  match _callback self device with
  | Pass => ret tt
  | CallSendStop => send_stop
  | CallStop => stop ObserverThread
  | Throw e => raise e
  end.

(** How the body of the [for] loop leaves: on to the next entry, or out
    of [run] by [return]. *)
Inductive flow : Type :=
| Next
| Returned.

(** The body of the [for] loop of [run], for one [fd] of a wake.  A
    [Device] that [poll] returned counts as true in [if device:]; [None]
    does not. *)
Definition body (fd : Z) : M World flow :=
  self <- get ;;
  if (fd =? _stop_event_source self)%Z then
    os_close (_stop_event_source self) ;;
    ret Returned
  else
    device <- on_monitor (Monitor.poll (Some 0%Q)) ;;
    match device with
    | Some d => call_callback d ;; ret Next
    | None => ret Next
    end.

(** [for fd, _ in notifier.poll(): ...] over the descriptors of one wake. *)
Fixpoint for_loop (fds : list Z) : M World flow :=
  match fds with
  | [] => ret Next
  | fd :: rest =>
      f <- body fd ;;
      match f with
      | Returned => ret Returned
      | Next => for_loop rest
      end
  end.

(** [while True: for ...] over the wakes [notifier.poll()] answers with,
    one list of descriptors each.  [Next] means the loop waits for a wake
    beyond those given. *)
Fixpoint while_loop (wakes : list (list Z)) : M World flow :=
  match wakes with
  | [] => ret Next
  | fds :: later =>
      f <- for_loop fds ;;
      match f with
      | Returned => ret Returned
      | Next => while_loop later
      end
  end.

(** [MonitorObserver.run(self)]: the monitor is started, then the loop
    runs.  Setting up the [epoll] object and closing it are left out. *)
Definition run (wakes : list (list Z)) : M World flow :=
  on_monitor Monitor.start ;;
  while_loop wakes.

(** *** The observer among the other threads

    The calls that happen around a [MonitorObserver], one at a time: the
    kernel queues a datagram; [Thread.start()] enters [run]; in the
    observer thread [notifier.poll()] returns a wake and the [for] loop
    runs its body on the next entry; some other thread calls [send_stop()],
    or [stop()], whose two statements are separate steps.  A call of
    [send_stop()] is one step here: no other call of it, from another
    thread or from the callback, runs between its statements.  Calls
    that do overlap are taken statement by statement in [overlapped]
    below. *)
Inductive label : Type :=
| Deliver (dg : Monitor.Datagram)
| ThreadStart
| Wake (fds : list Z)
| Body
| SendStop
| StopSendStop
| StopJoin.

(** The read end of the pipe is readable: a byte waits in it, or its
    write end was closed. *)
Definition stop_ready (w : World) : bool :=
  read_open (pipe w) && ((0 <? unread (pipe w)) || negb (write_open (pipe w))).

(** How the thread stands after [run] did a piece of work. *)
Definition after_body (rest : list Z) (r : World * outcome flow) : option World :=
  match r with
  | (w, Return Next) => Some (set_thread (Alive rest) w)
  | (w, Return Returned) => Some (set_thread (Finished None) w)
  | (w, Raise e) => Some (set_thread (Finished (Some e)) w)
  | (_, Blocks) => None
  end.

(** One step; [None] when the call cannot be made or cannot return in
    this state.  [epoll] reports the stop descriptor only when it is
    readable. *)
Definition step (l : label) (w : World) : option World :=
  match l with
  | Deliver dg =>
      Some (set_monitor
              (Monitor.set_as_parameter
                 (Monitor.deliver dg (Monitor._as_parameter_ (monitor w)))
                 (monitor w)) w)
  | ThreadStart =>
      match thread w with
      | Unstarted => Some (set_thread (Alive []) (fst (on_monitor Monitor.start w)))
      | _ => None
      end
  | Wake fds =>
      match thread w with
      | Alive [] =>
          if existsb (Z.eqb (_stop_event_source w)) fds && negb (stop_ready w)
          then None
          else Some (set_thread (Alive fds) w)
      | _ => None
      end
  | Body =>
      match thread w with
      | Alive (fd :: rest) => after_body rest (body fd w)
      | _ => None
      end
  | SendStop => Some (fst (send_stop w))
  | StopSendStop => Some (fst (send_stop w))
  | StopJoin =>
      match try_except (join ForeignThread) RuntimeError (ret tt) w with
      | (_, Blocks) => None
      | (w', _) => Some w'
      end
  end.

Fixpoint exec (trace : list label) (w : World) : option World :=
  match trace with
  | [] => Some w
  | l :: rest =>
      match step l w with
      | Some w' => exec rest w'
      | None => None
      end
  end.

(** *** Calls of [send_stop] that overlap

    [send_stop] takes no lock, and between any two of its statements
    another thread may run.  Here the method is taken statement by
    statement.  Each statement reads [self._stop_event_sink] anew, so what
    it passes to [os.write] and [os.close] is whatever the attribute holds
    by then; both refuse [None] with [TypeError]. *)
Inductive send_stop_at : Type :=
| AtIf
| AtWrite
| AtClose (raised : option exn)
| AtAssign (raised : option exn)
| Ended (o : outcome unit).

(** [os.write(self._stop_event_sink, b'\x01')] *)
Definition os_write_arg (fd : option Z) : M World unit :=
  match fd with
  | Some fd => os_write fd
  | None => raise TypeError
  end.

(** [os.close(self._stop_event_sink)] *)
Definition os_close_arg (fd : option Z) : M World unit :=
  match fd with
  | Some fd => os_close fd
  | None => raise TypeError
  end.

(** The next statement of a call of [send_stop] that stands at [at_]:
    the test of [if], the [os.write] of the [try] block, and the
    [os.close] and the assignment of the [finally] block, which run also
    when [os.write] raised ([raised]); an exception of [os.close] leaves
    the method at once, and otherwise the one of [os.write] is raised again
    after the assignment. *)
Definition send_stop_statement (at_ : send_stop_at) (w : World)
  : World * send_stop_at :=
  match at_ with
  | AtIf =>
      match _stop_event_sink w with
      | None => (w, Ended (Return tt))
      | Some _ => (w, AtWrite)
      end
  | AtWrite =>
      match os_write_arg (_stop_event_sink w) w with
      | (w', Return _) => (w', AtClose None)
      | (w', Raise e) => (w', AtClose (Some e))
      | (w', Blocks) => (w', AtWrite)
      end
  | AtClose raised =>
      match os_close_arg (_stop_event_sink w) w with
      | (w', Return _) => (w', AtAssign raised)
      | (w', Raise e) => (w', Ended (Raise e))
      | (w', Blocks) => (w', AtClose raised)
      end
  | AtAssign raised =>
      (set_stop_event_sink None w,
       Ended (match raised with
              | None => Return tt
              | Some e => Raise e
              end))
  | Ended o => (w, Ended o)
  end.

(** Two calls of [send_stop], standing at [a] and [b], of which
    [schedule] says which runs its next statement: [true] the first,
    [false] the second. *)
Fixpoint overlapped (schedule : list bool) (a b : send_stop_at) (w : World)
  : World * send_stop_at * send_stop_at :=
  match schedule with
  | [] => (w, a, b)
  | true :: rest =>
      let (w', a') := send_stop_statement a w in overlapped rest a' b w'
  | false :: rest =>
      let (w', b') := send_stop_statement b w in overlapped rest a b' w'
  end.

(** The thread has finished. *)
Definition finished (w : World) : bool :=
  match thread w with
  | Finished _ => true
  | _ => false
  end.

(** What holds of the pipe and the sink at every moment of an observer's
    life: while the sink is kept, both ends are open and nothing was
    written; once it is dropped, one byte was written and the write end
    was closed once.  The read end is closed only by a thread that then
    finishes. *)
Definition pipe_ok (w : World) : Prop :=
  _stop_event_source w = read_end (pipe w) /\
  pipe_calls w = 1 /\
  match _stop_event_sink w with
  | Some sink =>
      sink = write_end (pipe w) /\
      write_open (pipe w) = true /\ read_open (pipe w) = true /\
      unread (pipe w) = 0 /\ bytes_written (pipe w) = 0 /\
      write_closes (pipe w) = 0 /\ read_closes (pipe w) = 0 /\
      match thread w with
      | Alive pending => existsb (Z.eqb (_stop_event_source w)) pending = false
      | _ => True
      end
  | None =>
      write_open (pipe w) = false /\
      bytes_written (pipe w) = 1 /\ write_closes (pipe w) = 1 /\
      read_closes (pipe w) <= 1 /\
      (read_open (pipe w) = true -> unread (pipe w) = 1 /\ read_closes (pipe w) = 0)
  end.

(** Every device the socket was given is accounted for: those received
    before the observer took over ([before]), then those the callback was
    invoked with, then those still queued, in this order. *)
Definition accounted (before : list Monitor.Device) (w : World) : Prop :=
  Monitor.devices (Monitor.delivered (Monitor._as_parameter_ (monitor w))) =
  before ++ invoked w ++
  Monitor.devices (Monitor.socket (Monitor._as_parameter_ (monitor w))).

(** The steps of a trace in which the observer runs the body of its
    loop. *)
Definition is_body (l : label) : bool :=
  match l with
  | Body => true
  | _ => false
  end.


(** Between two steps, moreover, the read end is open as long as the
    thread has not finished. *)
Definition world_ok (w : World) : Prop :=
  pipe_ok w /\ (finished w = false -> read_open (pipe w) = true).

End MonitorObserver.

(** ** Concrete monitors and observers *)

Module Example.

(** A udev context whose daemon answers for the source "udev", with a
    socket on descriptor 5, and for no other source. *)
Definition context : Monitor.Context :=
  {| Monitor.daemon :=
       fun name => if String.eqb name "udev" then Some 5%Z else None;
     Monitor.netlink_calls := [] |}.

(** A monitor on descriptor 5, fresh from its constructor. *)
Definition monitor5 : Monitor.t :=
  Monitor.__init__ (Monitor.new_udev_monitor 5).

(** A started monitor on descriptor 5 whose socket holds one device
    event. *)
Definition busy_monitor : Monitor.t :=
  {| Monitor._as_parameter_ :=
       {| Monitor.fd := 5;
          Monitor.receiving := true;
          Monitor.enable_receiving_calls := 1;
          Monitor.filters := [];
          Monitor.filter_updates := 0;
          Monitor.receive_buffer_size := None;
          Monitor.socket := [Monitor.Event 7];
          Monitor.delivered := [Monitor.Event 7];
          Monitor.receive_device_calls := 0 |};
     Monitor._started := true |}.

(** The same on descriptor 1100, in a process with many open files. *)
Definition crowded_monitor : Monitor.t :=
  {| Monitor._as_parameter_ :=
       {| Monitor.fd := 1100;
          Monitor.receiving := true;
          Monitor.enable_receiving_calls := 1;
          Monitor.filters := [];
          Monitor.filter_updates := 0;
          Monitor.receive_buffer_size := None;
          Monitor.socket := [Monitor.Event 7];
          Monitor.delivered := [Monitor.Event 7];
          Monitor.receive_device_calls := 0 |};
     Monitor._started := true |}.

Definition device7 : Monitor.Device := {| Monitor.device_p := 7 |}.

(** A callback that only takes the device, and one that stops the
    observer from inside. *)
Definition quiet : Monitor.Device -> MonitorObserver.Action :=
  fun _ => MonitorObserver.Pass.


(** The descriptors of the pipe: 3 to read from, 4 to write to. *)
Definition pipe34 : Z * Z := (3%Z, 4%Z).

(** The observer the constructor builds on [monitor5] with that pipe. *)
Definition created (callback : Monitor.Device -> MonitorObserver.Action)
  : MonitorObserver.World :=
  {| MonitorObserver.monitor := monitor5;
     MonitorObserver.daemon := true;
     MonitorObserver._stop_event_source := 3;
     MonitorObserver._stop_event_sink := Some 4%Z;
     MonitorObserver._callback := callback;
     MonitorObserver.pipe :=
       {| MonitorObserver.read_end := 3;
          MonitorObserver.write_end := 4;
          MonitorObserver.read_open := true;
          MonitorObserver.write_open := true;
          MonitorObserver.unread := 0;
          MonitorObserver.bytes_written := 0;
          MonitorObserver.read_closes := 0;
          MonitorObserver.write_closes := 0 |};
     MonitorObserver.pipe_calls := 1;
     MonitorObserver.thread := MonitorObserver.Unstarted;
     MonitorObserver.invoked := [] |}.

(** The observer the constructor builds on [busy_monitor]. *)
Definition busy_observer (callback : Monitor.Device -> MonitorObserver.Action)
  : MonitorObserver.World :=
  {| MonitorObserver.monitor := busy_monitor;
     MonitorObserver.daemon := true;
     MonitorObserver._stop_event_source := 3;
     MonitorObserver._stop_event_sink := Some 4%Z;
     MonitorObserver._callback := callback;
     MonitorObserver.pipe :=
       {| MonitorObserver.read_end := 3;
          MonitorObserver.write_end := 4;
          MonitorObserver.read_open := true;
          MonitorObserver.write_open := true;
          MonitorObserver.unread := 0;
          MonitorObserver.bytes_written := 0;
          MonitorObserver.read_closes := 0;
          MonitorObserver.write_closes := 0 |};
     MonitorObserver.pipe_calls := 1;
     MonitorObserver.thread := MonitorObserver.Unstarted;
     MonitorObserver.invoked := [] |}.

(** Two calls of [send_stop()] on the observer just created.  Both pass
    the test of [if] before either goes on; then both write; the first
    closes the write end and drops the sink, and the second comes to its
    [os.close]. *)
Definition overlapping (callback : Monitor.Device -> MonitorObserver.Action)
  : MonitorObserver.World * MonitorObserver.send_stop_at *
    MonitorObserver.send_stop_at :=
  MonitorObserver.overlapped [true; false; true; false; true; true; false]
    MonitorObserver.AtIf MonitorObserver.AtIf (created callback).

(** The same, but the second call closes before the first has dropped the
    sink. *)
Definition overlapping_close (callback : Monitor.Device -> MonitorObserver.Action)
  : MonitorObserver.World * MonitorObserver.send_stop_at *
    MonitorObserver.send_stop_at :=
  MonitorObserver.overlapped [true; false; true; false; true; false; true]
    MonitorObserver.AtIf MonitorObserver.AtIf (created callback).

(** The observer after a trace (unchanged when the trace cannot run). *)
Definition after (trace : list MonitorObserver.label) (w : MonitorObserver.World)
  : MonitorObserver.World :=
  match MonitorObserver.exec trace w with
  | Some w' => w'
  | None => w
  end.

(** A running observer with one event queued on which [send_stop()] was
    called: both the monitor and the read end of the pipe are readable. *)
Definition racing : MonitorObserver.World :=
  after [MonitorObserver.ThreadStart;
         MonitorObserver.Deliver (Monitor.Event 7);
         MonitorObserver.SendStop] (created quiet).

(** An observer on which [stop()] was called from another thread before
    its own thread was started. *)
Definition stopped_unstarted : MonitorObserver.World :=
  after [MonitorObserver.StopSendStop; MonitorObserver.StopJoin] (created quiet).

(** An observer whose thread was started. *)
Definition running : MonitorObserver.World :=
  after [MonitorObserver.ThreadStart] (created quiet).

End Example.

(** ** tests/plugins/udev_database.py

    The test plugin that reads the udev database through the [udevadm]
    program.  What the program prints is a byte string.  Text, which
    [.decode(sys.getfilesystemencoding())] makes of bytes, is held as its
    UTF-8 encoding, whatever the encoding it was decoded from; which bytes
    decode, and to what text, is the machine's encoding, a [Codec.t] the
    functions that decode are given.  Dictionaries keep their items in the
    order the keys were first set. *)

From Stdlib Require Import Ascii.

(** *** The string methods the plugin calls *)

Module Str.

(** The bytes [strip()] and [split()] take as white space. *)
Definition isspace (c : ascii) : bool :=
  let n := nat_of_ascii c in
  ((9 <=? n) && (n <=? 13)) || (n =? 32).

Fixpoint lstrip (s : string) : string :=
  match s with
  | EmptyString => EmptyString
  | String c r => if isspace c then lstrip r else s
  end.

Fixpoint rstrip (s : string) : string :=
  match s with
  | EmptyString => EmptyString
  | String c r =>
      match rstrip r with
      | EmptyString => if isspace c then EmptyString else String c EmptyString
      | r' => String c r'
      end
  end.

(** [s.strip()]. *)
Definition strip (s : string) : string := rstrip (lstrip s).

(** [s.startswith(p)]. *)
Definition startswith (p s : string) : bool := String.prefix p s.

Fixpoint drop (n : nat) (s : string) : string :=
  match n, s with
  | O, _ => s
  | S n', String _ r => drop n' r
  | S _, EmptyString => EmptyString
  end.

(** The text before and after the first occurrence of a separator that is
    not empty, if it occurs. *)
Fixpoint cut (sep s : string) : option (string * string) :=
  match s with
  | EmptyString => None
  | String c r =>
      if String.prefix sep s then Some (EmptyString, drop (String.length sep) s)
      else match cut sep r with
           | Some (a, b) => Some (String c a, b)
           | None => None
           end
  end.

(** [s.split(sep, 1)]. *)
Definition split1 (sep s : string) : list string :=
  match cut sep s with
  | Some (a, b) => [a; b]
  | None => [s]
  end.

(** [s.split(sep)] for a separator of one byte. *)
Fixpoint split (sep : ascii) (s : string) : list string :=
  match s with
  | EmptyString => [EmptyString]
  | String c r =>
      if Ascii.eqb c sep then EmptyString :: split sep r
      else match split sep r with
           | h :: t => String c h :: t
           | [] => [String c EmptyString]
           end
  end.

(** What [split()] takes as white space in text, among the ASCII
    characters: the separators 28 to 31 besides the bytes above. *)
Definition isspace_text (c : ascii) : bool :=
  let n := nat_of_ascii c in
  isspace c || ((28 <=? n) && (n <=? 31)).

(** The number of bytes of the white space character a text starts with,
    0 when it starts with none: an ASCII one, or U+0085, U+00A0, U+1680,
    U+2000 to U+200A, U+2028, U+2029, U+202F, U+205F, U+3000 in UTF-8. *)
Definition space_width (s : string) : nat :=
  match s with
  | EmptyString => 0
  | String c1 r1 =>
      let b1 := nat_of_ascii c1 in
      if isspace_text c1 then 1
      else
        match r1 with
        | EmptyString => 0
        | String c2 r2 =>
            let b2 := nat_of_ascii c2 in
            if b1 =? 194 then
              if (b2 =? 133) || (b2 =? 160) then 2 else 0
            else
              match r2 with
              | EmptyString => 0
              | String c3 _ =>
                  let b3 := nat_of_ascii c3 in
                  if b1 =? 225 then
                    if (b2 =? 154) && (b3 =? 128) then 3 else 0
                  else if b1 =? 226 then
                    if b2 =? 128 then
                      if ((128 <=? b3) && (b3 <=? 138)) || (b3 =? 168) ||
                         (b3 =? 169) || (b3 =? 175)
                      then 3 else 0
                    else if (b2 =? 129) && (b3 =? 159) then 3 else 0
                  else if b1 =? 227 then
                    if (b2 =? 128) && (b3 =? 128) then 3 else 0
                  else 0
              end
        end
  end.

(** [s.split()] on text: the runs of characters that are not white
    space.  [skip] counts the bytes still to pass of a white space
    character that was found. *)
Fixpoint words_from (skip : nat) (s : string) : list string :=
  match s with
  | EmptyString => []
  | String c r =>
      match skip with
      | S k => words_from k r
      | O =>
          match space_width s with
          | S k => words_from k r
          | O =>
              match r with
              | EmptyString => [String c EmptyString]
              | String _ _ =>
                  if 0 <? space_width r then String c EmptyString :: words_from 0 r
                  else match words_from 0 r with
                       | h :: t => String c h :: t
                       | [] => [String c EmptyString]
                       end
              end
          end
      end
  end.

Definition words (s : string) : list string := words_from 0 s.

(** [s.splitlines()] on bytes: lines end at "\n", "\r" and "\r\n". *)
Fixpoint splitlines (s : string) : list string :=
  match s with
  | EmptyString => []
  | String c r =>
      if Ascii.eqb c "010"%char then EmptyString :: splitlines r
      else if Ascii.eqb c "013"%char then
        match r with
        | String c' r' =>
            if Ascii.eqb c' "010"%char then EmptyString :: splitlines r'
            else EmptyString :: splitlines r
        | EmptyString => [EmptyString]
        end
      else match splitlines r with
           | h :: t => String c h :: t
           | [] => [String c EmptyString]
           end
  end.

(** A byte that continues a character of more than one byte. *)
Definition continuation (c : ascii) : bool :=
  let n := nat_of_ascii c in
  (128 <=? n) && (n <=? 191).

Fixpoint all_continuation (s : string) : bool :=
  match s with
  | EmptyString => true
  | String c r => continuation c && all_continuation r
  end.

Fixpoint drop_continuation (s : string) : string :=
  match s with
  | EmptyString => EmptyString
  | String c r => if continuation c then drop_continuation r else s
  end.

(** The text does not start inside a character. *)
Definition starts_at_character (s : string) : bool :=
  match s with
  | EmptyString => true
  | String c _ => negb (continuation c)
  end.

(** [s[1:]] on text: without its first character. *)
Definition tail (s : string) : string :=
  match s with
  | EmptyString => EmptyString
  | String _ r => drop_continuation r
  end.

(** [s[:-1]] on text: without its last character. *)
Fixpoint init (s : string) : string :=
  match s with
  | EmptyString => EmptyString
  | String c r => if all_continuation r then EmptyString else String c (init r)
  end.

(** [s[1:-1]] on text. *)
Definition slice_1_m1 (s : string) : string := init (tail s).

(** The text up to the first "\n". *)
Fixpoint first_line (s : string) : string :=
  match s with
  | EmptyString => EmptyString
  | String c r => if Ascii.eqb c "010"%char then EmptyString else String c (first_line r)
  end.

(** The text before the last occurrence of a byte, if it occurs. *)
Fixpoint until_last (c : ascii) (s : string) : option string :=
  match s with
  | EmptyString => None
  | String x r =>
      match until_last c r with
      | Some p => Some (String x p)
      | None => if Ascii.eqb x c then Some EmptyString else None
      end
  end.

(** [re.search] for an opening brace, any text (the group) and a closing
    brace, and the group it finds: the leftmost "{" that has a "}" after
    it on the same line, and the text between it and the last such "}". *)
Fixpoint search_braces (s : string) : option string :=
  match s with
  | EmptyString => None
  | String x r =>
      if Ascii.eqb x "{"%char then
        match until_last "}"%char (first_line r) with
        | Some group => Some group
        | None => search_braces r
        end
      else search_braces r
  end.

Definition digit (c : ascii) : option Z :=
  let n := nat_of_ascii c in
  if (48 <=? n) && (n <=? 57) then Some (Z.of_nat (n - 48)) else None.

Fixpoint digits (acc : Z) (s : string) : option Z :=
  match s with
  | EmptyString => Some acc
  | String c r =>
      match digit c with
      | Some d => digits (10 * acc + d)%Z r
      | None => None
      end
  end.

(** [int(s)] on text without white space around it: decimal digits, with
    a sign or without. *)
Definition int (s : string) : option Z :=
  match s with
  | EmptyString => None
  | String c r =>
      if Ascii.eqb c "-"%char then
        match r with
        | EmptyString => None
        | _ => option_map Z.opp (digits 0 r)
        end
      else if Ascii.eqb c "+"%char then
        match r with
        | EmptyString => None
        | _ => digits 0 r
        end
      else digits 0 s
  end.

(** No byte of the text is the given one. *)
Fixpoint lacks (c : ascii) (s : string) : bool :=
  match s with
  | EmptyString => true
  | String x r => negb (Ascii.eqb x c) && lacks c r
  end.

(** The text neither starts nor ends with white space. *)
Definition trimmed (s : string) : bool := String.eqb (strip s) s.

(** [sep.join(parts)]. *)
Fixpoint join (sep : string) (parts : list string) : string :=
  match parts with
  | [] => EmptyString
  | [p] => p
  | p :: rest => String.append p (String.append sep (join sep rest))
  end.

End Str.

(** *** Encodings

    What [bytes.decode(encoding)] does for an encoding: the text, or
    nothing where it raises [UnicodeDecodeError]. *)

Module Codec.

Definition t : Type := string -> option string.

Fixpoint all_ascii (s : string) : bool :=
  match s with
  | EmptyString => true
  | String c r => (nat_of_ascii c <? 128) && all_ascii r
  end.

(** ['ascii']. *)
Definition ascii : t := fun bytes => if all_ascii bytes then Some bytes else None.

(** ['latin-1']: every byte is the character of that number. *)
Fixpoint latin_1_text (bytes : string) : string :=
  match bytes with
  | EmptyString => EmptyString
  | String c r =>
      let n := nat_of_ascii c in
      if n <? 128 then String c (latin_1_text r)
      else if n <? 192 then String (ascii_of_nat 194) (String c (latin_1_text r))
      else String (ascii_of_nat 195) (String (ascii_of_nat (n - 64)) (latin_1_text r))
  end.

Definition latin_1 : t := fun bytes => Some (latin_1_text bytes).

(** The well-formed UTF-8: no stray or missing continuation byte, no
    longer form than needed, no surrogate, nothing beyond U+10FFFF. *)
Fixpoint well_formed (s : string) : bool :=
  match s with
  | EmptyString => true
  | String c1 r1 =>
      let b1 := nat_of_ascii c1 in
      if b1 <? 128 then well_formed r1
      else if (194 <=? b1) && (b1 <=? 223) then
        match r1 with
        | String c2 r2 => Str.continuation c2 && well_formed r2
        | _ => false
        end
      else if (224 <=? b1) && (b1 <=? 239) then
        match r1 with
        | String c2 (String c3 r3) =>
            let b2 := nat_of_ascii c2 in
            Str.continuation c2 && Str.continuation c3 &&
            negb ((b1 =? 224) && (b2 <? 160)) &&
            negb ((b1 =? 237) && (160 <=? b2)) &&
            well_formed r3
        | _ => false
        end
      else if (240 <=? b1) && (b1 <=? 244) then
        match r1 with
        | String c2 (String c3 (String c4 r4)) =>
            let b2 := nat_of_ascii c2 in
            Str.continuation c2 && Str.continuation c3 && Str.continuation c4 &&
            negb ((b1 =? 240) && (b2 <? 144)) &&
            negb ((b1 =? 244) && (144 <=? b2)) &&
            well_formed r4
        | _ => false
        end
      else false
  end.

(** ['utf-8']. *)
Definition utf_8 : t := fun bytes => if well_formed bytes then Some bytes else None.

End Codec.

(** *** Dictionaries with string keys *)

Module Dict.

Definition t (V : Type) : Type := list (string * V).

(** [d.get(k)]. *)
Fixpoint get {V : Type} (k : string) (d : t V) : option V :=
  match d with
  | [] => None
  | (k', v) :: rest => if String.eqb k' k then Some v else get k rest
  end.

(** [d[k] = v]. *)
Fixpoint set {V : Type} (k : string) (v : V) (d : t V) : t V :=
  match d with
  | [] => [(k, v)]
  | (k', v') :: rest =>
      if String.eqb k' k then (k, v) :: rest else (k', v') :: set k v rest
  end.

(** [d.setdefault(k, v)], as the dictionary it leaves. *)
Definition setdefault {V : Type} (k : string) (v : V) (d : t V) : t V :=
  match get k d with
  | Some _ => d
  | None => d ++ [(k, v)]
  end.

Definition keys {V : Type} (d : t V) : list string := map fst d.

(** [k in d]. *)
Definition mem {V : Type} (k : string) (d : t V) : bool :=
  match get k d with
  | Some _ => true
  | None => false
  end.

End Dict.

(** *** The plugin *)

Module UdevDatabase.

(** The exceptions the plugin raises or lets through. *)
Inductive error : Type :=
| ValueError
| TypeError
| AttributeError
| UnicodeDecodeError
| EnvironmentError (errno : Z)
| CalledProcessError (returncode : Z) (command : list string).

Inductive result (A : Type) : Type :=
| Ok (a : A)
| Error (e : error).

Arguments Ok {A} a.
Arguments Error {A} e.

(** [errno.ENOENT]. *)
Definition ENOENT : Z := 2.

(** What [subprocess.Popen(command, stdout=PIPE)] with [communicate()]
    comes to: the program could not be started, or it ran and left a
    return code and its output. *)
Inductive Spawned : Type :=
| NotStarted (errno : Z)
| Exited (returncode : Z) (stdout : string).

(** The machine the plugin runs on: what each command does, and the
    commands run so far. *)
Record Host : Type := {
  spawn : list string -> Spawned;
  commands : list (list string)
}.

Definition ran (command : list string) (host : Host) : Host :=
  {| spawn := spawn host; commands := commands host ++ [command] |}.

(** [bytes.decode(sys.getfilesystemencoding())], the encoding being the
    machine's. *)
Definition decode (encoding : Codec.t) (bytes : string) : result string :=
  match encoding bytes with
  | Some text => Ok text
  | None => Error UnicodeDecodeError
  end.

(** [type, value = parts]: two parts or [ValueError]. *)
Definition unpack2 (parts : list string) : result (string * string) :=
  match parts with
  | [a; b] => Ok (a, b)
  | _ => Error ValueError
  end.

(** [_filter_dict(d, blacklisted_attributes)]. *)
Definition _filter_dict (d : Dict.t string) (blacklisted_attributes : list string)
  : Dict.t string :=
  filter (fun kv => negb (existsb (String.eqb (fst kv)) blacklisted_attributes)) d.

Module UDevAdm.

Record t : Type := { udevadm : string }.

Definition CANDIDATES : list string := ["/sbin/udevadm"; "udevadm"]%string.

Definition __init__ (udevadm : string) : t := {| udevadm := udevadm |}.

(** [UDevAdm._execute(self, *args)]. *)
Definition _execute (self : t) (args : list string) (host : Host)
  : Host * result string :=
  let command := udevadm self :: args in
  match spawn host command with
  | NotStarted errno => (ran command host, Error (EnvironmentError errno))
  | Exited returncode stdout =>
      let output := Str.strip stdout in
      if negb (returncode =? 0)%Z
      then (ran command host, Error (CalledProcessError returncode command))
      else (ran command host, Ok output)
  end.

(** [UDevAdm.read_version(self)]. *)
Definition read_version (self : t) (host : Host) : Host * result Z :=
  match _execute self ["--version"%string] host with
  | (host', Ok output) =>
      match Str.int output with
      | Some version => (host', Ok version)
      | None => (host', Error ValueError)
      end
  | (host', Error e) => (host', Error e)
  end.

(** The loop of [UDevAdm.find(cls)] over the candidates left; falling out
    of the loop returns [None]. *)
Fixpoint find_among (candidates : list string) (host : Host)
  : Host * result (option t) :=
  match candidates with
  | [] => (host, Ok None)
  | candidate :: rest =>
      let udevadm := __init__ candidate in
      match read_version udevadm host with
      | (host', Ok _) => (host', Ok (Some udevadm))
      | (host', Error (EnvironmentError errno)) =>
          if negb (errno =? ENOENT)%Z
          then (host', Error (EnvironmentError errno))
          else find_among rest host'
      | (host', Error e) => (host', Error e)
      end
  end.

(** [UDevAdm.find(cls)]. *)
Definition find : Host -> Host * result (option t) := find_among CANDIDATES.

(** The state of the loop of [read_devices]: [devices], and the path whose
    dictionary [current_properties] is ([None] before the first device). *)
Record reading : Type := {
  devices : Dict.t (Dict.t string);
  current_properties : option string
}.

(** [current_properties[property] = value], the dictionary being the one
    [devices] holds for the path. *)
Definition set_property (path property value : string) (devices : Dict.t (Dict.t string))
  : Dict.t (Dict.t string) :=
  match Dict.get path devices with
  | Some properties => Dict.set path (Dict.set property value properties) devices
  | None => devices
  end.

(** The body of the loop of [read_devices] for one line. *)
Definition read_devices_line (encoding : Codec.t) (st : reading) (line : string)
  : result reading :=
  match decode encoding (Str.strip line) with
  | Error e => Error e
  | Ok line =>
      if String.eqb line EmptyString then Ok st
      else
        match unpack2 (Str.split1 ": " line) with
        | Error e => Error e
        | Ok (type, value) =>
            if String.eqb type "P" then
              Ok {| devices := Dict.setdefault value [] (devices st);
                    current_properties := Some value |}
            else if String.eqb type "E" then
              match unpack2 (Str.split1 "=" value) with
              | Error e => Error e
              | Ok (property, value) =>
                  match current_properties st with
                  | None => Error TypeError
                  | Some path =>
                      Ok {| devices := set_property path property value (devices st);
                            current_properties := Some path |}
                  end
              end
            else Ok st
        end
  end.

Fixpoint read_devices_loop (encoding : Codec.t) (database : list string) (st : reading)
  : result reading :=
  match database with
  | [] => Ok st
  | line :: rest =>
      match read_devices_line encoding st line with
      | Ok st' => read_devices_loop encoding rest st'
      | Error e => Error e
      end
  end.

(** [devices = {}] and [current_properties = None], before the loop. *)
Definition nothing_read : reading :=
  {| devices := []; current_properties := None |}.

(** What the loop of [read_devices] keeps: no path is a key twice, and
    the path of [current_properties] is a key. *)
Definition reading_ok (st : reading) : Prop :=
  NoDup (Dict.keys (devices st)) /\
  match current_properties st with
  | Some path => In path (Dict.keys (devices st))
  | None => True
  end.

(** [read_devices] from the lines of the database on. *)
Definition read_devices_lines (encoding : Codec.t) (database : list string)
  : result (Dict.t (Dict.t string)) :=
  match read_devices_loop encoding database
          {| devices := []; current_properties := None |} with
  | Ok st => Ok (devices st)
  | Error e => Error e
  end.

(** [UDevAdm.read_devices(self)]. *)
Definition read_devices (encoding : Codec.t) (self : t) (host : Host)
  : Host * result (Dict.t (Dict.t string)) :=
  match _execute self ["info"; "--export-db"]%string host with
  | (host', Ok output) => (host', read_devices_lines encoding (Str.splitlines output))
  | (host', Error e) => (host', Error e)
  end.

(** The loop of [read_device_attributes]; [break] ends it with the
    attributes read so far. *)
Fixpoint read_attributes_loop (encoding : Codec.t) (attribute_dump : list string)
  (attributes : Dict.t string) : result (Dict.t string) :=
  match attribute_dump with
  | [] => Ok attributes
  | line :: rest =>
      match decode encoding (Str.strip line) with
      | Error e => Error e
      | Ok line =>
          if Str.startswith "looking at parent device" line then Ok attributes
          else if Str.startswith "ATTR" line then
            match unpack2 (Str.split1 "==" line) with
            | Error e => Error e
            | Ok (name, value) =>
                let value := Str.slice_1_m1 value in
                match Str.search_braces name with
                | None => Error AttributeError
                | Some name =>
                    read_attributes_loop encoding rest (Dict.set name value attributes)
                end
            end
          else read_attributes_loop encoding rest attributes
      end
  end.

(** [UDevAdm.read_device_attributes(self, device_path)]. *)
Definition read_device_attributes (encoding : Codec.t) (self : t) (device_path : string)
  (host : Host) : Host * result (Dict.t string) :=
  match _execute self ["info"; "--attribute-walk"; "--path"; device_path]%string host with
  | (host', Ok output) =>
      (host', read_attributes_loop encoding (Str.splitlines output) [])
  | (host', Error e) => (host', Error e)
  end.

(** [UDevAdm.query_device(self, device_path, query_type)]. *)
Definition query_device (encoding : Codec.t) (self : t) (device_path query_type : string)
  (host : Host) : Host * result (option string) :=
  if negb (existsb (String.eqb query_type) ["symlink"; "name"]%string) then
    (host, Error ValueError)
  else
    match _execute self ["info"; "--root"; "--path"; device_path;
                         "--query"; query_type]%string host with
    | (host', Error (CalledProcessError _ _)) => (host', Ok None)
    | (host', Error e) => (host', Error e)
    | (host', Ok output) =>
        match decode encoding output with
        | Ok text => (host', Ok (Some text))
        | Error e => (host', Error e)
        end
    end.

End UDevAdm.

Module DeviceData.

Record t : Type := {
  device_path : string;
  _all_properties : Dict.t string;
  _udevadm : UDevAdm.t
}.

Definition PROPERTIES_BLACKLIST : list string :=
  ["POWER_SUPPLY_CURRENT_NOW"; "POWER_SUPPLY_VOLTAGE_NOW";
   "POWER_SUPPLY_CHARGE_NOW"]%string.

Definition ATTRIBUTES_BLACKLIST : list string :=
  ["power_on_acct"; "temp1_input"; "charge_now"; "current_now"; "urbnum"]%string.

Definition __init__ (device_path : string) (properties : Dict.t string)
  (udevadm : UDevAdm.t) : t :=
  {| device_path := device_path;
     _all_properties := properties;
     _udevadm := udevadm |}.

(** The property [sys_path]. *)
Definition sys_path (self : t) : string := String.append "/sys" (device_path self).

(** The property [properties]. *)
Definition properties (self : t) : Dict.t string :=
  _filter_dict (_all_properties self) PROPERTIES_BLACKLIST.

(** The property [attributes]. *)
Definition attributes (encoding : Codec.t) (self : t) (host : Host)
  : Host * result (Dict.t string) :=
  match UDevAdm.read_device_attributes encoding (_udevadm self) (device_path self) host with
  | (host', Ok attrs) => (host', Ok (_filter_dict attrs ATTRIBUTES_BLACKLIST))
  | (host', Error e) => (host', Error e)
  end.

(** The property [tags]. *)
Definition tags (self : t) : list string :=
  let tags :=
    Str.split ":"%char
      (match Dict.get "TAGS" (_all_properties self) with
       | Some v => v
       | None => EmptyString
       end) in
  filter (fun t => negb (String.eqb t EmptyString)) tags.

(** The property [device_node]. *)
Definition device_node (encoding : Codec.t) (self : t) (host : Host)
  : Host * result (option string) :=
  UDevAdm.query_device encoding (_udevadm self) (device_path self) "name" host.

(** The property [device_links]; [if links] fails for [None] and for the
    empty string. *)
Definition device_links (encoding : Codec.t) (self : t) (host : Host)
  : Host * result (list string) :=
  match UDevAdm.query_device encoding (_udevadm self) (device_path self) "symlink" host with
  | (host', Ok (Some links)) =>
      if String.eqb links EmptyString then (host', Ok [])
      else (host', Ok (Str.words links))
  | (host', Ok None) => (host', Ok [])
  | (host', Error e) => (host', Error e)
  end.

End DeviceData.

Module DeviceDatabase.

Record t : Type := {
  _udevadm : UDevAdm.t;
  _devices : Dict.t (Dict.t string)
}.

(** [DeviceDatabase.__init__(self, udevadm)]. *)
Definition __init__ (encoding : Codec.t) (udevadm : UDevAdm.t) (host : Host)
  : Host * result t :=
  match UDevAdm.read_devices encoding udevadm host with
  | (host', Ok devices) => (host', Ok {| _udevadm := udevadm; _devices := devices |})
  | (host', Error e) => (host', Error e)
  end.

(** [DeviceDatabase.__iter__(self)], as the list of what it yields. *)
Definition __iter__ (self : t) : list DeviceData.t :=
  map (fun dp => DeviceData.__init__ (fst dp) (snd dp) (_udevadm self)) (_devices self).

(** [DeviceDatabase.__len__(self)]. *)
Definition __len__ (self : t) : nat := List.length (_devices self).

(** [DeviceDatabase.find_device_data(self, device_path)]. *)
Definition find_device_data (self : t) (device_path : string) : option DeviceData.t :=
  match Dict.get device_path (_devices self) with
  | Some properties => Some (DeviceData.__init__ device_path properties (_udevadm self))
  | None => None
  end.

End DeviceDatabase.

(** The pytest configuration as the plugin reads and sets it:
    [config.option.device], [config.option.all_devices],
    [config.getvalue('device_sample_size')], and the attributes
    [udev_version], [udev_database] and [udev_device_sample], which are
    not there ([None]) until [pytest_configure] sets them. *)
Record Config : Type := {
  option_device : option string;
  option_all_devices : bool;
  device_sample_size : Z;
  udev_version : option Z;
  udev_database : option DeviceDatabase.t;
  udev_device_sample : option (list DeviceData.t)
}.

Definition set_udev_version (version : Z) (config : Config) : Config :=
  {| option_device := option_device config;
     option_all_devices := option_all_devices config;
     device_sample_size := device_sample_size config;
     udev_version := Some version;
     udev_database := udev_database config;
     udev_device_sample := udev_device_sample config |}.

Definition set_udev_database (database : DeviceDatabase.t) (config : Config) : Config :=
  {| option_device := option_device config;
     option_all_devices := option_all_devices config;
     device_sample_size := device_sample_size config;
     udev_version := udev_version config;
     udev_database := Some database;
     udev_device_sample := udev_device_sample config |}.

Definition set_udev_device_sample (sample : list DeviceData.t) (config : Config) : Config :=
  {| option_device := option_device config;
     option_all_devices := option_all_devices config;
     device_sample_size := device_sample_size config;
     udev_version := udev_version config;
     udev_database := udev_database config;
     udev_device_sample := Some sample |}.

(** [_get_device_sample(config)].  [random_sample population k] stands for
    what [random.sample] answers for a size within the population; a
    negative size it refuses with [ValueError], and a size beyond the
    population cannot be asked for here.  Every path reads
    [config.udev_database] first of the attributes that may be missing. *)
Definition _get_device_sample
  (random_sample : list DeviceData.t -> nat -> list DeviceData.t)
  (config : Config) : result (list DeviceData.t) :=
  match udev_database config with
  | None => Error AttributeError
  | Some database =>
      match option_device config with
      | Some device =>
          match DeviceDatabase.find_device_data database device with
          | None => Error ValueError
          | Some device_data => Ok [device_data]
          end
      | None =>
          if option_all_devices config then
            Ok (DeviceDatabase.__iter__ database)
          else
            let actual_size :=
              Z.min (device_sample_size config)
                    (Z.of_nat (DeviceDatabase.__len__ database)) in
            if (actual_size <? 0)%Z then Error ValueError
            else Ok (random_sample (DeviceDatabase.__iter__ database)
                                   (Z.to_nat actual_size))
      end
  end.

(** [pytest_configure(config)]: the host and the configuration it leaves,
    and whether it returned.  Registering the marker sets none of the
    attributes here; [UDevAdm.find()] may have returned [None], which has
    no [read_version]. *)
Definition pytest_configure (encoding : Codec.t)
  (random_sample : list DeviceData.t -> nat -> list DeviceData.t)
  (config : Config) (host : Host) : Host * Config * result unit :=
  match UDevAdm.find host with
  | (host, Error e) => (host, config, Error e)
  | (host, Ok None) => (host, config, Error AttributeError)
  | (host, Ok (Some udevadm)) =>
      match UDevAdm.read_version udevadm host with
      | (host, Error e) => (host, config, Error e)
      | (host, Ok version) =>
          let config := set_udev_version version config in
          match DeviceDatabase.__init__ encoding udevadm host with
          | (host, Error e) => (host, config, Error e)
          | (host, Ok database) =>
              let config := set_udev_database database config in
              match _get_device_sample random_sample config with
              | Error e => (host, config, Error e)
              | Ok sample => (host, set_udev_device_sample sample config, Ok tt)
              end
          end
      end
  end.

(** How a dump of the database is written, one block for each device: its
    path, its properties, an empty line. *)
Definition export_block (block : string * Dict.t string) : list string :=
  (String.append "P: " (fst block))
  :: map (fun kv => String.append "E: " (String.append (fst kv) (String.append "=" (snd kv))))
         (snd block)
  ++ [EmptyString].

Definition export_db (blocks : Dict.t (Dict.t string)) : list string :=
  flat_map export_block blocks.

(** The blocks a dump holds as they are: paths that differ, are not empty
    and do not end in white space; within a block, property names that
    differ and hold no "="; values that do not end in white space. *)
Definition exportable_block (block : string * Dict.t string) : Prop :=
  fst block <> EmptyString /\
  Str.rstrip (fst block) = fst block /\
  NoDup (Dict.keys (snd block)) /\
  Forall (fun kv => Str.lacks "="%char (fst kv) = true /\
                    Str.rstrip (snd kv) = snd kv) (snd block).

Definition exportable (blocks : Dict.t (Dict.t string)) : Prop :=
  NoDup (Dict.keys blocks) /\ Forall exportable_block blocks.

(** A line of an attribute walk for one attribute, indented. *)
Definition attribute_line (indent name value : string) : string :=
  String.append indent
    (String.append "ATTR{"
       (String.append name
          (String.append "}==" (String (ascii_of_nat 34)
             (String.append value (String (ascii_of_nat 34) EmptyString)))))).

(** What the lines of a walk are asked: a name without "=" and without
    a line break, a value that is text, and a line that the machine
    decodes to itself. *)
Definition walkable (encoding : Codec.t) (kv : string * string) : Prop :=
  Str.lacks "="%char (fst kv) = true /\
  Str.lacks "010"%char (fst kv) = true /\
  Str.starts_at_character (snd kv) = true /\
  encoding (attribute_line "" (fst kv) (snd kv)) =
    Some (attribute_line "" (fst kv) (snd kv)).

End UdevDatabase.

(** ** A machine with a small udev database *)

Module Sample.

Import UdevDatabase.

Definition newline : string := String "010"%char EmptyString.

Definition blocks : Dict.t (Dict.t string) :=
  [("/devices/platform/serial8250",
    [("SUBSYSTEM", "platform"); ("TAGS", ":systemd:seat:");
     ("POWER_SUPPLY_CHARGE_NOW", "41")]);
   ("/devices/virtual/mem/null",
    [("DEVNAME", "/dev/null"); ("MAJOR", "1"); ("MINOR", "3")])]%string.

Definition database : list string := export_db blocks.

Definition attributes : Dict.t string :=
  [("dev", "1:3"); ("urbnum", "17"); ("uevent", "MAJOR=1")]%string.

Definition parent_line : string :=
  "  looking at parent device '/devices/virtual/mem':"%string.

Definition attribute_walk : list string :=
  map (fun kv => attribute_line "    " (fst kv) (snd kv)) attributes
  ++ [parent_line; attribute_line "    " "power" "on"]%string.

Definition udevadm : UDevAdm.t := UDevAdm.__init__ "udevadm".

Definition same_command (a b : list string) : bool :=
  if list_eq_dec string_dec a b then true else false.

(** No [/sbin/udevadm]; a [udevadm] of version 245 that knows the two
    devices above, the second with a symbolic link and a node. *)
Definition host : Host :=
  {| spawn := fun command =>
       match command with
       | program :: args =>
           if negb (String.eqb program "udevadm") then NotStarted ENOENT
           else if same_command args ["--version"]%string then
             Exited 0 (String.append "245" newline)
           else if same_command args ["info"; "--export-db"]%string then
             Exited 0 (Str.join newline database)
           else if same_command args
                     ["info"; "--attribute-walk"; "--path";
                      "/devices/virtual/mem/null"]%string then
             Exited 0 (Str.join newline attribute_walk)
           else if same_command args
                     ["info"; "--root"; "--path"; "/devices/virtual/mem/null";
                      "--query"; "symlink"]%string then
             Exited 0 (String.append "/dev/char/1:3 /dev/zero0" newline)
           else if same_command args
                     ["info"; "--root"; "--path"; "/devices/virtual/mem/null";
                      "--query"; "name"]%string then
             Exited 0 (String.append "/dev/null" newline)
           else Exited 1 EmptyString
       | [] => NotStarted ENOENT
       end;
     commands := [] |}.

Definition device_database : DeviceDatabase.t :=
  {| DeviceDatabase._udevadm := udevadm; DeviceDatabase._devices := blocks |}.

Definition null : DeviceData.t :=
  DeviceData.__init__ "/devices/virtual/mem/null"
    [("DEVNAME", "/dev/null"); ("MAJOR", "1"); ("MINOR", "3")]%string udevadm.

Definition config : Config :=
  {| option_device := None;
     option_all_devices := false;
     device_sample_size := 10;
     udev_version := Some 245%Z;
     udev_database := Some device_database;
     udev_device_sample := None |}.

(** The configuration before [pytest_configure]. *)
Definition fresh_config : Config :=
  {| option_device := Some "/devices/virtual/mem/null"%string;
     option_all_devices := false;
     device_sample_size := 10;
     udev_version := None;
     udev_database := None;
     udev_device_sample := None |}.

(** A machine without any [udevadm]. *)
Definition bare_host : Host :=
  {| spawn := fun _ => NotStarted ENOENT; commands := [] |}.

(** A [random.sample] that takes the first items. *)
Definition first_items (population : list DeviceData.t) (k : nat)
  : list DeviceData.t := firstn k population.

End Sample.

(** * Properties *)

(** ** Monitor *)

Section MonitorFacts.

Import Monitor.

Lemma libudev_started {A : Type} (f : udev_monitor -> udev_monitor * A) (self : t) :
  _started (fst (libudev f self)) = _started self.
Proof.
  unfold libudev. destruct (f (_as_parameter_ self)). reflexivity.
Qed.

Lemma select_select_state (timeout : option Q) (self : t) :
  fst (select_select timeout self) = self.
Proof.
  unfold select_select.
  destruct (timeout_error timeout); [reflexivity|].
  destruct (negb (selectable (fd (_as_parameter_ self)))); [reflexivity|].
  destruct (socket _); [destruct timeout|]; reflexivity.
Qed.

(** [poll] writes nothing but the socket and the count of receives. *)
Lemma poll_frame (timeout : option Q) (self : t) :
  let self' := fst (poll timeout self) in
  _started self' = _started self /\
  receiving (_as_parameter_ self') = receiving (_as_parameter_ self) /\
  enable_receiving_calls (_as_parameter_ self') =
    enable_receiving_calls (_as_parameter_ self) /\
  delivered (_as_parameter_ self') = delivered (_as_parameter_ self).
Proof.
  unfold poll, bind, fileno.
  pose proof (select_select_state timeout self) as Hsel.
  destruct (select_select timeout self) as [s1 o]; simpl in Hsel; subst s1.
  destruct o as [rlist| |]; simpl; auto.
  destruct (existsb _ rlist); simpl; auto.
  unfold libudev, udev_monitor_receive_device; simpl.
  destruct (socket (_as_parameter_ self)) as [|[p|] rest]; simpl; auto.
Qed.

Lemma start_started (self : t) : _started (fst (start self)) = true.
Proof.
  unfold start, bind, get; simpl.
  destruct (_started self) eqn:E; simpl; auto.
Qed.

Lemma start_when_started (self : t) :
  _started self = true -> start self = (self, Return tt).
Proof.
  intros E. unfold start, bind, get; simpl. rewrite E. reflexivity.
Qed.

Lemma start_returns (self : t) : snd (start self) = Return tt.
Proof.
  unfold start, bind, get; simpl. destruct (_started self); reflexivity.
Qed.

(** No operation clears the flag. *)
Lemma apply_keeps_started (op : Op) (self : t) :
  _started self = true -> _started (apply op self) = true.
Proof.
  intros E. destruct op; simpl.
  - apply start_started.
  - destruct (poll_frame timeout self) as [H _]. simpl in H. congruence.
  - unfold filter_by, bind, libudev; simpl; exact E.
  - unfold filter_by_tag, bind, libudev; simpl; exact E.
  - unfold remove_filter, bind, libudev_checked, libudev,
      udev_monitor_filter_remove.
    destruct broken; simpl; exact E.
  - unfold set_receive_buffer_size, libudev_checked,
      udev_monitor_set_receive_buffer_size.
    destruct permitted; simpl; exact E.
  - exact E.
  - exact E.
Qed.

(** Only [start] sets it. *)
Lemma apply_sets_started (op : Op) (self : t) :
  _started self = false -> _started (apply op self) = true -> op = OpStart.
Proof.
  intros E H. destruct op; simpl in H; try reflexivity.
  - destruct (poll_frame timeout self) as [H' _]. simpl in H'. congruence.
  - unfold filter_by, bind, libudev in H; simpl in H; congruence.
  - unfold filter_by_tag, bind, libudev in H; simpl in H; congruence.
  - unfold remove_filter, bind, libudev_checked, libudev,
      udev_monitor_filter_remove in H.
    destruct broken; simpl in H; congruence.
  - unfold set_receive_buffer_size, libudev_checked,
      udev_monitor_set_receive_buffer_size in H.
    destruct permitted; simpl in H; congruence.
  - congruence.
  - congruence.
Qed.

Lemma history_started (ops : list Op) (self : t) :
  _started self = true ->
  rises (map _started (history ops self)) = 0 /\
  falls (map _started (history ops self)) = 0.
Proof.
  revert self. induction ops as [|op ops IH]; intros self E.
  - simpl. rewrite E. auto.
  - pose proof (apply_keeps_started op self E) as E'.
    destruct (IH _ E') as [Hr Hf].
    cbn [history map]. rewrite E.
    destruct ops as [|op' ops]; cbn [history map] in *; rewrite E' in *; simpl; auto.
Qed.

Lemma history_head (ops : list Op) (self : t) :
  exists rest, map _started (history ops self) = _started self :: rest.
Proof.
  destruct ops; simpl; eauto.
Qed.

Lemma history_unstarted (ops : list Op) (self : t) :
  _started self = false ->
  rises (map _started (history ops self)) <= 1 /\
  falls (map _started (history ops self)) = 0 /\
  (In OpStart ops -> rises (map _started (history ops self)) = 1).
Proof.
  revert self. induction ops as [|op ops IH]; intros self E.
  - simpl. rewrite E. repeat split; auto. intros [].
  - cbn [history map]. rewrite E.
    destruct (history_head ops (apply op self)) as [rest Hrest].
    destruct (_started (apply op self)) eqn:E'.
    + destruct (history_started ops _ E') as [Hr Hf].
      rewrite Hrest in *.
      change (rises (false :: true :: rest)) with (S (rises (true :: rest))).
      change (falls (false :: true :: rest)) with (falls (true :: rest)).
      rewrite Hr, Hf. repeat split; auto.
    + destruct (IH _ E') as (Hr & Hf & Hin).
      rewrite Hrest in *.
      change (rises (false :: false :: rest)) with (rises (false :: rest)).
      change (falls (false :: false :: rest)) with (falls (false :: rest)).
      repeat split; auto.
      intros [->|Hi]; auto.
      simpl in E'. rewrite start_started in E'. discriminate.
Qed.

End MonitorFacts.

(** C1 (the code does not do what the claim and the docstrings say).
    [poll] never calls [start()]: whatever the timeout, the [_started]
    flag, the receiving state of the socket and the number of
    [udev_monitor_enable_receiving] calls are after [poll] what they were
    before.  On a monitor fresh from the constructor, [poll(0)] returns
    [None], or raises [ValueError] for a descriptor [select] does not
    take, and leaves it unstarted, with delivery not activated. *)
Theorem C1_poll_does_not_start :
  (forall (timeout : option Q) (self : Monitor.t),
     let self' := fst (Monitor.poll timeout self) in
     Monitor._started self' = Monitor._started self /\
     Monitor.receiving (Monitor._as_parameter_ self') =
       Monitor.receiving (Monitor._as_parameter_ self) /\
     Monitor.enable_receiving_calls (Monitor._as_parameter_ self') =
       Monitor.enable_receiving_calls (Monitor._as_parameter_ self)) /\
  (forall sock : Z,
     let fresh := Monitor.__init__ (Monitor.new_udev_monitor sock) in
     Monitor.poll (Some 0%Q) fresh =
       (fresh, if Monitor.selectable sock then Return None else Raise ValueError) /\
     Monitor.started fresh = false /\
     Monitor.receiving (Monitor._as_parameter_ fresh) = false).
Proof.
  split.
  - intros timeout self self'.
    destruct (poll_frame timeout self) as (H1 & H2 & H3 & _). auto.
  - intros sock fresh. split; [|split; reflexivity].
    unfold Monitor.poll, Monitor.select_select, bind. cbn.
    destruct (Monitor.selectable sock); reflexivity.
Qed.

(** C6.  [from_netlink] on the source names "udev" and "kernel" either
    returns a monitor that is not started, or raises [EnvironmentError],
    and it raises only when the connection could not be made; on any other
    name it raises [ValueError] and leaves the context as it was, so no
    connection was attempted. *)
Theorem C6_from_netlink_outcomes :
  forall (context : Monitor.Context) (source : string),
    (source = "udev"%string \/ source = "kernel"%string ->
     let attempted :=
       {| Monitor.daemon := Monitor.daemon context;
          Monitor.netlink_calls := Monitor.netlink_calls context ++ [source] |} in
     (exists monitor,
        Monitor.from_netlink source context = (attempted, Return monitor) /\
        Monitor.started monitor = false /\
        Monitor.daemon context source <> None) \/
     (Monitor.from_netlink source context = (attempted, Raise EnvironmentError) /\
      Monitor.daemon context source = None)) /\
    (source <> "udev"%string /\ source <> "kernel"%string ->
     Monitor.from_netlink source context = (context, Raise ValueError)).
Proof.
  intros context source. split.
  - intros Hsrc attempted.
    assert (Hin : existsb (String.eqb source) ["kernel"; "udev"]%string = true).
    { destruct Hsrc as [-> | ->]; reflexivity. }
    unfold Monitor.from_netlink. rewrite Hin. simpl.
    unfold bind, Monitor.udev_monitor_new_from_netlink, Monitor.ensure_byte_string.
    destruct (Monitor.daemon context source) as [sock|] eqn:E; simpl.
    + left. eexists. repeat split. discriminate.
    + right. split; reflexivity.
  - intros [Hu Hk].
    unfold Monitor.from_netlink. simpl.
    destruct (String.eqb_spec source "kernel"); [contradiction|].
    destruct (String.eqb_spec source "udev"); [contradiction|].
    reflexivity.
Qed.

(** C6, at a context whose daemon answers for "udev" only: "udev" gives
    an unstarted monitor, "kernel" raises [EnvironmentError] after one
    attempt, and "tty" raises [ValueError] with no attempt made. *)
Lemma C6_from_netlink_outcomes_witness :
  (exists context' monitor,
     Monitor.from_netlink "udev" Example.context = (context', Return monitor) /\
     Monitor.started monitor = false /\
     Monitor.netlink_calls context' = ["udev"%string]) /\
  (exists context',
     Monitor.from_netlink "kernel" Example.context =
       (context', Raise EnvironmentError) /\
     Monitor.netlink_calls context' = ["kernel"%string]) /\
  Monitor.from_netlink "tty" Example.context = (Example.context, Raise ValueError).
Proof.
  destruct (C6_from_netlink_outcomes Example.context "udev") as [Hudev _].
  destruct (C6_from_netlink_outcomes Example.context "kernel") as [Hkernel _].
  destruct (C6_from_netlink_outcomes Example.context "tty") as [_ Htty].
  split; [|split].
  - destruct (Hudev (or_introl eq_refl)) as [(m & Hm & Hs & _) | [_ Hnone]];
      [|discriminate].
    eexists. exists m. split; [exact Hm|]. split; [exact Hs|reflexivity].
  - destruct (Hkernel (or_intror eq_refl)) as [(m & _ & _ & Hsome) | [Hm _]];
      [exfalso; apply Hsome; reflexivity|].
    eexists. split; [exact Hm|reflexivity].
  - apply Htty. split; discriminate.
Defined.

(** C7 (amended).  [poll] with a timeout that [select] accepts (none, zero,
    or a positive number of seconds that it can hold), on a monitor whose
    descriptor [select] takes: when the socket is not readable it makes no
    receive, returning [None] once the timeout has run out (and not
    returning at all without a timeout); when the socket is readable it
    makes exactly one receive, which takes the oldest datagram, and
    returns the one device of that datagram, or raises [EnvironmentError]
    when the receive yields nothing. *)
Theorem C7_poll_receives_once :
  forall (timeout : option Q) (self : Monitor.t),
    Monitor.valid_timeout timeout = true ->
    Monitor.selectable (Monitor.fd (Monitor._as_parameter_ self)) = true ->
    let um := Monitor._as_parameter_ self in
    match Monitor.socket um with
    | [] =>
        Monitor.select_select timeout self =
          (self, match timeout with Some _ => Return [] | None => Blocks end) /\
        Monitor.poll timeout self =
          (self, match timeout with Some _ => Return None | None => Blocks end)
    | dg :: rest =>
        Monitor.select_select timeout self = (self, Return [Monitor.fd um]) /\
        exists um',
          Monitor.poll timeout self =
            (Monitor.set_as_parameter um' self,
             match dg with
             | Monitor.Event p => Return (Some {| Monitor.device_p := p |})
             | Monitor.Garbled => Raise EnvironmentError
             end) /\
          Monitor.receive_device_calls um' = S (Monitor.receive_device_calls um) /\
          Monitor.socket um' = rest /\
          Monitor.delivered um' = Monitor.delivered um
    end.
Proof.
  intros timeout [um0 flag] Hvalid Hfd um. simpl in um. subst um.
  assert (Herr : Monitor.timeout_error timeout = None).
  { unfold Monitor.valid_timeout in Hvalid.
    destruct (Monitor.timeout_error timeout); [discriminate|reflexivity]. }
  unfold Monitor.poll, Monitor.select_select, Monitor.fileno, bind,
    Monitor.libudev, Monitor.udev_monitor_get_fd,
    Monitor.udev_monitor_receive_device, Monitor.set_as_parameter.
  cbn [Monitor._as_parameter_ Monitor._started] in *.
  rewrite Herr, Hfd. cbn [negb].
  destruct (Monitor.socket um0) as [|dg rest] eqn:Hsock.
  - destruct timeout as [seconds|]; split; reflexivity.
  - cbn [existsb]. rewrite Z.eqb_refl. cbn [orb].
    split; [reflexivity|]. simpl. rewrite Hsock.
    destruct dg as [p|]; simpl; eexists; (split; [reflexivity|]); simpl; auto.
Qed.

(** C7, at a started monitor whose socket holds one device event, with a
    timeout of three seconds: one receive, one device. *)
Lemma C7_poll_receives_once_witness :
  Monitor.valid_timeout (Some 3%Q) = true /\
  Monitor.selectable (Monitor.fd (Monitor._as_parameter_ Example.busy_monitor)) = true /\
  Monitor.select_select (Some 3%Q) Example.busy_monitor =
    (Example.busy_monitor, Return [5%Z]) /\
  exists um',
    Monitor.poll (Some 3%Q) Example.busy_monitor =
      (Monitor.set_as_parameter um' Example.busy_monitor,
       Return (Some Example.device7)) /\
    Monitor.receive_device_calls um' = 1 /\
    Monitor.socket um' = [] /\
    Monitor.delivered um' = [Monitor.Event 7].
Proof.
  split; [reflexivity|]. split; [reflexivity|].
  exact (C7_poll_receives_once (Some 3%Q) Example.busy_monitor eq_refl eq_refl).
Defined.

(** C7, where the claim fails.  On a monitor whose descriptor is 1100,
    not below [FD_SETSIZE], with one device event queued, [poll] with a
    timeout of three seconds raises [ValueError] and makes no receive,
    ready as the channel is.  On the monitor on descriptor 5 with that
    event queued, [poll] with a timeout of ten thousand million seconds,
    which is not negative, raises [OverflowError] and makes no receive. *)
Lemma C7_counterexample_select_refuses :
  Monitor.socket (Monitor._as_parameter_ Example.crowded_monitor) =
    [Monitor.Event 7] /\
  Monitor.poll (Some 3%Q) Example.crowded_monitor =
    (Example.crowded_monitor, Raise ValueError) /\
  Qle_bool 0 10000000000 = true /\
  Monitor.poll (Some 10000000000%Q) Example.busy_monitor =
    (Example.busy_monitor, Raise OverflowError) /\
  Monitor.receive_device_calls
    (Monitor._as_parameter_
       (fst (Monitor.poll (Some 10000000000%Q) Example.busy_monitor))) = 0.
Proof.
  repeat split.
Qed.

(** C8.  [start()] is idempotent: any number of calls, one or more, leaves
    the monitor exactly as one call does, each of them returning normally;
    the first call on an unstarted monitor enables receiving, once.  Along
    any sequence of operations on a monitor the [_started] flag never goes
    from true to false, goes from false to true at most once, and exactly
    once when the monitor was unstarted and the sequence has a [start()]. *)
Theorem C8_start_idempotent :
  forall self : Monitor.t,
    (forall n : nat,
       Nat.iter (S n) (fun m => fst (Monitor.start m)) self = fst (Monitor.start self)) /\
    snd (Monitor.start self) = Return tt /\
    Monitor.started (fst (Monitor.start self)) = true /\
    (Monitor.started self = false ->
     Monitor.receiving (Monitor._as_parameter_ (fst (Monitor.start self))) = true /\
     Monitor.enable_receiving_calls (Monitor._as_parameter_ (fst (Monitor.start self))) =
       S (Monitor.enable_receiving_calls (Monitor._as_parameter_ self))) /\
    (forall ops : list Monitor.Op,
       let flags := map Monitor._started (Monitor.history ops self) in
       Monitor.falls flags = 0 /\
       Monitor.rises flags <= 1 /\
       (Monitor.started self = false -> In Monitor.OpStart ops -> Monitor.rises flags = 1)).
Proof.
  intros self. split; [|split; [|split; [|split]]].
  - induction n as [|n IH].
    + reflexivity.
    + change (Nat.iter (S (S n)) (fun m => fst (Monitor.start m)) self)
        with (fst (Monitor.start (Nat.iter (S n) (fun m => fst (Monitor.start m)) self))).
      rewrite IH.
      rewrite (start_when_started (fst (Monitor.start self)) (start_started self)).
      reflexivity.
  - apply start_returns.
  - apply start_started.
  - intros E. unfold Monitor.started in E.
    unfold Monitor.start, bind, get; simpl. rewrite E. simpl. auto.
  - intros ops flags. subst flags. unfold Monitor.started.
    destruct (Monitor._started self) eqn:E.
    + destruct (history_started ops self E) as [Hr Hf].
      rewrite Hr, Hf. repeat split; auto. discriminate.
    + destruct (history_unstarted ops self E) as (Hr & Hf & Hin).
      repeat split; auto.
Qed.

(** C8, at a fresh monitor that is polled, started, delivered an event,
    started again and polled: the flag rises once and never falls, and
    three calls of [start()] leave what one call leaves. *)
Lemma C8_start_idempotent_witness :
  let ops := [Monitor.OpPoll (Some 0%Q); Monitor.OpStart;
              Monitor.OpDeliver (Monitor.Event 7); Monitor.OpStart;
              Monitor.OpPoll (Some 0%Q)] in
  let flags := map Monitor._started (Monitor.history ops Example.monitor5) in
  flags = [false; false; true; true; true; true] /\
  Monitor.rises flags = 1 /\
  Monitor.falls flags = 0 /\
  Nat.iter 3 (fun m => fst (Monitor.start m)) Example.monitor5 =
    fst (Monitor.start Example.monitor5).
Proof.
  intros ops flags.
  destruct (C8_start_idempotent Example.monitor5) as (Hiter & _ & _ & _ & Hops).
  destruct (Hops ops) as (Hfalls & _ & Hrises).
  split; [reflexivity|].
  split; [apply Hrises; [reflexivity|simpl; auto]|].
  split; [exact Hfalls|].
  exact (Hiter 2).
Defined.

(** ** MonitorObserver *)

Section ObserverFacts.

Import MonitorObserver.

Lemma send_stop_without_sink (w : World) :
  _stop_event_sink w = None -> send_stop w = (w, Return tt).
Proof.
  intros E. unfold send_stop. unfold_m. rewrite E. reflexivity.
Qed.

(** [send_stop] touches the pipe and the sink, nothing else. *)
Lemma send_stop_frame (w : World) :
  let w' := fst (send_stop w) in
  monitor w' = monitor w /\ thread w' = thread w /\ invoked w' = invoked w /\
  _callback w' = _callback w /\ _stop_event_source w' = _stop_event_source w /\
  pipe_calls w' = pipe_calls w /\ daemon w' = daemon w.
Proof.
  unfold send_stop, os_write, os_close. unfold_m.
  destruct (_stop_event_sink w) as [sink|] eqn:E; simpl; [|repeat split].
  destruct ((sink =? write_end (pipe w))%Z && write_open (pipe w));
    [destruct (read_open (pipe w))|]; simpl;
    repeat match goal with
           | |- context [if ?b then _ else _] => destruct b; simpl
           end; repeat split.
Qed.

Lemma send_stop_never_blocks (w : World) : snd (send_stop w) <> Blocks.
Proof.
  unfold send_stop, os_write, os_close. unfold_m.
  destruct (_stop_event_sink w) as [sink|] eqn:E; simpl; [|discriminate].
  destruct ((sink =? write_end (pipe w))%Z && write_open (pipe w));
    [destruct (read_open (pipe w))|]; simpl;
    repeat match goal with
           | |- context [if ?b then _ else _] => destruct b; simpl
           end; discriminate.
Qed.

(** On a pipe in order, [send_stop] returns; afterwards the sink is
    dropped and the pipe is still in order.  Without a sink it changes
    nothing. *)
Lemma send_stop_ok (w : World) :
  pipe_ok w ->
  exists w',
    send_stop w = (w', Return tt) /\
    pipe_ok w' /\
    _stop_event_sink w' = None /\
    (_stop_event_sink w = None -> w' = w) /\
    read_open (pipe w') = read_open (pipe w) /\
    (read_open (pipe w) = true -> stop_ready w' = true).
Proof.
  intros (Hsrc & Hcalls & Hsink).
  destruct (_stop_event_sink w) as [sink|] eqn:E.
  - destruct Hsink as (-> & Hwo & Hro & Hun & Hbw & Hwc & Hrc & _).
    unfold send_stop, os_write, os_close. unfold_m. rewrite E. simpl.
    rewrite Z.eqb_refl, Hwo, Hro. simpl.
    rewrite Z.eqb_refl. simpl.
    eexists. split; [reflexivity|].
    unfold pipe_ok, stop_ready; simpl.
    rewrite Hun, Hbw, Hwc, Hrc.
    repeat split; auto; discriminate.
  - exists w. rewrite (send_stop_without_sink w E).
    split; [reflexivity|]. split.
    + unfold pipe_ok. rewrite E. auto.
    + repeat split; auto.
      intros Hro. destruct Hsink as (Hwo & _ & _ & _ & Hopen).
      destruct (Hopen Hro) as [Hun _].
      unfold stop_ready. rewrite Hro, Hun. reflexivity.
Qed.

(** In the observer thread [join] always raises [RuntimeError], which
    [stop] swallows. *)
Lemma stop_observer (w : World) : stop ObserverThread w = send_stop w.
Proof.
  unfold stop. unfold_m.
  destruct (send_stop w) as [w' [[]|e|]] eqn:E; try reflexivity.
  unfold join. destruct (thread w'); reflexivity.
Qed.

Lemma stop_unstarted (who : caller) (w : World) :
  thread w = Unstarted -> stop who w = send_stop w.
Proof.
  intros Hth. unfold stop. unfold_m.
  destruct (send_stop_frame w) as (_ & Hthread & _). simpl in Hthread.
  destruct (send_stop w) as [w' [[]|e|]] eqn:E; try reflexivity.
  simpl in Hthread. unfold join. rewrite Hthread, Hth. reflexivity.
Qed.

(** Whatever [stop] raises was raised by [send_stop]. *)
Lemma stop_raises_from_send_stop (who : caller) (w : World) (e : exn) :
  snd (stop who w) = Raise e -> snd (send_stop w) = Raise e.
Proof.
  unfold stop. unfold_m.
  destruct (send_stop w) as [w' [[]|e'|]] eqn:E; simpl; auto; try discriminate.
  unfold join. destruct (thread w'), who; simpl; discriminate.
Qed.

(** [poll(timeout=0)] on the observer's monitor, by the state of the
    socket. *)
Lemma poll_zero (w : World) :
  let um := Monitor._as_parameter_ (monitor w) in
  exists um',
    fst (on_monitor (Monitor.poll (Some 0%Q)) w) =
      set_monitor (Monitor.set_as_parameter um' (monitor w)) w /\
    Monitor.delivered um' = Monitor.delivered um /\
    Monitor.receiving um' = Monitor.receiving um /\
    if Monitor.selectable (Monitor.fd um) then
      match Monitor.socket um with
      | [] =>
          snd (on_monitor (Monitor.poll (Some 0%Q)) w) = Return None /\
          Monitor.socket um' = []
      | Monitor.Event p :: rest =>
          snd (on_monitor (Monitor.poll (Some 0%Q)) w) =
            Return (Some {| Monitor.device_p := p |}) /\
          Monitor.socket um' = rest
      | Monitor.Garbled :: rest =>
          snd (on_monitor (Monitor.poll (Some 0%Q)) w) = Raise EnvironmentError /\
          Monitor.socket um' = rest
      end
    else
      snd (on_monitor (Monitor.poll (Some 0%Q)) w) = Raise ValueError /\
      Monitor.socket um' = Monitor.socket um.
Proof.
  intros um. subst um.
  unfold on_monitor, Monitor.poll, Monitor.select_select, Monitor.fileno,
    Monitor.libudev, Monitor.udev_monitor_get_fd,
    Monitor.udev_monitor_receive_device, bind.
  destruct (monitor w) as [um flag]. cbn [Monitor._as_parameter_].
  change (Monitor.timeout_error (Some 0%Q)) with (@None exn). cbv iota.
  destruct (Monitor.selectable (Monitor.fd um)) eqn:Hfd; cbn [negb].
  - destruct (Monitor.socket um) as [|[p|] rest] eqn:Hsock.
    + exists um. simpl. rewrite Hsock. repeat split.
    + simpl. rewrite Z.eqb_refl. simpl. rewrite Hsock. simpl.
      eexists. repeat split.
    + simpl. rewrite Z.eqb_refl. simpl. rewrite Hsock. simpl.
      eexists. repeat split.
  - exists um. simpl. repeat split.
Qed.

Lemma call_callback_unfold (d : Monitor.Device) (w : World) :
  call_callback d w =
  match _callback w d with
  | Pass => (record_call d w, Return tt)
  | CallSendStop => send_stop (record_call d w)
  | CallStop => send_stop (record_call d w)
  | Throw e => (record_call d w, Raise e)
  end.
Proof.
  unfold call_callback. unfold_m. simpl.
  destruct (_callback w d); try reflexivity.
  apply stop_observer.
Qed.

Lemma pipe_ok_record_call (d : Monitor.Device) (w : World) :
  pipe_ok w -> pipe_ok (record_call d w).
Proof. exact (fun H => H). Qed.

Lemma pipe_ok_set_monitor (m : Monitor.t) (w : World) :
  pipe_ok w -> pipe_ok (set_monitor m w).
Proof. exact (fun H => H). Qed.

(** What a callback leaves behind: the device is on record, the pipe is
    in order, and a stop signal that was pending still is. *)
Lemma call_callback_ok (d : Monitor.Device) (w : World) :
  pipe_ok w ->
  let w' := fst (call_callback d w) in
  pipe_ok w' /\
  invoked w' = invoked w ++ [d] /\
  monitor w' = monitor w /\
  thread w' = thread w /\
  _stop_event_source w' = _stop_event_source w /\
  read_open (pipe w') = read_open (pipe w) /\
  (stop_ready w = true -> stop_ready w' = true) /\
  (_stop_event_sink w = None -> _stop_event_sink w' = None) /\
  (_callback w d = CallStop \/ _callback w d = CallSendStop ->
   _stop_event_sink w' = None /\ snd (call_callback d w) = Return tt /\
   (read_open (pipe w) = true -> stop_ready w' = true)) /\
  snd (call_callback d w) <> Blocks.
Proof.
  intros Hok. rewrite call_callback_unfold.
  pose proof (pipe_ok_record_call d w Hok) as Hok1.
  destruct (send_stop_ok _ Hok1) as (w' & Hss & Hok' & Hsink & Hnoop & Hro & Hready).
  pose proof (send_stop_frame (record_call d w)) as Hframe.
  rewrite Hss in Hframe. simpl in Hframe.
  destruct Hframe as (Hm & Hth & Hinv & Hcb & Hsrc & Hcalls & Hd).
  assert (Hkeep : stop_ready w = true -> stop_ready w' = true).
  { intros Hr. apply Hready. unfold stop_ready in Hr.
    apply andb_true_iff in Hr. simpl. tauto. }
  destruct (_callback w d) eqn:Hcb'; try rewrite Hss; simpl;
    conjuncts; auto; try discriminate;
    try (intros [?|?]; discriminate);
    try (intros _; conjuncts; auto).
Qed.

Lemma body_unfold (fd : Z) (w : World) :
  body fd w =
  if (fd =? _stop_event_source w)%Z then
    match os_close (_stop_event_source w) w with
    | (w', Return _) => (w', Return Returned)
    | (w', Raise e) => (w', Raise e)
    | (w', Blocks) => (w', Blocks)
    end
  else
    match on_monitor (Monitor.poll (Some 0%Q)) w with
    | (w1, Return (Some d)) =>
        match call_callback d w1 with
        | (w2, Return _) => (w2, Return Next)
        | (w2, Raise e) => (w2, Raise e)
        | (w2, Blocks) => (w2, Blocks)
        end
    | (w1, Return None) => (w1, Return Next)
    | (w1, Raise e) => (w1, Raise e)
    | (w1, Blocks) => (w1, Blocks)
    end.
Proof.
  unfold body. unfold_m. simpl.
  destruct (fd =? _stop_event_source w)%Z; [reflexivity|].
  destruct (on_monitor (Monitor.poll (Some 0%Q)) w) as [w1 [[d|]|e|]]; reflexivity.
Qed.


Lemma body_frame (fd : Z) (w : World) :
  let w' := fst (body fd w) in
  thread w' = thread w /\
  _stop_event_source w' = _stop_event_source w /\
  _callback w' = _callback w /\
  pipe_calls w' = pipe_calls w.
Proof.
  rewrite body_unfold.
  destruct (fd =? _stop_event_source w)%Z.
  - unfold os_close.
    repeat match goal with
           | |- context [if ?b then _ else _] => destruct b; simpl
           end; repeat split.
  - destruct (poll_zero w) as (um' & Hfst & _).
    destruct (on_monitor (Monitor.poll (Some 0%Q)) w) as [w1 o].
    simpl in Hfst. subst w1.
    destruct o as [[d|]|e|]; simpl; try (repeat split; fail).
    rewrite call_callback_unfold.
    pose proof (send_stop_frame
      (record_call d (set_monitor (Monitor.set_as_parameter um' (monitor w)) w)))
      as Hframe.
    simpl in Hframe. destruct Hframe as (_ & Hth & _ & Hcb & Hsrc & Hcalls & _).
    cbn [_callback set_monitor].
    destruct (_callback w d); simpl; try (repeat split; fail);
      destruct (send_stop _) as [w2 [[]|e|]]; simpl in *; auto.
Qed.

(** The body on an entry that is not the stop descriptor: one receive
    that does not wait and, for a device, one call of the callback. *)
Lemma body_monitor_entry (before : list Monitor.Device) (fd : Z) (w : World) :
  pipe_ok w ->
  (fd =? _stop_event_source w)%Z = false ->
  let w' := fst (body fd w) in
  pipe_ok w' /\
  (accounted before w -> accounted before w') /\
  read_open (pipe w') = read_open (pipe w) /\
  (stop_ready w = true -> stop_ready w' = true) /\
  (_stop_event_sink w = None -> _stop_event_sink w' = None) /\
  ((exists e, snd (body fd w) = Raise e) \/ snd (body fd w) = Return Next).
Proof.
  intros Hok Hfd. rewrite body_unfold, Hfd.
  destruct (poll_zero w) as (um' & Hfst & Hdel & _ & Hcase).
  destruct (on_monitor (Monitor.poll (Some 0%Q)) w) as [w1 o].
  simpl in Hfst, Hcase. subst w1.
  set (w1 := set_monitor (Monitor.set_as_parameter um' (monitor w)) w).
  assert (Hok1 : pipe_ok w1) by exact Hok.
  unfold accounted.
  destruct (Monitor.selectable (Monitor.fd (Monitor._as_parameter_ (monitor w))));
    [|destruct Hcase as [-> Hsock']; simpl; rewrite Hdel, Hsock';
      conjuncts; eauto].
  destruct (Monitor.socket (Monitor._as_parameter_ (monitor w)))
    as [|[p|] rest] eqn:Hsock; destruct Hcase as [-> Hsock'].
  - simpl. rewrite Hdel, Hsock'. conjuncts; auto.
  - pose proof (call_callback_ok {| Monitor.device_p := p |} w1 Hok1) as Hcb.
    simpl in Hcb.
    destruct Hcb as (Hok2 & Hinv & Hmon & _ & _ & Hro & Hready & Hsink & _ & Hnb).
    destruct (call_callback {| Monitor.device_p := p |} w1) as [w2 [[]|e|]];
      simpl in *; try (exfalso; apply Hnb; reflexivity);
      rewrite Hmon, Hinv; simpl; rewrite Hdel, Hsock';
      conjuncts; eauto;
      intros ->; rewrite <- app_assoc; reflexivity.
  - simpl. rewrite Hdel, Hsock'. conjuncts; eauto.
Qed.

(** The body on the stop descriptor when the read end is readable: it
    closes the read end and returns from [run], with no receive and no
    call of the callback. *)
Lemma body_stop_entry (w : World) :
  pipe_ok w ->
  stop_ready w = true ->
  exists w',
    body (_stop_event_source w) w = (w', Return Returned) /\
    pipe_ok w' /\
    read_open (pipe w') = false /\
    read_closes (pipe w') = 1 /\
    invoked w' = invoked w /\
    monitor w' = monitor w /\
    thread w' = thread w /\
    _stop_event_sink w' = None.
Proof.
  intros (Hsrc & Hcalls & Hsink) Hready.
  unfold stop_ready in Hready. apply andb_true_iff in Hready.
  destruct Hready as [Hro Hrest].
  destruct (_stop_event_sink w) as [sink|] eqn:E.
  - destruct Hsink as (_ & Hwo & _ & Hun & _).
    rewrite Hwo, Hun in Hrest. discriminate.
  - destruct Hsink as (Hwo & Hbw & Hwc & Hrc & Hopen).
    destruct (Hopen Hro) as [Hun Hrc0].
    rewrite body_unfold, Z.eqb_refl. unfold os_close.
    rewrite Hwo, andb_false_r, Hsrc, Z.eqb_refl, Hro. simpl.
    eexists. split; [reflexivity|].
    unfold pipe_ok; simpl. rewrite E, Hrc0.
    conjuncts; auto. discriminate.
Qed.

Lemma for_loop_app (a b : list Z) (w : World) :
  for_loop (a ++ b) w =
  match for_loop a w with
  | (w', Return Next) => for_loop b w'
  | r => r
  end.
Proof.
  revert w. induction a as [|fd a IH]; intros w.
  - reflexivity.
  - simpl. unfold bind.
    destruct (body fd w) as [w1 [[|]|e|]]; try reflexivity.
    apply IH.
Qed.

Lemma for_loop_frame (fds : list Z) (w : World) :
  let w' := fst (for_loop fds w) in
  thread w' = thread w /\
  _stop_event_source w' = _stop_event_source w /\
  _callback w' = _callback w /\
  pipe_calls w' = pipe_calls w.
Proof.
  revert w. induction fds as [|fd fds IH]; intros w.
  - simpl. auto.
  - simpl. unfold bind.
    pose proof (body_frame fd w) as Hb.
    destruct (body fd w) as [w1 [[|]|e|]]; simpl in *; auto.
    destruct (IH w1) as (H1 & H2 & H3 & H4).
    destruct Hb as (B1 & B2 & B3 & B4).
    repeat split; congruence.
Qed.

Lemma devices_app (a b : list Monitor.Datagram) :
  Monitor.devices (a ++ b) = Monitor.devices a ++ Monitor.devices b.
Proof.
  induction a as [|[p|] a IH]; simpl; congruence.
Qed.

(** The body of the loop keeps the account of the devices, whatever the
    entry and the state. *)
Lemma body_accounted (before : list Monitor.Device) (fd : Z) (w : World) :
  accounted before w -> accounted before (fst (body fd w)).
Proof.
  intros Hacc. rewrite body_unfold.
  destruct (fd =? _stop_event_source w)%Z.
  - unfold os_close.
    repeat match goal with
           | |- context [if ?b then _ else _] => destruct b; simpl
           end; exact Hacc.
  - destruct (poll_zero w) as (um' & Hfst & Hdel & _ & Hcase).
    destruct (on_monitor (Monitor.poll (Some 0%Q)) w) as [w1 o].
    simpl in Hfst, Hcase. subst w1.
    unfold accounted in *.
    destruct (Monitor.selectable (Monitor.fd (Monitor._as_parameter_ (monitor w))));
      [|destruct Hcase as [-> Hsock']; simpl; rewrite Hdel, Hsock'; exact Hacc].
    destruct (Monitor.socket (Monitor._as_parameter_ (monitor w)))
      as [|[p|] rest] eqn:Hsock; destruct Hcase as [-> Hsock'].
    + simpl. rewrite Hdel, Hsock'. exact Hacc.
    + rewrite call_callback_unfold. cbn [_callback set_monitor].
      pose proof (send_stop_frame
        (record_call {| Monitor.device_p := p |}
           (set_monitor (Monitor.set_as_parameter um' (monitor w)) w))) as Hframe.
      simpl in Hframe. destruct Hframe as (Hmon & _ & Hinv & _).
      assert (Hgoal :
        forall w2 : World,
          monitor w2 = Monitor.set_as_parameter um' (monitor w) ->
          invoked w2 = invoked w ++ [{| Monitor.device_p := p |}] ->
          Monitor.devices (Monitor.delivered (Monitor._as_parameter_ (monitor w2))) =
          before ++ invoked w2 ++
          Monitor.devices (Monitor.socket (Monitor._as_parameter_ (monitor w2)))).
      { intros w2 -> ->. simpl. rewrite Hdel, Hsock', Hacc.
        simpl. rewrite <- app_assoc. reflexivity. }
      destruct (_callback w {| Monitor.device_p := p |}) as [| | |thrown];
        try (apply Hgoal; reflexivity);
        destruct (send_stop _) as [w2 [[]|e|]]; simpl in *; apply Hgoal; assumption.
    + simpl. rewrite Hdel, Hsock'. exact Hacc.
Qed.

Lemma for_loop_accounted (before : list Monitor.Device) (fds : list Z) (w : World) :
  accounted before w -> accounted before (fst (for_loop fds w)).
Proof.
  revert w. induction fds as [|fd fds IH]; intros w Hacc.
  - exact Hacc.
  - simpl. unfold bind.
    pose proof (body_accounted before fd w Hacc) as Hb.
    destruct (body fd w) as [w1 [[|]|e|]]; simpl in *; auto.
Qed.

Lemma while_loop_accounted (before : list Monitor.Device) (wakes : list (list Z))
  (w : World) :
  accounted before w -> accounted before (fst (while_loop wakes w)).
Proof.
  revert w. induction wakes as [|fds wakes IH]; intros w Hacc.
  - exact Hacc.
  - simpl. unfold bind.
    pose proof (for_loop_accounted before fds w Hacc) as Hf.
    destruct (for_loop fds w) as [w1 [[|]|e|]]; simpl in *; auto.
Qed.

Lemma start_accounted (before : list Monitor.Device) (w : World) :
  accounted before w ->
  accounted before (fst (on_monitor Monitor.start w)) /\
  snd (on_monitor Monitor.start w) = Return tt.
Proof.
  intros Hacc. unfold on_monitor, Monitor.start, bind, get, modify, Monitor.libudev.
  simpl. destruct (Monitor._started (monitor w)); simpl; auto.
Qed.

Lemma deliver_accounted (before : list Monitor.Device) (dg : Monitor.Datagram)
  (w : World) :
  accounted before w ->
  accounted before
    (set_monitor
       (Monitor.set_as_parameter
          (Monitor.deliver dg (Monitor._as_parameter_ (monitor w))) (monitor w)) w).
Proof.
  unfold accounted, Monitor.deliver. simpl. intros Hacc.
  destruct (Monitor.receiving _); simpl; [|exact Hacc].
  rewrite !devices_app, Hacc, <- !app_assoc. reflexivity.
Qed.

Lemma after_body_accounted (before : list Monitor.Device) (rest : list Z)
  (r : World * outcome flow) (w' : World) :
  accounted before (fst r) -> after_body rest r = Some w' -> accounted before w'.
Proof.
  destruct r as [w1 [[|]|e|]]; simpl; intros Hacc H; inversion H; subst; exact Hacc.
Qed.

Lemma step_accounted (before : list Monitor.Device) (l : label) (w w' : World) :
  accounted before w -> step l w = Some w' -> accounted before w'.
Proof.
  intros Hacc Hstep. destruct l; simpl in Hstep.
  - inversion Hstep; subst. apply deliver_accounted, Hacc.
  - destruct (thread w); inversion Hstep; subst.
    apply (start_accounted before w Hacc).
  - destruct (thread w) as [|[|]|]; try discriminate.
    destruct (_ && _); inversion Hstep; subst. exact Hacc.
  - destruct (thread w) as [|[|fd rest]|]; try discriminate.
    eapply after_body_accounted; [|exact Hstep].
    apply body_accounted, Hacc.
  - inversion Hstep; subst.
    destruct (send_stop_frame w) as (Hm & _ & Hi & _). simpl in *.
    unfold accounted. rewrite Hm, Hi. exact Hacc.
  - inversion Hstep; subst.
    destruct (send_stop_frame w) as (Hm & _ & Hi & _). simpl in *.
    unfold accounted. rewrite Hm, Hi. exact Hacc.
  - unfold try_except, join in Hstep.
    destruct (thread w); simpl in Hstep; inversion Hstep; subst; exact Hacc.
Qed.

Lemma exec_accounted (before : list Monitor.Device) (trace : list label) (w w' : World) :
  accounted before w -> exec trace w = Some w' -> accounted before w'.
Proof.
  revert w. induction trace as [|l trace IH]; intros w Hacc Hexec; simpl in Hexec.
  - inversion Hexec; subst; exact Hacc.
  - destruct (step l w) as [w1|] eqn:Hs; [|discriminate].
    eapply IH; [|exact Hexec]. eapply step_accounted; eauto.
Qed.

Lemma pipe_ok_set_thread (th : thread_state) (w : World) :
  pipe_ok w ->
  (forall pending,
     th = Alive pending -> _stop_event_sink w <> None ->
     existsb (Z.eqb (_stop_event_source w)) pending = false) ->
  pipe_ok (set_thread th w).
Proof.
  unfold pipe_ok. simpl. intros (Hsrc & Hcalls & Hsink) Hth.
  conjuncts; auto.
  destruct (_stop_event_sink w) as [sink|]; [|exact Hsink].
  destruct Hsink as (H1 & H2 & H3 & H4 & H5 & H6 & H7 & _).
  conjuncts; auto.
  destruct th; auto. apply Hth; [reflexivity|discriminate].
Qed.

(** The constructor leaves the observer in order. *)
Lemma init_ok (m : Monitor.t) (cb : Monitor.Device -> Action) (os_pipe : Z * Z)
  (w0 : World) :
  __init__ m (Some cb) os_pipe = Return w0 ->
  world_ok w0 /\ thread w0 = Unstarted /\ invoked w0 = [] /\ monitor w0 = m.
Proof.
  intros H. inversion H; subst; clear H.
  unfold world_ok, pipe_ok. simpl. conjuncts; auto.
Qed.

(** A stop that is pending with the pipe in order means the sink was
    dropped. *)
Lemma ready_without_sink (w : World) :
  pipe_ok w -> stop_ready w = true -> _stop_event_sink w = None.
Proof.
  intros (_ & _ & Hsink) Hready.
  destruct (_stop_event_sink w) as [sink|]; [|reflexivity].
  destruct Hsink as (_ & Hwo & _ & Hun & _).
  unfold stop_ready in Hready. rewrite Hwo, Hun in Hready.
  rewrite andb_false_r in Hready. discriminate.
Qed.

Lemma open_without_sink_ready (w : World) :
  pipe_ok w -> _stop_event_sink w = None -> read_open (pipe w) = true ->
  stop_ready w = true.
Proof.
  intros (_ & _ & Hsink) E Hro. rewrite E in Hsink.
  destruct Hsink as (_ & _ & _ & _ & Hopen).
  destruct (Hopen Hro) as [Hun _].
  unfold stop_ready. rewrite Hro, Hun. reflexivity.
Qed.

(** Every step keeps the observer in order. *)
Lemma step_ok (l : label) (w w' : World) :
  world_ok w -> step l w = Some w' -> world_ok w'.
Proof.
  intros [Hok Hopen] Hstep. destruct l; simpl in Hstep.
  - inversion Hstep; subst. split; [exact Hok|exact Hopen].
  - destruct (thread w) eqn:Hth; inversion Hstep; subst; clear Hstep.
    assert (Hs : fst (on_monitor Monitor.start w) =
                 set_monitor (monitor (fst (on_monitor Monitor.start w))) w).
    { unfold on_monitor. destruct (Monitor.start (monitor w)). reflexivity. }
    rewrite Hs. split.
    + apply pipe_ok_set_thread; [exact Hok|].
      intros pending Hp _. inversion Hp. reflexivity.
    + intros _. apply Hopen. unfold finished. rewrite Hth. reflexivity.
  - destruct (thread w) as [|[|]|] eqn:Hth; try discriminate.
    destruct (existsb (Z.eqb (_stop_event_source w)) fds) eqn:Hex;
      simpl in Hstep.
    + destruct (stop_ready w) eqn:Hready; simpl in Hstep; [|discriminate].
      inversion Hstep; subst; clear Hstep. split.
      * apply pipe_ok_set_thread; [exact Hok|].
        intros pending _ Hsink. exfalso. apply Hsink.
        apply ready_without_sink; assumption.
      * intros _. apply Hopen. unfold finished. rewrite Hth. reflexivity.
    + inversion Hstep; subst; clear Hstep. split.
      * apply pipe_ok_set_thread; [exact Hok|].
        intros pending Hp _. inversion Hp; subst. exact Hex.
      * intros _. apply Hopen. unfold finished. rewrite Hth. reflexivity.
  - destruct (thread w) as [|[|fd rest]|] eqn:Hth; try discriminate.
    assert (Hro : read_open (pipe w) = true).
    { apply Hopen. unfold finished. rewrite Hth. reflexivity. }
    destruct (fd =? _stop_event_source w)%Z eqn:Hfd.
    + apply Z.eqb_eq in Hfd. subst fd.
      assert (Hnone : _stop_event_sink w = None).
      { destruct Hok as (_ & _ & Hsink).
        destruct (_stop_event_sink w); [|reflexivity].
        destruct Hsink as (_ & _ & _ & _ & _ & _ & _ & Hpend).
        rewrite Hth in Hpend. simpl in Hpend.
        rewrite Z.eqb_refl in Hpend. discriminate. }
      pose proof (open_without_sink_ready w Hok Hnone Hro) as Hready.
      destruct (body_stop_entry w Hok Hready)
        as (w1 & Hbody & Hok1 & Hclosed & _ & _ & _ & _ & Hsink1).
      rewrite Hbody in Hstep. simpl in Hstep. inversion Hstep; subst; clear Hstep.
      split.
      * apply pipe_ok_set_thread; [exact Hok1|]. intros pending Hp. discriminate.
      * simpl. discriminate.
    + pose proof (body_monitor_entry [] fd w Hok Hfd) as Hb. simpl in Hb.
      destruct Hb as (Hok1 & _ & Hro1 & _ & Hsink1 & Hout).
      pose proof (body_frame fd w) as Hframe. simpl in Hframe.
      destruct Hframe as (_ & Hsrc1 & _).
      destruct (body fd w) as [w1 o]. simpl in *.
      destruct Hout as [[e ->] | ->]; simpl in Hstep;
        inversion Hstep; subst; clear Hstep.
      * split; [|simpl; discriminate].
        apply pipe_ok_set_thread; [exact Hok1|]. intros pending Hp. discriminate.
      * split; [|simpl; intros _; congruence].
        apply pipe_ok_set_thread; [exact Hok1|].
        intros pending Hp Hsome. inversion Hp; subst pending.
        rewrite Hsrc1.
        destruct Hok as (_ & _ & Hsink).
        destruct (_stop_event_sink w) as [sink|] eqn:E.
        -- destruct Hsink as (_ & _ & _ & _ & _ & _ & _ & Hpend).
           rewrite Hth in Hpend. simpl in Hpend.
           apply orb_false_iff in Hpend. tauto.
        -- exfalso. apply Hsome. apply Hsink1. reflexivity.
  - inversion Hstep; subst; clear Hstep.
    destruct (send_stop_ok w Hok) as (w1 & Hss & Hok1 & _ & _ & Hro & _).
    destruct (send_stop_frame w) as (_ & Hth & _). 
    rewrite Hss in *. simpl in *. split; [exact Hok1|].
    unfold finished. rewrite Hth, Hro. exact Hopen.
  - inversion Hstep; subst; clear Hstep.
    destruct (send_stop_ok w Hok) as (w1 & Hss & Hok1 & _ & _ & Hro & _).
    destruct (send_stop_frame w) as (_ & Hth & _). 
    rewrite Hss in *. simpl in *. split; [exact Hok1|].
    unfold finished. rewrite Hth, Hro. exact Hopen.
  - unfold try_except, join in Hstep.
    destruct (thread w) eqn:Hth; simpl in Hstep; inversion Hstep; subst;
      (split; [exact Hok|exact Hopen]).
Qed.

Lemma exec_ok (trace : list label) (w w' : World) :
  world_ok w -> exec trace w = Some w' -> world_ok w'.
Proof.
  revert w. induction trace as [|l trace IH]; intros w Hok Hexec; simpl in Hexec.
  - inversion Hexec; subst; exact Hok.
  - destruct (step l w) as [w1|] eqn:Hs; [|discriminate].
    eapply IH; [|exact Hexec]. eapply step_ok; eauto.
Qed.

Lemma exec_app (a b : list label) (w : World) :
  exec (a ++ b) w =
  match exec a w with
  | Some w' => exec b w'
  | None => None
  end.
Proof.
  revert w. induction a as [|l a IH]; intros w; simpl.
  - reflexivity.
  - destruct (step l w); [apply IH|reflexivity].
Qed.

(** What a step does to the thread and to the fields set once. *)
Lemma step_frame (l : label) (w w' : World) :
  step l w = Some w' ->
  _stop_event_source w' = _stop_event_source w /\
  _callback w' = _callback w /\
  pipe_calls w' = pipe_calls w /\
  (thread w <> Unstarted -> thread w' <> Unstarted) /\
  (finished w = true -> finished w' = true /\ invoked w' = invoked w) /\
  (is_body l = false -> l <> ThreadStart -> (forall fds, l <> Wake fds) ->
   thread w' = thread w).
Proof.
  intros Hstep. destruct l; simpl in Hstep.
  - inversion Hstep; subst. simpl. conjuncts; auto.
  - destruct (thread w) eqn:Hth; inversion Hstep; subst; clear Hstep.
    unfold on_monitor. destruct (Monitor.start (monitor w)). simpl.
    unfold finished. rewrite Hth. simpl.
    conjuncts; auto; try discriminate. intros _ H; contradiction.
  - destruct (thread w) as [|[|]|] eqn:Hth; try discriminate.
    destruct (_ && _); inversion Hstep; subst; clear Hstep. simpl.
    unfold finished. rewrite Hth. simpl.
    conjuncts; auto; try discriminate.
    intros _ _ H. exfalso. apply (H fds). reflexivity.
  - destruct (thread w) as [|[|fd rest]|] eqn:Hth; try discriminate.
    pose proof (body_frame fd w) as Hframe. simpl in Hframe.
    destruct Hframe as (_ & Hsrc & Hcb & Hcalls).
    unfold finished. rewrite Hth.
    destruct (body fd w) as [w1 [[|]|e|]]; simpl in *;
      inversion Hstep; subst; clear Hstep; simpl;
      conjuncts; auto; discriminate.
  - inversion Hstep; subst; clear Hstep.
    destruct (send_stop_frame w) as (_ & Hth & Hinv & Hcb & Hsrc & Hcalls & _).
    simpl in *. unfold finished. rewrite Hth.
    conjuncts; auto.
  - inversion Hstep; subst; clear Hstep.
    destruct (send_stop_frame w) as (_ & Hth & Hinv & Hcb & Hsrc & Hcalls & _).
    simpl in *. unfold finished. rewrite Hth.
    conjuncts; auto.
  - unfold try_except, join in Hstep.
    destruct (thread w) eqn:Hth; simpl in Hstep; inversion Hstep; subst;
      conjuncts; auto; rewrite Hth; auto.
Qed.

(** Once the thread has finished, it stays so, and the callback is not
    invoked any more. *)
Lemma exec_finished (trace : list label) (w w' : World) :
  finished w = true -> exec trace w = Some w' ->
  finished w' = true /\ invoked w' = invoked w.
Proof.
  revert w. induction trace as [|l trace IH]; intros w Hfin Hexec; simpl in Hexec.
  - inversion Hexec; subst. auto.
  - destruct (step l w) as [w1|] eqn:Hs; [|discriminate].
    destruct (step_frame l w w1 Hs) as (_ & _ & _ & _ & Hf & _).
    destruct (Hf Hfin) as [Hfin1 Hinv1].
    destruct (IH w1 Hfin1 Hexec) as [Hfin' Hinv'].
    split; [exact Hfin'|congruence].
Qed.

Lemma exec_started (trace : list label) (w w' : World) :
  thread w <> Unstarted -> exec trace w = Some w' -> thread w' <> Unstarted.
Proof.
  revert w. induction trace as [|l trace IH]; intros w Hth Hexec; simpl in Hexec.
  - inversion Hexec; subst. exact Hth.
  - destruct (step l w) as [w1|] eqn:Hs; [|discriminate].
    destruct (step_frame l w w1 Hs) as (_ & _ & _ & Hstarted & _).
    eapply IH; [|exact Hexec]. auto.
Qed.

(** The sink, once dropped, is not set again. *)
Lemma step_without_sink (l : label) (w w' : World) :
  world_ok w -> _stop_event_sink w = None -> step l w = Some w' ->
  _stop_event_sink w' = None.
Proof.
  intros [Hok Hopen] Hnone Hstep. destruct l; simpl in Hstep.
  - inversion Hstep; subst. exact Hnone.
  - destruct (thread w); inversion Hstep; subst; clear Hstep.
    unfold on_monitor. destruct (Monitor.start (monitor w)). exact Hnone.
  - destruct (thread w) as [|[|]|]; try discriminate.
    destruct (_ && _); inversion Hstep; subst. exact Hnone.
  - destruct (thread w) as [|[|fd rest]|] eqn:Hth; try discriminate.
    assert (Hro : read_open (pipe w) = true).
    { apply Hopen. unfold finished. rewrite Hth. reflexivity. }
    destruct (fd =? _stop_event_source w)%Z eqn:Hfd.
    + apply Z.eqb_eq in Hfd. subst fd.
      pose proof (open_without_sink_ready w Hok Hnone Hro) as Hready.
      destruct (body_stop_entry w Hok Hready)
        as (w1 & Hbody & _ & _ & _ & _ & _ & _ & Hsink1).
      rewrite Hbody in Hstep. simpl in Hstep. inversion Hstep; subst. exact Hsink1.
    + pose proof (body_monitor_entry [] fd w Hok Hfd) as Hb. simpl in Hb.
      destruct Hb as (_ & _ & _ & _ & Hsink1 & _).
      destruct (body fd w) as [w1 [[|]|e|]]; simpl in *;
        inversion Hstep; subst; simpl; auto.
  - inversion Hstep; subst. rewrite (send_stop_without_sink w Hnone). exact Hnone.
  - inversion Hstep; subst. rewrite (send_stop_without_sink w Hnone). exact Hnone.
  - unfold try_except, join in Hstep.
    destruct (thread w); simpl in Hstep; inversion Hstep; subst; exact Hnone.
Qed.

Lemma exec_without_sink (trace : list label) (w w' : World) :
  world_ok w -> _stop_event_sink w = None -> exec trace w = Some w' ->
  _stop_event_sink w' = None.
Proof.
  revert w. induction trace as [|l trace IH]; intros w Hok Hnone Hexec;
    simpl in Hexec.
  - inversion Hexec; subst. exact Hnone.
  - destruct (step l w) as [w1|] eqn:Hs; [|discriminate].
    eapply IH; [| |exact Hexec].
    + eapply step_ok; eauto.
    + eapply step_without_sink; eauto.
Qed.






End ObserverFacts.

(** C2, as the code has it.  The entries of a wake are handled in the
    order the wake lists them.  On reaching the stop descriptor the loop
    closes the read end and returns from [run]: the entries listed after it
    are not looked at, and the entry itself causes no receive and no call
    of the callback.  So when the stop descriptor is listed first, nothing
    is drained in that wake.  Entries listed before it are handled first,
    as in any wake. *)
Theorem C2_stop_entry_ends_the_wake :
  forall (w : MonitorObserver.World) (pre post : list Z),
    let source := MonitorObserver._stop_event_source w in
    MonitorObserver.for_loop (pre ++ source :: post) w =
      (f <- MonitorObserver.for_loop pre ;;
       match f with
       | MonitorObserver.Returned => ret MonitorObserver.Returned
       | MonitorObserver.Next =>
           MonitorObserver.os_close source ;; ret MonitorObserver.Returned
       end) w /\
    MonitorObserver.for_loop (source :: post) w =
      (MonitorObserver.os_close source ;; ret MonitorObserver.Returned) w /\
    MonitorObserver.invoked (fst (MonitorObserver.for_loop (source :: post) w)) =
      MonitorObserver.invoked w /\
    MonitorObserver.monitor (fst (MonitorObserver.for_loop (source :: post) w)) =
      MonitorObserver.monitor w /\
    (MonitorObserver.pipe_ok w -> MonitorObserver.stop_ready w = true ->
     exists w',
       MonitorObserver.for_loop (source :: post) w =
         (w', Return MonitorObserver.Returned) /\
       MonitorObserver.read_open (MonitorObserver.pipe w') = false /\
       MonitorObserver.invoked w' = MonitorObserver.invoked w /\
       MonitorObserver.monitor w' = MonitorObserver.monitor w).
Proof.
  intros w pre post source.
  assert (Hhead : forall v : MonitorObserver.World,
    MonitorObserver._stop_event_source v = source ->
    MonitorObserver.for_loop (source :: post) v =
      (MonitorObserver.os_close source ;; ret MonitorObserver.Returned) v).
  { intros v Hv. simpl. unfold bind, ret.
    rewrite body_unfold, Hv, Z.eqb_refl.
    destruct (MonitorObserver.os_close source v) as [v' [[]|e|]]; reflexivity. }
  split; [|split; [|split; [|split]]].
  - rewrite for_loop_app. unfold bind at 1.
    pose proof (for_loop_frame pre w) as Hframe. simpl in Hframe.
    destruct Hframe as (_ & Hsrc & _).
    destruct (MonitorObserver.for_loop pre w) as [w1 [[|]|e|]]; try reflexivity.
    apply Hhead. exact Hsrc.
  - apply Hhead. reflexivity.
  - rewrite (Hhead w eq_refl). unfold bind, ret, MonitorObserver.os_close.
    repeat match goal with
           | |- context [if ?b then _ else _] => destruct b; simpl
           end; reflexivity.
  - rewrite (Hhead w eq_refl). unfold bind, ret, MonitorObserver.os_close.
    repeat match goal with
           | |- context [if ?b then _ else _] => destruct b; simpl
           end; reflexivity.
  - intros Hok Hready.
    destruct (body_stop_entry w Hok Hready)
      as (w' & Hbody & _ & Hclosed & _ & Hinv & Hmon & _).
    exists w'. simpl. unfold bind. fold source in Hbody. rewrite Hbody.
    auto.
Qed.

(** C2, at a running observer with an event queued and the stop signal
    pending: a wake that lists the stop descriptor (3) before the monitor
    (5) closes the read end and returns, the event left unread and the
    callback not invoked. *)
Lemma C2_stop_entry_ends_the_wake_witness :
  MonitorObserver.pipe_ok Example.racing /\
  MonitorObserver.stop_ready Example.racing = true /\
  Monitor.socket (Monitor._as_parameter_ (MonitorObserver.monitor Example.racing)) =
    [Monitor.Event 7] /\
  exists w',
    MonitorObserver.for_loop [3%Z; 5%Z] Example.racing =
      (w', Return MonitorObserver.Returned) /\
    MonitorObserver.read_open (MonitorObserver.pipe w') = false /\
    MonitorObserver.invoked w' = MonitorObserver.invoked Example.racing /\
    MonitorObserver.monitor w' = MonitorObserver.monitor Example.racing.
Proof.
  assert (Hok : MonitorObserver.pipe_ok Example.racing).
  { vm_compute. repeat split; auto. }
  assert (Hready : MonitorObserver.stop_ready Example.racing = true)
    by (vm_compute; reflexivity).
  split; [exact Hok|].
  split; [exact Hready|].
  split; [vm_compute; reflexivity|].
  destruct (C2_stop_entry_ends_the_wake Example.racing [] [5%Z])
    as (_ & _ & _ & _ & Hstop).
  exact (Hstop Hok Hready).
Defined.

(** C2 as stated fails.  An observer is running, one device event is
    queued on the monitor (descriptor 5) and [send_stop()] has been called,
    so the read end of the pipe (descriptor 3) is readable.  A wake that
    reports both, the monitor first, makes the loop receive the event and
    invoke the callback with it before it reaches the stop descriptor. *)
Lemma C2_counterexample_monitor_listed_first :
  MonitorObserver.__init__ Example.monitor5 (Some Example.quiet) Example.pipe34 =
    Return (Example.created Example.quiet) /\
  MonitorObserver.exec
    [MonitorObserver.ThreadStart;
     MonitorObserver.Deliver (Monitor.Event 7);
     MonitorObserver.SendStop] (Example.created Example.quiet) =
    Some Example.racing /\
  MonitorObserver.stop_ready Example.racing = true /\
  MonitorObserver.invoked Example.racing = [] /\
  existsb (Z.eqb (MonitorObserver._stop_event_source Example.racing)) [5%Z; 3%Z] =
    true /\
  snd (MonitorObserver.for_loop [5%Z; 3%Z] Example.racing) =
    Return MonitorObserver.Returned /\
  MonitorObserver.invoked (fst (MonitorObserver.for_loop [5%Z; 3%Z] Example.racing)) =
    [Example.device7].
Proof.
  repeat split; vm_compute; reflexivity.
Qed.

Lemma overlapped_app (s1 s2 : list bool) :
  forall (a b : MonitorObserver.send_stop_at) (w : MonitorObserver.World),
    MonitorObserver.overlapped (s1 ++ s2) a b w =
    (let '(w', a', b') := MonitorObserver.overlapped s1 a b w in
     MonitorObserver.overlapped s2 a' b' w').
Proof.
  induction s1 as [|[|] s1 IH]; intros a b w; cbn [app MonitorObserver.overlapped].
  - reflexivity.
  - destruct (MonitorObserver.send_stop_statement a w) as [w' a']. apply IH.
  - destruct (MonitorObserver.send_stop_statement b w) as [w' b']. apply IH.
Qed.

(** The statements of one call of [send_stop], with nothing between
    them, are [send_stop]. *)
Lemma send_stop_statements (w : MonitorObserver.World) :
  MonitorObserver.overlapped [true; true; true; true]
    MonitorObserver.AtIf MonitorObserver.AtIf w =
  (fst (MonitorObserver.send_stop w),
   MonitorObserver.Ended (snd (MonitorObserver.send_stop w)),
   MonitorObserver.AtIf).
Proof.
  destruct w as [mon dm src [sink|] cb [re we ro wo un bw rc wc] calls th inv];
    [|reflexivity].
  destruct ro, wo;
    repeat (cbv -[Z.eqb]; try reflexivity;
            match goal with
            | |- context [Z.eqb ?a ?b] => destruct (Z.eqb a b)
            end).
Qed.

(** C3 (amended).  At any moment of an observer's life, as reached from
    its constructor by any sequence of calls and events of which no two
    calls of [send_stop()] overlap, [os.pipe()] has been called once for
    it; as long as the sink is kept nothing was written to the write end
    and it was not closed; and [send_stop()] returns normally, after which
    exactly one byte has ever been written to the write end, the write end
    has been closed exactly once and the sink is dropped.  When the sink
    was already dropped the call changes nothing, and so does every later
    call; whatever happens afterwards, the counts stay as they are and the
    sink is not set again.  The same is reached by the statements of two
    calls when the second begins after the first has ended. *)
Theorem C3_send_stop_once :
  forall (m : Monitor.t) (cb : Monitor.Device -> MonitorObserver.Action)
         (os_pipe : Z * Z) (w0 w : MonitorObserver.World)
         (trace : list MonitorObserver.label),
    MonitorObserver.__init__ m (Some cb) os_pipe = Return w0 ->
    MonitorObserver.exec trace w0 = Some w ->
    MonitorObserver.pipe_calls w = 1 /\
    (MonitorObserver._stop_event_sink w <> None ->
     MonitorObserver.bytes_written (MonitorObserver.pipe w) = 0 /\
     MonitorObserver.write_closes (MonitorObserver.pipe w) = 0) /\
    exists w',
      MonitorObserver.send_stop w = (w', Return tt) /\
      MonitorObserver._stop_event_sink w' = None /\
      MonitorObserver.bytes_written (MonitorObserver.pipe w') = 1 /\
      MonitorObserver.write_closes (MonitorObserver.pipe w') = 1 /\
      MonitorObserver.write_open (MonitorObserver.pipe w') = false /\
      MonitorObserver.pipe_calls w' = 1 /\
      (MonitorObserver._stop_event_sink w = None -> w' = w) /\
      MonitorObserver.send_stop w' = (w', Return tt) /\
      (forall n : nat,
         Nat.iter n (fun x => fst (MonitorObserver.send_stop x)) w' = w') /\
      (forall (later : list MonitorObserver.label) (w'' : MonitorObserver.World),
         MonitorObserver.exec later w' = Some w'' ->
         MonitorObserver._stop_event_sink w'' = None /\
         MonitorObserver.bytes_written (MonitorObserver.pipe w'') = 1 /\
         MonitorObserver.write_closes (MonitorObserver.pipe w'') = 1 /\
         MonitorObserver.pipe_calls w'' = 1) /\
      MonitorObserver.overlapped
        [true; true; true; true; false; false; false; false]
        MonitorObserver.AtIf MonitorObserver.AtIf w =
        (w', MonitorObserver.Ended (Return tt), MonitorObserver.Ended (Return tt)).
Proof.
  intros m cb os_pipe w0 w trace Hinit Hexec.
  destruct (init_ok m cb os_pipe w0 Hinit) as (Hok0 & _).
  pose proof (exec_ok trace w0 w Hok0 Hexec) as Hok.
  assert (Hnone : forall v : MonitorObserver.World,
    MonitorObserver.world_ok v -> MonitorObserver._stop_event_sink v = None ->
    MonitorObserver.bytes_written (MonitorObserver.pipe v) = 1 /\
    MonitorObserver.write_closes (MonitorObserver.pipe v) = 1 /\
    MonitorObserver.write_open (MonitorObserver.pipe v) = false /\
    MonitorObserver.pipe_calls v = 1).
  { intros v [(_ & Hcalls & Hsink) _] E. rewrite E in Hsink.
    destruct Hsink as (Hwo & Hbw & Hwc & _). auto. }
  split; [|split].
  - destruct Hok as [(_ & Hcalls & _) _]. exact Hcalls.
  - intros Hsome. destruct Hok as [(_ & _ & Hsink) _].
    destruct (MonitorObserver._stop_event_sink w); [|contradiction].
    destruct Hsink as (_ & _ & _ & _ & Hbw & Hwc & _). auto.
  - assert (Hstep : MonitorObserver.step MonitorObserver.SendStop w =
                    Some (fst (MonitorObserver.send_stop w))) by reflexivity.
    pose proof (step_ok _ _ _ Hok Hstep) as Hok'.
    destruct Hok as [Hpipe _].
    destruct (send_stop_ok w Hpipe) as (w' & Hss & _ & Hsink' & Hnoop & _).
    rewrite Hss in Hok'. simpl in Hok'.
    destruct (Hnone w' Hok' Hsink') as (Hbw & Hwc & Hwo & Hcalls).
    pose proof (send_stop_without_sink w' Hsink') as Hagain.
    exists w'. repeat (split; [assumption|]). split; [|split].
    + induction n as [|n IH]; [reflexivity|].
      simpl. rewrite IH, Hagain. reflexivity.
    + intros later w'' Hlater.
      pose proof (exec_ok later w' w'' Hok' Hlater) as Hok''.
      pose proof (exec_without_sink later w' w'' Hok' Hsink' Hlater) as Hsink''.
      destruct (Hnone w'' Hok'' Hsink'') as (? & ? & ? & ?). auto.
    + pose proof (send_stop_statements w) as Hfirst.
      rewrite Hss in Hfirst. cbn [fst snd] in Hfirst.
      change [true; true; true; true; false; false; false; false]
        with ([true; true; true; true] ++ [false]%list ++ [false; false; false]).
      rewrite overlapped_app, Hfirst, overlapped_app.
      cbn [MonitorObserver.overlapped MonitorObserver.send_stop_statement].
      rewrite Hsink'. reflexivity.
Qed.

(** C3, at an observer that was started and on which [send_stop()] has
    been called twice already. *)
Lemma C3_send_stop_once_witness :
  exists w0 w : MonitorObserver.World,
    MonitorObserver.__init__ Example.monitor5 (Some Example.quiet) Example.pipe34 =
      Return w0 /\
    MonitorObserver.exec
      [MonitorObserver.ThreadStart; MonitorObserver.SendStop;
       MonitorObserver.SendStop] w0 = Some w /\
    MonitorObserver.pipe_calls w = 1 /\
    MonitorObserver.send_stop w = (w, Return tt) /\
    MonitorObserver.bytes_written (MonitorObserver.pipe w) = 1 /\
    MonitorObserver.write_closes (MonitorObserver.pipe w) = 1.
Proof.
  do 2 eexists.
  split; [reflexivity|].
  split; [reflexivity|].
  destruct (C3_send_stop_once Example.monitor5 Example.quiet Example.pipe34 _ _
              [MonitorObserver.ThreadStart; MonitorObserver.SendStop;
               MonitorObserver.SendStop] eq_refl eq_refl)
    as (Hcalls & _ & w' & Hss & _ & Hbw & Hwc & _ & _ & Hnoop & _).
  rewrite (Hnoop eq_refl) in Hss, Hbw, Hwc.
  repeat split; assumption.
Defined.

(** Against C3 as stated for calls that overlap: on the observer just
    created, two calls of [send_stop()] both pass the test of [if] before
    either drops the sink.  Both write, so two bytes go into the pipe; the
    first returns, and the second raises, [TypeError] when it closes after
    the first has dropped the sink and [OSError] when it closes before. *)
Lemma C3_counterexample_overlapping_calls :
  MonitorObserver.__init__ Example.monitor5 (Some Example.quiet) Example.pipe34 =
    Return (Example.created Example.quiet) /\
  MonitorObserver.bytes_written
    (MonitorObserver.pipe (fst (fst (Example.overlapping Example.quiet)))) = 2 /\
  MonitorObserver.write_closes
    (MonitorObserver.pipe (fst (fst (Example.overlapping Example.quiet)))) = 1 /\
  snd (fst (Example.overlapping Example.quiet)) =
    MonitorObserver.Ended (Return tt) /\
  snd (Example.overlapping Example.quiet) =
    MonitorObserver.Ended (Raise TypeError) /\
  MonitorObserver.bytes_written
    (MonitorObserver.pipe (fst (fst (Example.overlapping_close Example.quiet)))) = 2 /\
  snd (fst (Example.overlapping_close Example.quiet)) =
    MonitorObserver.Ended (Return tt) /\
  snd (Example.overlapping_close Example.quiet) =
    MonitorObserver.Ended (Raise OSError).
Proof.
  repeat split.
Qed.

(** C4, for an observer whose thread has been started.  A [stop()] called
    from another thread, with anything happening between its [send_stop()]
    and the return of its [join()], returns only when the observer thread
    has finished; from then on the thread stays finished and the callback
    is not invoked again, whatever events are delivered and whatever calls
    are made afterwards.  While the thread is alive the join, and so
    [stop()], does not return; once it has finished the join returns. *)
Theorem C4_foreign_stop_waits_for_the_thread :
  forall (w0 w1 : MonitorObserver.World) (between : list MonitorObserver.label),
    MonitorObserver.thread w0 <> MonitorObserver.Unstarted ->
    MonitorObserver.exec
      (MonitorObserver.StopSendStop :: between ++ [MonitorObserver.StopJoin]) w0 =
      Some w1 ->
    MonitorObserver.finished w1 = true /\
    (forall (later : list MonitorObserver.label) (w2 : MonitorObserver.World),
       MonitorObserver.exec later w1 = Some w2 ->
       MonitorObserver.invoked w2 = MonitorObserver.invoked w1 /\
       MonitorObserver.finished w2 = true) /\
    (forall (w : MonitorObserver.World) (pending : list Z),
       MonitorObserver.thread w = MonitorObserver.Alive pending ->
       MonitorObserver.step MonitorObserver.StopJoin w = None /\
       snd (MonitorObserver.join MonitorObserver.ForeignThread w) = Blocks /\
       forall u : unit,
         snd (MonitorObserver.stop MonitorObserver.ForeignThread w) <> Return u) /\
    (forall w : MonitorObserver.World,
       MonitorObserver.finished w = true ->
       MonitorObserver.step MonitorObserver.StopJoin w = Some w).
Proof.
  intros w0 w1 between Hstarted Hexec.
  change (MonitorObserver.StopSendStop :: between ++ [MonitorObserver.StopJoin])
    with ((MonitorObserver.StopSendStop :: between) ++ [MonitorObserver.StopJoin])
    in Hexec.
  rewrite exec_app in Hexec.
  destruct (MonitorObserver.exec (MonitorObserver.StopSendStop :: between) w0)
    as [w|] eqn:Hbefore; [|discriminate].
  pose proof (exec_started _ _ _ Hstarted Hbefore) as Hth.
  simpl in Hexec. unfold try_except, MonitorObserver.join in Hexec.
  assert (Hfin : MonitorObserver.finished w1 = true).
  { unfold MonitorObserver.finished.
    destruct (MonitorObserver.thread w) eqn:E; simpl in Hexec;
      try contradiction; try discriminate.
    inversion Hexec; subst. rewrite E. reflexivity. }
  split; [exact Hfin|split; [|split]].
  - intros later w2 Hlater.
    destruct (exec_finished later w1 w2 Hfin Hlater). auto.
  - intros v pending Hv. simpl.
    unfold try_except at 1. unfold MonitorObserver.join at 1 2.
    rewrite Hv. simpl. split; [reflexivity|split; [reflexivity|]].
    intros u. unfold MonitorObserver.stop, bind.
    destruct (send_stop_frame v) as (_ & Hsame & _). simpl in Hsame.
    destruct (MonitorObserver.send_stop v) as [v' [[]|e|]]; simpl in *;
      try discriminate.
    unfold try_except, MonitorObserver.join. rewrite Hsame, Hv. discriminate.
  - intros v Hv. simpl. unfold try_except, MonitorObserver.join.
    unfold MonitorObserver.finished in Hv.
    destruct (MonitorObserver.thread v); try discriminate. reflexivity.
Qed.

(** C4, at an observer that is started, receives one device, and is
    stopped from another thread while it handles a wake reporting the
    stop descriptor. *)
Lemma C4_foreign_stop_waits_for_the_thread_witness :
  MonitorObserver.thread Example.running <> MonitorObserver.Unstarted /\
  exists w1 : MonitorObserver.World,
    MonitorObserver.exec
      (MonitorObserver.StopSendStop ::
       [MonitorObserver.Deliver (Monitor.Event 7);
        MonitorObserver.Wake [3%Z; 5%Z];
        MonitorObserver.Body] ++ [MonitorObserver.StopJoin]) Example.running =
      Some w1 /\
    MonitorObserver.finished w1 = true /\
    (forall (later : list MonitorObserver.label) (w2 : MonitorObserver.World),
       MonitorObserver.exec later w1 = Some w2 ->
       MonitorObserver.invoked w2 = MonitorObserver.invoked w1 /\
       MonitorObserver.finished w2 = true).
Proof.
  assert (Hstarted :
    MonitorObserver.thread Example.running <> MonitorObserver.Unstarted)
    by (vm_compute; discriminate).
  split; [exact Hstarted|].
  eexists. split; [vm_compute; reflexivity|].
  lazymatch goal with
  | |- MonitorObserver.finished ?x = true /\ _ =>
      assert (Hexec :
        MonitorObserver.exec
          (MonitorObserver.StopSendStop ::
           [MonitorObserver.Deliver (Monitor.Event 7);
            MonitorObserver.Wake [3%Z; 5%Z];
            MonitorObserver.Body] ++ [MonitorObserver.StopJoin]) Example.running =
          Some x) by (vm_compute; reflexivity);
      destruct (C4_foreign_stop_waits_for_the_thread Example.running x
                  [MonitorObserver.Deliver (Monitor.Event 7);
                   MonitorObserver.Wake [3%Z; 5%Z];
                   MonitorObserver.Body] Hstarted Hexec) as (Hfin & Hlater & _)
  end.
  split; [exact Hfin|exact Hlater].
Defined.

(** C4 as stated fails on an observer whose thread was never started.
    [stop()] from another thread returns at once, the [RuntimeError] of
    [join] being swallowed, though no thread has exited: the thread is
    still to be started, and when it is, it runs the loop and exits only
    then, after [stop()] has long returned.  If by then an event is queued
    and the wake lists the monitor (descriptor 5) before the stop
    descriptor (3), the callback is invoked as well. *)
Lemma C4_counterexample_stop_before_start :
  MonitorObserver.__init__ Example.monitor5 (Some Example.quiet) Example.pipe34 =
    Return (Example.created Example.quiet) /\
  MonitorObserver.exec
    [MonitorObserver.StopSendStop; MonitorObserver.StopJoin]
    (Example.created Example.quiet) = Some Example.stopped_unstarted /\
  MonitorObserver.thread Example.stopped_unstarted = MonitorObserver.Unstarted /\
  MonitorObserver.finished Example.stopped_unstarted = false /\
  MonitorObserver.invoked Example.stopped_unstarted = [] /\
  (exists w2 : MonitorObserver.World,
     MonitorObserver.exec
       [MonitorObserver.ThreadStart;
        MonitorObserver.Wake [3%Z];
        MonitorObserver.Body] Example.stopped_unstarted = Some w2 /\
     MonitorObserver.thread w2 = MonitorObserver.Finished None) /\
  (exists w2 : MonitorObserver.World,
     MonitorObserver.exec
       [MonitorObserver.ThreadStart;
        MonitorObserver.Deliver (Monitor.Event 7);
        MonitorObserver.Wake [5%Z; 3%Z];
        MonitorObserver.Body] Example.stopped_unstarted = Some w2 /\
     MonitorObserver.invoked w2 = [Example.device7]).
Proof.
  repeat (split; [vm_compute; reflexivity|]).
  split; eexists; split; vm_compute; reflexivity.
Qed.


Section DeliveryFacts.

Import MonitorObserver.

Lemma poll_zero_fd (self : Monitor.t) :
  Monitor.fd (Monitor._as_parameter_ (fst (Monitor.poll (Some 0%Q) self))) =
  Monitor.fd (Monitor._as_parameter_ self).
Proof.
  unfold Monitor.poll, bind, Monitor.fileno.
  pose proof (select_select_state (Some 0%Q) self) as Hsel.
  destruct (Monitor.select_select (Some 0%Q) self) as [s1 o]; simpl in Hsel; subst s1.
  destruct o as [rlist| |]; simpl; auto.
  destruct (existsb _ rlist); simpl; auto.
  unfold Monitor.libudev, Monitor.udev_monitor_receive_device; simpl.
  destruct (Monitor.socket (Monitor._as_parameter_ self)) as [|[p|] rest]; simpl; auto.
Qed.

(** The loops of [run] over wakes are one loop over their entries. *)
Lemma while_loop_concat (wakes : list (list Z)) :
  forall w : World, while_loop wakes w = for_loop (List.concat wakes) w.
Proof.
  induction wakes as [|fds wakes IH]; intros w; [reflexivity|].
  cbn [while_loop List.concat]. rewrite for_loop_app. unfold bind.
  destruct (for_loop fds w) as [w1 [[|]|e|]]; try reflexivity. apply IH.
Qed.

(** An entry of a wake for the monitor, with a device event the oldest
    on the socket: the event is received and the callback is invoked with
    its device, whatever the callback then does. *)
Lemma body_delivers (fd : Z) (w : World) (p : positive)
  (queued : list Monitor.Datagram) :
  pipe_ok w ->
  fd <> _stop_event_source w ->
  Monitor.selectable (Monitor.fd (Monitor._as_parameter_ (monitor w))) = true ->
  Monitor.socket (Monitor._as_parameter_ (monitor w)) = Monitor.Event p :: queued ->
  let w' := fst (body fd w) in
  invoked w' = invoked w ++ [{| Monitor.device_p := p |}] /\
  Monitor.socket (Monitor._as_parameter_ (monitor w')) = queued /\
  Monitor.fd (Monitor._as_parameter_ (monitor w')) =
    Monitor.fd (Monitor._as_parameter_ (monitor w)) /\
  snd (body fd w) <> Blocks /\
  pipe_ok w' /\
  Monitor._started (monitor w') = Monitor._started (monitor w) /\
  (_callback w {| Monitor.device_p := p |} = Pass -> snd (body fd w) = Return Next).
Proof.
  intros Hok Hfd Hsel Hsock. cbv zeta.
  pose proof (poll_zero_fd (monitor w)) as Hsame.
  pose proof (poll_frame (Some 0%Q) (monitor w)) as [Hkeep _].
  rewrite body_unfold. apply Z.eqb_neq in Hfd. rewrite Hfd.
  destruct (poll_zero w) as (um' & Hfst & _ & _ & Hcase).
  cbv zeta in Hcase. rewrite Hsel, Hsock in Hcase. destruct Hcase as [Hsnd Hrest].
  unfold on_monitor in Hfst, Hsnd |- *.
  destruct (Monitor.poll (Some 0%Q) (monitor w)) as [mon o].
  cbn [fst snd] in Hfst, Hsnd, Hsame, Hkeep. subst o.
  assert (Hmon : mon = Monitor.set_as_parameter um' (monitor w)).
  { apply (f_equal monitor) in Hfst. exact Hfst. }
  set (v := set_monitor mon w).
  assert (Hokv : pipe_ok v) by exact Hok.
  pose proof (call_callback_ok {| Monitor.device_p := p |} v Hokv) as H.
  cbv zeta in H.
  destruct H as (Hok' & Hinv & Hmon' & _ & _ & _ & _ & _ & _ & Hnb).
  pose proof (call_callback_unfold {| Monitor.device_p := p |} v) as Hunfold.
  destruct (call_callback {| Monitor.device_p := p |} v) as [w1 o].
  cbn [fst snd] in *.
  assert (Hfacts :
    invoked w1 = invoked w ++ [{| Monitor.device_p := p |}] /\
    Monitor.socket (Monitor._as_parameter_ (monitor w1)) = queued /\
    Monitor.fd (Monitor._as_parameter_ (monitor w1)) =
      Monitor.fd (Monitor._as_parameter_ (monitor w)) /\
    Monitor._started (monitor w1) = Monitor._started (monitor w)).
  { rewrite Hinv, Hmon'. subst v. cbn [monitor set_monitor invoked].
    conjuncts; [reflexivity| |exact Hsame|exact Hkeep].
    rewrite Hmon. exact Hrest. }
  destruct Hfacts as (F1 & F2 & F3 & F4).
  destruct o as [u|e|]; cbn [fst snd].
  - conjuncts; auto; discriminate.
  - conjuncts; auto; try discriminate.
    intros Hpass. subst v. cbn [_callback set_monitor] in Hunfold.
    rewrite Hpass in Hunfold. discriminate.
  - exfalso. apply Hnb. reflexivity.
Qed.

(** As many entries for the monitor as device events are queued, with a
    callback that only takes the device: the loop hands all of them to the
    callback, oldest first, and goes on. *)
Lemma for_loop_delivers (ps : list positive) :
  forall (w : World) (more : list Monitor.Datagram),
    pipe_ok w ->
    Monitor.fd (Monitor._as_parameter_ (monitor w)) <> _stop_event_source w ->
    Monitor.selectable (Monitor.fd (Monitor._as_parameter_ (monitor w))) = true ->
    (forall d, _callback w d = Pass) ->
    Monitor.socket (Monitor._as_parameter_ (monitor w)) =
      map Monitor.Event ps ++ more ->
    exists w',
      for_loop (repeat (Monitor.fd (Monitor._as_parameter_ (monitor w)))
                       (List.length ps)) w = (w', Return Next) /\
      invoked w' = invoked w ++ map (fun p => {| Monitor.device_p := p |}) ps /\
      Monitor.socket (Monitor._as_parameter_ (monitor w')) = more /\
      Monitor._started (monitor w') = Monitor._started (monitor w).
Proof.
  induction ps as [|p ps IH]; intros w more Hok Hfd Hsel Hcb Hsock.
  - exists w. cbn. rewrite app_nil_r. conjuncts; auto.
  - cbn [List.length repeat for_loop map app] in *. unfold bind.
    destruct (body_delivers _ w p (map Monitor.Event ps ++ more) Hok Hfd Hsel Hsock)
      as (Hinv & Hsock1 & Hfd1 & _ & Hok1 & Hst1 & Hnext).
    specialize (Hnext (Hcb _)).
    destruct (body_frame (Monitor.fd (Monitor._as_parameter_ (monitor w))) w)
      as (_ & Hsrc & Hcb1 & _).
    destruct (body (Monitor.fd (Monitor._as_parameter_ (monitor w))) w) as [w1 o].
    cbn [fst snd] in *. subst o.
    destruct (IH w1 more Hok1) as (w' & Hloop & Hinv' & Hsock' & Hst').
    + rewrite Hfd1, Hsrc. exact Hfd.
    + rewrite Hfd1. exact Hsel.
    + intros d. rewrite Hcb1. apply Hcb.
    + exact Hsock1.
    + exists w'. rewrite Hfd1 in Hloop. split; [exact Hloop|].
      split; [|split; [exact Hsock'|rewrite Hst'; exact Hst1]].
      rewrite Hinv', Hinv, <- app_assoc. reflexivity.
Qed.

End DeliveryFacts.

(** C9.  The devices the callback is invoked with are, in this order and
    each once, the devices of the datagrams the socket was given: those
    delivered before the observer was created and received by then come
    first, then those the callback was invoked with, then those still
    queued.  This holds after any sequence of deliveries, wakes, loop
    bodies and stop calls, and after [run] on any wakes; with nothing
    received beforehand the callback has seen a prefix of what was
    delivered, and all of it once the queue is empty.  And the loop does
    hand the devices over: each run of its body on an entry for the
    monitor, whose descriptor [select] takes, receives the oldest queued
    event and invokes the callback with its device; and [run] over wakes
    that list the monitor once for each queued event, with a callback that
    only takes the device, invokes it with all of them in the order they
    were queued and leaves the queue empty. *)
Theorem C9_callback_sees_devices_in_delivery_order :
  forall (m : Monitor.t) (cb : Monitor.Device -> MonitorObserver.Action)
         (os_pipe : Z * Z) (w0 : MonitorObserver.World)
         (before : list Monitor.Device),
    MonitorObserver.__init__ m (Some cb) os_pipe = Return w0 ->
    Monitor.devices (Monitor.delivered (Monitor._as_parameter_ m)) =
      before ++ Monitor.devices (Monitor.socket (Monitor._as_parameter_ m)) ->
    (forall (trace : list MonitorObserver.label) (w : MonitorObserver.World),
       MonitorObserver.exec trace w0 = Some w ->
       MonitorObserver.accounted before w) /\
    (forall wakes : list (list Z),
       MonitorObserver.accounted before (fst (MonitorObserver.run wakes w0))) /\
    (before = [] ->
     forall (trace : list MonitorObserver.label) (w : MonitorObserver.World),
       MonitorObserver.exec trace w0 = Some w ->
       let um := Monitor._as_parameter_ (MonitorObserver.monitor w) in
       (exists rest, Monitor.devices (Monitor.delivered um) =
                     MonitorObserver.invoked w ++ rest) /\
       (Monitor.socket um = [] ->
        MonitorObserver.invoked w = Monitor.devices (Monitor.delivered um))) /\
    (forall (trace : list MonitorObserver.label) (w : MonitorObserver.World)
            (fd : Z) (rest : list Z) (p : positive)
            (queued : list Monitor.Datagram),
       MonitorObserver.exec trace w0 = Some w ->
       MonitorObserver.thread w = MonitorObserver.Alive (fd :: rest) ->
       fd <> MonitorObserver._stop_event_source w ->
       Monitor.selectable
         (Monitor.fd (Monitor._as_parameter_ (MonitorObserver.monitor w))) = true ->
       Monitor.socket (Monitor._as_parameter_ (MonitorObserver.monitor w)) =
         Monitor.Event p :: queued ->
       exists w1 : MonitorObserver.World,
         MonitorObserver.step MonitorObserver.Body w = Some w1 /\
         MonitorObserver.invoked w1 =
           MonitorObserver.invoked w ++ [{| Monitor.device_p := p |}] /\
         Monitor.socket (Monitor._as_parameter_ (MonitorObserver.monitor w1)) =
           queued) /\
    (forall (ps : list positive) (wakes : list (list Z)),
       Monitor.socket (Monitor._as_parameter_ m) = map Monitor.Event ps ->
       (forall d, cb d = MonitorObserver.Pass) ->
       Monitor.selectable (Monitor.fd (Monitor._as_parameter_ m)) = true ->
       Monitor.fd (Monitor._as_parameter_ m) <> fst os_pipe ->
       List.concat wakes =
         repeat (Monitor.fd (Monitor._as_parameter_ m)) (List.length ps) ->
       exists w : MonitorObserver.World,
         MonitorObserver.run wakes w0 = (w, Return MonitorObserver.Next) /\
         MonitorObserver.invoked w = map (fun p => {| Monitor.device_p := p |}) ps /\
         Monitor.socket (Monitor._as_parameter_ (MonitorObserver.monitor w)) = [] /\
         Monitor._started (MonitorObserver.monitor w) = true).
Proof.
  intros m cb os_pipe w0 before Hinit Hbefore.
  destruct (init_ok m cb os_pipe w0 Hinit) as (Hok0 & _ & Hinv0 & Hmon0).
  assert (Hacc0 : MonitorObserver.accounted before w0).
  { unfold MonitorObserver.accounted. rewrite Hmon0, Hinv0. exact Hbefore. }
  split; [|split; [|split; [|split]]].
  - intros trace w Hexec. exact (exec_accounted before trace w0 w Hacc0 Hexec).
  - intros wakes. unfold MonitorObserver.run, bind.
    destruct (start_accounted before w0 Hacc0) as [Hacc1 Hret].
    destruct (MonitorObserver.on_monitor Monitor.start w0) as [w1 o].
    simpl in Hacc1, Hret. subst o.
    apply while_loop_accounted. exact Hacc1.
  - intros -> trace w Hexec um.
    pose proof (exec_accounted [] trace w0 w Hacc0 Hexec) as Hacc.
    unfold MonitorObserver.accounted in Hacc. simpl in Hacc. fold um in Hacc.
    split.
    + eexists. exact Hacc.
    + intros Hempty. rewrite Hacc, Hempty. simpl. rewrite app_nil_r. reflexivity.
  - intros trace w fd rest p queued Hexec Hth Hfd Hsel Hsock.
    pose proof (exec_ok trace w0 w Hok0 Hexec) as [Hpipe _].
    destruct (body_delivers fd w p queued Hpipe Hfd Hsel Hsock)
      as (Hinv & Hsock1 & _ & Hnb & _).
    cbn [MonitorObserver.step]. rewrite Hth.
    destruct (MonitorObserver.body fd w) as [w1 [[|]|e|]]; cbn [fst snd] in *;
      try (exfalso; apply Hnb; reflexivity);
      eexists; (split; [reflexivity|]); split; assumption.
  - intros ps wakes Hsock Hcb Hsel Hfd Hwakes.
    unfold MonitorObserver.__init__ in Hinit. inversion Hinit; subst w0; clear Hinit.
    unfold MonitorObserver.run, bind.
    set (w0 := {| MonitorObserver.monitor := m;
                  MonitorObserver.daemon := true;
                  MonitorObserver._stop_event_source := fst os_pipe;
                  MonitorObserver._stop_event_sink := Some (snd os_pipe);
                  MonitorObserver._callback := cb;
                  MonitorObserver.pipe := _;
                  MonitorObserver.pipe_calls := 1;
                  MonitorObserver.thread := MonitorObserver.Unstarted;
                  MonitorObserver.invoked := [] |}) in *.
    assert (Hstart : exists mon,
              MonitorObserver.on_monitor Monitor.start w0 =
                (MonitorObserver.set_monitor mon w0, Return tt) /\
              Monitor._as_parameter_ mon =
                Monitor._as_parameter_ (fst (Monitor.start m)) /\
              Monitor.socket (Monitor._as_parameter_ mon) =
                Monitor.socket (Monitor._as_parameter_ m) /\
              Monitor.fd (Monitor._as_parameter_ mon) =
                Monitor.fd (Monitor._as_parameter_ m) /\
              Monitor._started mon = true).
    { unfold MonitorObserver.on_monitor, Monitor.start, bind, get, modify,
        Monitor.libudev. cbn.
      destruct (Monitor._started m) eqn:E; cbn; eexists;
        (split; [reflexivity|]); cbn; rewrite ?E; conjuncts; reflexivity. }
    destruct Hstart as (mon & -> & _ & Hsock1 & Hfd1 & Hstarted).
    rewrite while_loop_concat, Hwakes, <- Hfd1.
    destruct (for_loop_delivers ps (MonitorObserver.set_monitor mon w0) [])
      as (w' & Hloop & Hinv & Hempty & Hkeep).
    + exact (proj1 Hok0).
    + cbn. rewrite Hfd1. exact Hfd.
    + cbn. rewrite Hfd1. exact Hsel.
    + intros d. apply Hcb.
    + cbn. rewrite Hsock1, app_nil_r. exact Hsock.
    + cbn [MonitorObserver.monitor MonitorObserver.set_monitor] in Hloop.
      exists w'. split; [exact Hloop|]. split; [exact Hinv|]. split; [exact Hempty|].
      rewrite Hkeep. exact Hstarted.
Qed.

(** C9, at a started monitor with one event queued: [run] over one wake
    for the monitor invokes the callback with its device; and at a fresh
    monitor whose observer is started, is delivered two events and handles
    a wake for the first of them. *)
Lemma C9_callback_sees_devices_in_delivery_order_witness :
  (exists w : MonitorObserver.World,
     MonitorObserver.run [[5%Z]] (Example.busy_observer Example.quiet) =
       (w, Return MonitorObserver.Next) /\
     MonitorObserver.invoked w = [Example.device7] /\
     Monitor.socket (Monitor._as_parameter_ (MonitorObserver.monitor w)) = []) /\
  exists w : MonitorObserver.World,
    MonitorObserver.exec
      [MonitorObserver.ThreadStart;
       MonitorObserver.Deliver (Monitor.Event 7);
       MonitorObserver.Deliver (Monitor.Event 9);
       MonitorObserver.Wake [5%Z];
       MonitorObserver.Body] (Example.created Example.quiet) = Some w /\
    MonitorObserver.invoked w = [Example.device7] /\
    MonitorObserver.accounted [] w.
Proof.
  split.
  - destruct (C9_callback_sees_devices_in_delivery_order
                Example.busy_monitor Example.quiet Example.pipe34
                (Example.busy_observer Example.quiet) [] eq_refl eq_refl)
      as (_ & _ & _ & _ & Hrun).
    destruct (Hrun [7%positive] [[5%Z]] eq_refl (fun _ => eq_refl) eq_refl)
      as (w & Hw & Hinv & Hsock & _).
    + vm_compute. discriminate.
    + reflexivity.
    + exists w. conjuncts; assumption.
  - eexists. split; [reflexivity|]. split; [reflexivity|].
    destruct (C9_callback_sees_devices_in_delivery_order
                Example.monitor5 Example.quiet Example.pipe34
                (Example.created Example.quiet) [] eq_refl eq_refl)
      as (Hacc & _).
    apply (Hacc [MonitorObserver.ThreadStart;
                 MonitorObserver.Deliver (Monitor.Event 7);
                 MonitorObserver.Deliver (Monitor.Event 9);
                 MonitorObserver.Wake [5%Z];
                 MonitorObserver.Body]).
    reflexivity.
Defined.

(** C10.  [stop()] never raises from its join: the join under its
    [except RuntimeError] clause raises nothing, so whatever [stop()]
    raises was raised by [send_stop()].  On a thread that was never
    started, and when the caller is the observer thread, [stop()] does
    what [send_stop()] does and ends as it ends; with the pipe in order,
    as it is at every moment of an observer's life, that is a normal
    return. *)
Theorem C10_stop_swallows_the_join_error :
  forall (who : MonitorObserver.caller) (w : MonitorObserver.World),
    (forall e : exn,
       snd (try_except (MonitorObserver.join who) RuntimeError (ret tt) w) <>
       Raise e) /\
    (forall e : exn,
       snd (MonitorObserver.stop who w) = Raise e ->
       snd (MonitorObserver.send_stop w) = Raise e) /\
    (MonitorObserver.thread w = MonitorObserver.Unstarted \/
     who = MonitorObserver.ObserverThread ->
     MonitorObserver.stop who w = MonitorObserver.send_stop w /\
     (MonitorObserver.pipe_ok w ->
      exists w', MonitorObserver.stop who w = (w', Return tt) /\
                 MonitorObserver._stop_event_sink w' = None /\
                 MonitorObserver.thread w' = MonitorObserver.thread w)) /\
    (forall (m : Monitor.t) (cb : Monitor.Device -> MonitorObserver.Action)
            (os_pipe : Z * Z) (w0 : MonitorObserver.World)
            (trace : list MonitorObserver.label),
       MonitorObserver.__init__ m (Some cb) os_pipe = Return w0 ->
       MonitorObserver.exec trace w0 = Some w ->
       MonitorObserver.pipe_ok w).
Proof.
  intros who w. split; [|split; [|split]].
  - intros e. unfold try_except, MonitorObserver.join.
    destruct (MonitorObserver.thread w), who; simpl; discriminate.
  - intros e. apply stop_raises_from_send_stop.
  - intros Hcase.
    assert (Heq : MonitorObserver.stop who w = MonitorObserver.send_stop w).
    { destruct Hcase as [Hth | ->].
      - apply stop_unstarted. exact Hth.
      - apply stop_observer. }
    split; [exact Heq|].
    intros Hok. rewrite Heq.
    destruct (send_stop_ok w Hok) as (w' & Hss & _ & Hsink & _).
    destruct (send_stop_frame w) as (_ & Hth & _).
    rewrite Hss in *. simpl in Hth. eauto.
  - intros m cb os_pipe w0 trace Hinit Hexec.
    destruct (init_ok m cb os_pipe w0 Hinit) as (Hok0 & _).
    exact (proj1 (exec_ok trace w0 w Hok0 Hexec)).
Qed.

(** C10, at an observer fresh from its constructor, stopped from another
    thread before its own thread was started. *)
Lemma C10_stop_swallows_the_join_error_witness :
  exists w0 w' : MonitorObserver.World,
    MonitorObserver.__init__ Example.monitor5 (Some Example.quiet) Example.pipe34 =
      Return w0 /\
    MonitorObserver.thread w0 = MonitorObserver.Unstarted /\
    MonitorObserver.stop MonitorObserver.ForeignThread w0 = (w', Return tt) /\
    MonitorObserver.send_stop w0 = (w', Return tt).
Proof.
  do 2 eexists.
  split; [reflexivity|].
  split; [reflexivity|].
  lazymatch goal with
  | |- MonitorObserver.stop _ ?x = _ /\ _ =>
      destruct (C10_stop_swallows_the_join_error MonitorObserver.ForeignThread x)
        as (_ & _ & Hcase & _);
      destruct (Hcase (or_introl eq_refl)) as [Heq _];
      rewrite Heq
  end.
  split; reflexivity.
Defined.

(** ** MonitorObserver: errors in the loop, and the monitor underneath *)

Section ObserverLoopFacts.

Import MonitorObserver.

(** Once the thread has finished, nothing that happens changes the
    thread, the read end of the pipe or what the callback was given. *)
Lemma step_after_finish (l : label) (w w' : World) :
  world_ok w -> finished w = true -> step l w = Some w' ->
  thread w' = thread w /\ read_open (pipe w') = read_open (pipe w) /\
  invoked w' = invoked w.
Proof.
  intros [Hpipe _] Hfin Hstep. unfold finished in Hfin.
  destruct l; cbn [step] in Hstep.
  - inversion Hstep; subst. conjuncts; reflexivity.
  - destruct (thread w); discriminate.
  - destruct (thread w) as [|[|]|]; discriminate.
  - destruct (thread w) as [|[|]|]; discriminate.
  - destruct (send_stop_ok w Hpipe) as (w1 & E & _ & _ & _ & Hopen & _).
    pose proof (send_stop_frame w) as Hframe. rewrite E in Hstep, Hframe.
    cbn [fst] in Hstep, Hframe. inversion Hstep; subst.
    destruct Hframe as (_ & Hth & Hinv & _). auto.
  - destruct (send_stop_ok w Hpipe) as (w1 & E & _ & _ & _ & Hopen & _).
    pose proof (send_stop_frame w) as Hframe. rewrite E in Hstep, Hframe.
    cbn [fst] in Hstep, Hframe. inversion Hstep; subst.
    destruct Hframe as (_ & Hth & Hinv & _). auto.
  - unfold try_except, join in Hstep.
    destruct (thread w) eqn:E; try discriminate.
    inversion Hstep; subst. conjuncts; auto.
Qed.

Lemma exec_after_finish (trace : list label) :
  forall w w' : World,
    world_ok w -> finished w = true -> exec trace w = Some w' ->
    thread w' = thread w /\ read_open (pipe w') = read_open (pipe w) /\
    invoked w' = invoked w.
Proof.
  induction trace as [|l trace IH]; intros w w' Hok Hfin Hexec.
  - inversion Hexec; subst. conjuncts; reflexivity.
  - cbn [exec] in Hexec. destruct (step l w) as [w1|] eqn:Hstep; [|discriminate].
    destruct (step_after_finish l w w1 Hok Hfin Hstep) as (Hth & Hopen & Hinv).
    assert (Hfin1 : finished w1 = true).
    { unfold finished in *. rewrite Hth. exact Hfin. }
    destruct (IH w1 w' (step_ok l w w1 Hok Hstep) Hfin1 Hexec) as (Hth' & Hopen' & Hinv').
    conjuncts; congruence.
Qed.

(** [poll] leaves the configuration of the monitor alone. *)
Lemma poll_config (timeout : option Q) (self : Monitor.t) :
  let um := Monitor._as_parameter_ self in
  let um' := Monitor._as_parameter_ (fst (Monitor.poll timeout self)) in
  Monitor.filters um' = Monitor.filters um /\
  Monitor.filter_updates um' = Monitor.filter_updates um /\
  Monitor.receive_buffer_size um' = Monitor.receive_buffer_size um /\
  Monitor.fd um' = Monitor.fd um.
Proof.
  unfold Monitor.poll, bind, Monitor.fileno.
  pose proof (select_select_state timeout self) as Hsel.
  destruct (Monitor.select_select timeout self) as [s1 o]; simpl in Hsel; subst s1.
  destruct o as [rlist| |]; simpl; auto.
  destruct (existsb _ rlist); simpl; auto.
  unfold Monitor.libudev, Monitor.udev_monitor_receive_device; simpl.
  destruct (Monitor.socket (Monitor._as_parameter_ self)) as [|[p|] rest]; simpl; auto.
Qed.

(** The body of the loop leaves the monitor as it was or as one
    [poll(timeout=0)] leaves it: what the callback does is not done to the
    monitor. *)
Lemma body_monitor (fd : Z) (w : World) :
  monitor (fst (body fd w)) = monitor w \/
  monitor (fst (body fd w)) = fst (Monitor.poll (Some 0%Q) (monitor w)).
Proof.
  rewrite body_unfold.
  destruct (fd =? _stop_event_source w)%Z.
  - left. unfold os_close.
    destruct ((_stop_event_source w =? write_end (pipe w))%Z && write_open (pipe w));
      [reflexivity|].
    destruct ((_stop_event_source w =? read_end (pipe w))%Z && read_open (pipe w));
      reflexivity.
  - right. unfold on_monitor.
    destruct (Monitor.poll (Some 0%Q) (monitor w)) as [mon o]. cbn [fst].
    assert (Hcall : forall d,
              monitor (fst (call_callback d (set_monitor mon w))) = mon).
    { intros d. rewrite call_callback_unfold.
      destruct (_callback (set_monitor mon w) d).
      - reflexivity.
      - destruct (send_stop_frame (record_call d (set_monitor mon w))) as (Hm & _).
        rewrite Hm. reflexivity.
      - destruct (send_stop_frame (record_call d (set_monitor mon w))) as (Hm & _).
        rewrite Hm. reflexivity.
      - reflexivity. }
    destruct o as [[d|]|e|]; cbn [fst]; try reflexivity.
    specialize (Hcall d).
    destruct (call_callback d (set_monitor mon w)) as [w2 [u|e|]];
      cbn [fst] in *; exact Hcall.
Qed.

(** What a step does to the monitor of the observer. *)
Lemma step_monitor (l : label) (w w' : World) :
  step l w = Some w' ->
  let um := Monitor._as_parameter_ (monitor w) in
  let um' := Monitor._as_parameter_ (monitor w') in
  (Monitor.filters um' = Monitor.filters um /\
   Monitor.filter_updates um' = Monitor.filter_updates um /\
   Monitor.receive_buffer_size um' = Monitor.receive_buffer_size um /\
   Monitor.fd um' = Monitor.fd um) /\
  (Monitor.receiving um = true -> Monitor.receiving um' = true) /\
  match l with
  | ThreadStart =>
      Monitor._started (monitor w') = true /\
      Monitor.enable_receiving_calls um' =
        Monitor.enable_receiving_calls um +
        (if Monitor._started (monitor w) then 0 else 1)
  | _ =>
      Monitor._started (monitor w') = Monitor._started (monitor w) /\
      Monitor.enable_receiving_calls um' = Monitor.enable_receiving_calls um
  end.
Proof.
  intros Hstep. cbv zeta.
  assert (Hsame : monitor w' = monitor w ->
            (Monitor.filters (Monitor._as_parameter_ (monitor w')) =
               Monitor.filters (Monitor._as_parameter_ (monitor w)) /\
             Monitor.filter_updates (Monitor._as_parameter_ (monitor w')) =
               Monitor.filter_updates (Monitor._as_parameter_ (monitor w)) /\
             Monitor.receive_buffer_size (Monitor._as_parameter_ (monitor w')) =
               Monitor.receive_buffer_size (Monitor._as_parameter_ (monitor w)) /\
             Monitor.fd (Monitor._as_parameter_ (monitor w')) =
               Monitor.fd (Monitor._as_parameter_ (monitor w))) /\
            (Monitor.receiving (Monitor._as_parameter_ (monitor w)) = true ->
             Monitor.receiving (Monitor._as_parameter_ (monitor w')) = true) /\
            Monitor._started (monitor w') = Monitor._started (monitor w) /\
            Monitor.enable_receiving_calls (Monitor._as_parameter_ (monitor w')) =
              Monitor.enable_receiving_calls (Monitor._as_parameter_ (monitor w))).
  { intros ->. conjuncts; auto. }
  destruct l; cbn [step] in Hstep.
  - inversion Hstep; subst; clear Hstep Hsame. cbn [monitor set_monitor].
    unfold Monitor.set_as_parameter, Monitor.deliver. cbn [Monitor._as_parameter_ Monitor._started].
    destruct (Monitor.receiving (Monitor._as_parameter_ (monitor w))) eqn:Hr;
      cbn; rewrite ?Hr; conjuncts; auto.
  - destruct (thread w); try discriminate.
    inversion Hstep; subst; clear Hstep Hsame.
    unfold on_monitor, Monitor.start. unfold_m.
    destruct (monitor w) as [um started]. cbn.
    destruct started; cbn; conjuncts; auto; lia.
  - destruct (thread w) as [|[|]|]; try discriminate.
    destruct (existsb (Z.eqb (_stop_event_source w)) fds && negb (stop_ready w));
      [discriminate|].
    inversion Hstep; subst. apply Hsame. reflexivity.
  - destruct (thread w) as [|[|fd rest]|]; try discriminate.
    assert (Hmon : monitor w' = monitor (fst (body fd w))).
    { destruct (body fd w) as [w1 [[|]|e|]]; cbn [after_body] in Hstep;
        try discriminate; inversion Hstep; subst; reflexivity. }
    destruct (body_monitor fd w) as [E|E]; rewrite E in Hmon.
    + apply Hsame. exact Hmon.
    + rewrite Hmon.
      destruct (poll_frame (Some 0%Q) (monitor w)) as (Hs & Hr & He & _).
      pose proof (poll_config (Some 0%Q) (monitor w)) as Hc. cbv zeta in Hc.
      split; [exact Hc|]. split; [intros H; rewrite Hr; exact H|].
      split; assumption.
  - inversion Hstep; subst. apply Hsame.
    destruct (send_stop_frame w) as (Hm & _). exact Hm.
  - inversion Hstep; subst. apply Hsame.
    destruct (send_stop_frame w) as (Hm & _). exact Hm.
  - apply Hsame. unfold try_except, join in Hstep.
    destruct (thread w); cbn in Hstep; try discriminate; inversion Hstep; reflexivity.
Qed.

Lemma step_stays_unstarted (l : label) (w w' : World) :
  step l w = Some w' -> thread w' = Unstarted -> l <> ThreadStart.
Proof.
  intros Hstep Hth ->. cbn [step] in Hstep.
  destruct (thread w); try discriminate.
  inversion Hstep; subst. discriminate.
Qed.

(** Along a trace: the configuration of the monitor stays, receiving is
    never disabled, and [enable_receiving] is called when the thread
    starts on a monitor that was not started, and at no other time. *)
Lemma exec_monitor (trace : list label) :
  forall w w' : World,
    exec trace w = Some w' ->
    let um := Monitor._as_parameter_ (monitor w) in
    let um' := Monitor._as_parameter_ (monitor w') in
    (Monitor.filters um' = Monitor.filters um /\
     Monitor.filter_updates um' = Monitor.filter_updates um /\
     Monitor.receive_buffer_size um' = Monitor.receive_buffer_size um /\
     Monitor.fd um' = Monitor.fd um) /\
    (Monitor.receiving um = true -> Monitor.receiving um' = true) /\
    (thread w <> Unstarted \/ thread w' = Unstarted ->
     Monitor._started (monitor w') = Monitor._started (monitor w) /\
     Monitor.enable_receiving_calls um' = Monitor.enable_receiving_calls um) /\
    (thread w = Unstarted -> thread w' <> Unstarted ->
     Monitor._started (monitor w') = true /\
     Monitor.enable_receiving_calls um' =
       Monitor.enable_receiving_calls um +
       (if Monitor._started (monitor w) then 0 else 1)).
Proof.
  induction trace as [|l trace IH]; intros w w' Hexec; cbv zeta.
  - inversion Hexec; subst.
    split; [conjuncts; reflexivity|]. split; [auto|]. split; [auto|].
    intros H1 H2. contradiction.
  - cbn [exec] in Hexec. destruct (step l w) as [w1|] eqn:Hstep; [|discriminate].
    destruct (step_monitor l w w1 Hstep) as (Hc & Hr & Hl).
    destruct (IH w1 w' Hexec) as (Hc' & Hr' & Hsame & Hstart).
    destruct (step_frame l w w1 Hstep) as (_ & _ & _ & Hstarted & _ & Hkeep).
    assert (Hlater : thread w1 <> Unstarted -> thread w' <> Unstarted).
    { intros H. exact (exec_started trace w1 w' H Hexec). }
    assert (Hplain : l <> ThreadStart ->
              Monitor._started (monitor w1) = Monitor._started (monitor w) /\
              Monitor.enable_receiving_calls (Monitor._as_parameter_ (monitor w1)) =
              Monitor.enable_receiving_calls (Monitor._as_parameter_ (monitor w))).
    { intros Hne. destruct l; try exact Hl. contradiction. }
    split; [|split; [|split]].
    + destruct Hc as (? & ? & ? & ?). destruct Hc' as (? & ? & ? & ?).
      conjuncts; congruence.
    + tauto.
    + intros Hcase.
      assert (Hboth : l <> ThreadStart /\
                      (thread w1 <> Unstarted \/ thread w' = Unstarted)).
      { destruct Hcase as [Hw|Hw'].
        - split; [|left; auto].
          intros ->. cbn [step] in Hstep. destruct (thread w); try discriminate.
          contradiction.
        - split; [|right; exact Hw'].
          apply (step_stays_unstarted l w w1 Hstep).
          destruct (thread w1) eqn:E1; [reflexivity| |];
            exfalso; apply Hlater; [discriminate|exact Hw'|discriminate|exact Hw']. }
      destruct Hboth as [Hne Hcase1].
      destruct (Hplain Hne) as (Hs & He). destruct (Hsame Hcase1) as (Hs1 & He1).
      split; congruence.
    + intros Hw Hw'.
      destruct (thread w1) eqn:E1 in |- .
      * assert (Hne : l <> ThreadStart)
          by exact (step_stays_unstarted l w w1 Hstep E1).
        destruct (Hplain Hne) as (Hs & He).
        destruct (Hstart E1 Hw') as (Hs1 & He1).
        rewrite Hs in He1. split; congruence.
      * assert (Hl' : l = ThreadStart).
        { destruct l; try reflexivity; exfalso;
            first [ cbn [step] in Hstep; rewrite Hw in Hstep; discriminate
                  | pose proof (Hkeep eq_refl ltac:(discriminate)
                                  ltac:(intros; discriminate)) as Hth;
                    congruence ]. }
        subst l. destruct Hl as (Hs & He).
        assert (Hrunning : thread w1 <> Unstarted) by (rewrite E1; discriminate).
        destruct (Hsame (or_introl Hrunning)) as (Hs1 & He1).
        split; congruence.
      * assert (Hl' : l = ThreadStart).
        { destruct l; try reflexivity; exfalso;
            first [ cbn [step] in Hstep; rewrite Hw in Hstep; discriminate
                  | pose proof (Hkeep eq_refl ltac:(discriminate)
                                  ltac:(intros; discriminate)) as Hth;
                    congruence ]. }
        subst l. destruct Hl as (Hs & He).
        assert (Hrunning : thread w1 <> Unstarted) by (rewrite E1; discriminate).
        destruct (Hsame (or_introl Hrunning)) as (Hs1 & He1).
        split; congruence.
Qed.

End ObserverLoopFacts.

(** X13.  A datagram that cannot be read ends the observer thread.  In an
    observer made by the constructor, after whatever happened, when the
    loop comes to an entry of a wake that is not the read end of the pipe
    and the oldest datagram on the socket is one libudev cannot read, on a
    monitor whose descriptor [select] takes: [run] ends with
    [EnvironmentError]; the datagram is gone from the socket and the
    callback is not invoked; the pipe is as it was, its read end open.
    From then on the thread stays finished with that error, the callback is
    never invoked and the read end is never closed, whatever is delivered
    or called; [stop()] from another thread still returns.  On a monitor
    whose descriptor [select] does not take, [run] ends with [ValueError]
    instead and the datagram stays on the socket. *)
Theorem X13_unreadable_datagram_ends_the_thread :
  forall (m : Monitor.t) (cb : Monitor.Device -> MonitorObserver.Action)
         (os_pipe : Z * Z) (w0 w : MonitorObserver.World)
         (trace : list MonitorObserver.label)
         (fd : Z) (rest : list Z) (queued : list Monitor.Datagram),
    MonitorObserver.__init__ m (Some cb) os_pipe = Return w0 ->
    MonitorObserver.exec trace w0 = Some w ->
    MonitorObserver.thread w = MonitorObserver.Alive (fd :: rest) ->
    fd <> MonitorObserver._stop_event_source w ->
    Monitor.socket (Monitor._as_parameter_ (MonitorObserver.monitor w)) =
      Monitor.Garbled :: queued ->
    let error :=
      if Monitor.selectable
           (Monitor.fd (Monitor._as_parameter_ (MonitorObserver.monitor w)))
      then EnvironmentError else ValueError in
    exists w' : MonitorObserver.World,
      MonitorObserver.step MonitorObserver.Body w = Some w' /\
      MonitorObserver.thread w' = MonitorObserver.Finished (Some error) /\
      Monitor.socket (Monitor._as_parameter_ (MonitorObserver.monitor w')) =
        (if Monitor.selectable
              (Monitor.fd (Monitor._as_parameter_ (MonitorObserver.monitor w)))
         then queued else Monitor.Garbled :: queued) /\
      MonitorObserver.invoked w' = MonitorObserver.invoked w /\
      MonitorObserver.pipe w' = MonitorObserver.pipe w /\
      MonitorObserver.read_open (MonitorObserver.pipe w') = true /\
      MonitorObserver._stop_event_sink w' = MonitorObserver._stop_event_sink w /\
      (forall (later : list MonitorObserver.label) (w'' : MonitorObserver.World),
         MonitorObserver.exec later w' = Some w'' ->
         MonitorObserver.thread w'' = MonitorObserver.Finished (Some error) /\
         MonitorObserver.invoked w'' = MonitorObserver.invoked w /\
         MonitorObserver.read_open (MonitorObserver.pipe w'') = true) /\
      (exists w'' : MonitorObserver.World,
         MonitorObserver.exec
           [MonitorObserver.StopSendStop; MonitorObserver.StopJoin] w' = Some w'').
Proof.
  intros m cb os_pipe w0 w trace fd rest queued Hinit Hexec Hth Hfd Hsock error.
  destruct (init_ok m cb os_pipe w0 Hinit) as (Hok0 & _).
  pose proof (exec_ok trace w0 w Hok0 Hexec) as Hok.
  assert (Hopen : MonitorObserver.read_open (MonitorObserver.pipe w) = true).
  { destruct Hok as [_ Hopen]. apply Hopen.
    unfold MonitorObserver.finished. rewrite Hth. reflexivity. }
  assert (Hbody : exists mon,
            MonitorObserver.body fd w =
              (MonitorObserver.set_monitor mon w, Raise error) /\
            Monitor.socket (Monitor._as_parameter_ mon) =
              (if Monitor.selectable
                    (Monitor.fd (Monitor._as_parameter_ (MonitorObserver.monitor w)))
               then queued else Monitor.Garbled :: queued)).
  { rewrite body_unfold. apply Z.eqb_neq in Hfd. rewrite Hfd.
    destruct (poll_zero w) as (um' & Hfst & _ & _ & Hcase).
    cbv zeta in Hcase. subst error. rewrite Hsock in Hcase.
    destruct (Monitor.selectable
                (Monitor.fd (Monitor._as_parameter_ (MonitorObserver.monitor w))));
      destruct Hcase as [Hsnd Hrest];
      destruct (MonitorObserver.on_monitor (Monitor.poll (Some 0%Q)) w) as [w1 o];
      cbn [fst snd] in Hfst, Hsnd; subst w1 o;
      exists (Monitor.set_as_parameter um' (MonitorObserver.monitor w));
      (split; [reflexivity|exact Hrest]). }
  destruct Hbody as (mon & Hbody & Hqueued).
  assert (Hstep : MonitorObserver.step MonitorObserver.Body w =
            Some (MonitorObserver.set_thread
                    (MonitorObserver.Finished (Some error))
                    (MonitorObserver.set_monitor mon w))).
  { cbn [MonitorObserver.step]. rewrite Hth, Hbody. reflexivity. }
  pose proof (step_ok _ _ _ Hok Hstep) as Hok'.
  eexists. split; [exact Hstep|].
  split; [reflexivity|]. split; [exact Hqueued|]. split; [reflexivity|].
  split; [reflexivity|]. split; [exact Hopen|]. split; [reflexivity|]. split.
  - intros later w'' Hlater.
    destruct (exec_after_finish later _ w'' Hok' eq_refl Hlater) as (H1 & H2 & H3).
    conjuncts.
    + rewrite H1. reflexivity.
    + rewrite H3. reflexivity.
    + rewrite H2. exact Hopen.
  - destruct Hok' as [Hpipe' _].
    destruct (send_stop_ok _ Hpipe') as (w1 & Hss & _).
    pose proof (send_stop_frame
                  (MonitorObserver.set_thread
                     (MonitorObserver.Finished (Some error))
                     (MonitorObserver.set_monitor mon w))) as Hframe.
    rewrite Hss in Hframe. cbn [fst] in Hframe. destruct Hframe as (_ & Hth1 & _).
    exists w1. cbn [MonitorObserver.exec MonitorObserver.step]. rewrite Hss.
    cbn [fst]. unfold try_except, MonitorObserver.join. rewrite Hth1. reflexivity.
Qed.

Lemma X13_unreadable_datagram_ends_the_thread_witness :
  exists w' : MonitorObserver.World,
    MonitorObserver.step MonitorObserver.Body
      (Example.after [MonitorObserver.ThreadStart;
                      MonitorObserver.Deliver Monitor.Garbled;
                      MonitorObserver.Wake [5%Z]] (Example.created Example.quiet)) =
      Some w' /\
    MonitorObserver.thread w' = MonitorObserver.Finished (Some EnvironmentError) /\
    MonitorObserver.read_open (MonitorObserver.pipe w') = true.
Proof.
  destruct (X13_unreadable_datagram_ends_the_thread
              Example.monitor5 Example.quiet Example.pipe34
              (Example.created Example.quiet)
              (Example.after [MonitorObserver.ThreadStart;
                              MonitorObserver.Deliver Monitor.Garbled;
                              MonitorObserver.Wake [5%Z]]
                 (Example.created Example.quiet))
              [MonitorObserver.ThreadStart;
               MonitorObserver.Deliver Monitor.Garbled;
               MonitorObserver.Wake [5%Z]]
              5%Z [] [])
    as (w' & Hstep & Hth & _ & _ & _ & Hopen & _).
  - reflexivity.
  - vm_compute; reflexivity.
  - vm_compute; reflexivity.
  - vm_compute; discriminate.
  - vm_compute; reflexivity.
  - exists w'. conjuncts; assumption.
Defined.

(** X14.  The observer and the monitor underneath.  In an observer made
    by the constructor on a monitor, after whatever happened (deliveries,
    the thread starting and running its loop with any callback,
    [send_stop()] and [stop()] calls): the filters of the monitor, the
    count of filter updates, its buffer size and its descriptor are those
    of the monitor given; a monitor that was started is still started and
    one that was receiving is still receiving, the monitor is not stopped.
    While the thread is not started the observer has not started the
    monitor; from the moment the thread starts the monitor is started, and
    receiving was enabled once for a monitor that was not started and not
    at all for one that was. *)
Theorem X14_observer_and_the_monitor_underneath :
  forall (m : Monitor.t) (cb : Monitor.Device -> MonitorObserver.Action)
         (os_pipe : Z * Z) (w0 w : MonitorObserver.World)
         (trace : list MonitorObserver.label),
    MonitorObserver.__init__ m (Some cb) os_pipe = Return w0 ->
    MonitorObserver.exec trace w0 = Some w ->
    let um := Monitor._as_parameter_ m in
    let um' := Monitor._as_parameter_ (MonitorObserver.monitor w) in
    (Monitor.filters um' = Monitor.filters um /\
     Monitor.filter_updates um' = Monitor.filter_updates um /\
     Monitor.receive_buffer_size um' = Monitor.receive_buffer_size um /\
     Monitor.fd um' = Monitor.fd um) /\
    (Monitor._started m = true ->
     Monitor._started (MonitorObserver.monitor w) = true) /\
    (Monitor.receiving um = true -> Monitor.receiving um' = true) /\
    match MonitorObserver.thread w with
    | MonitorObserver.Unstarted =>
        Monitor._started (MonitorObserver.monitor w) = Monitor._started m /\
        Monitor.enable_receiving_calls um' = Monitor.enable_receiving_calls um
    | _ =>
        Monitor._started (MonitorObserver.monitor w) = true /\
        Monitor.enable_receiving_calls um' =
          Monitor.enable_receiving_calls um + (if Monitor._started m then 0 else 1)
    end.
Proof.
  intros m cb os_pipe w0 w trace Hinit Hexec um um'.
  destruct (init_ok m cb os_pipe w0 Hinit) as (_ & Hth0 & _ & Hm0).
  destruct (exec_monitor trace w0 w Hexec) as (Hc & Hr & Hsame & Hstart).
  rewrite Hm0 in Hc, Hr, Hsame, Hstart. fold um um' in Hc, Hr, Hsame, Hstart.
  split; [exact Hc|].
  assert (Hthread :
    match MonitorObserver.thread w with
    | MonitorObserver.Unstarted =>
        Monitor._started (MonitorObserver.monitor w) = Monitor._started m /\
        Monitor.enable_receiving_calls um' = Monitor.enable_receiving_calls um
    | _ =>
        Monitor._started (MonitorObserver.monitor w) = true /\
        Monitor.enable_receiving_calls um' =
          Monitor.enable_receiving_calls um + (if Monitor._started m then 0 else 1)
    end).
  { destruct (MonitorObserver.thread w) eqn:E.
    - apply Hsame. right. reflexivity.
    - apply (Hstart Hth0). discriminate.
    - apply (Hstart Hth0). discriminate. }
  split; [|split; [exact Hr|exact Hthread]].
  intros Hstarted. destruct (MonitorObserver.thread w); destruct Hthread as [Hs _];
    congruence.
Qed.

Lemma X14_observer_and_the_monitor_underneath_witness :
  Monitor._started (MonitorObserver.monitor Example.racing) = true /\
  Monitor.enable_receiving_calls
    (Monitor._as_parameter_ (MonitorObserver.monitor Example.racing)) = 1 /\
  Monitor.filters
    (Monitor._as_parameter_ (MonitorObserver.monitor Example.racing)) = [].
Proof.
  pose proof (X14_observer_and_the_monitor_underneath
                Example.monitor5 Example.quiet Example.pipe34
                (Example.created Example.quiet) Example.racing
                [MonitorObserver.ThreadStart;
                 MonitorObserver.Deliver (Monitor.Event 7);
                 MonitorObserver.SendStop] eq_refl eq_refl) as H.
  cbv zeta in H. destruct H as ((Hf & _) & _ & _ & Hthread).
  assert (Hth : MonitorObserver.thread Example.racing = MonitorObserver.Alive [])
    by (vm_compute; reflexivity).
  rewrite Hth in Hthread. destruct Hthread as [Hs He].
  conjuncts; [exact Hs|exact He|exact Hf].
Defined.


(** X15.  The methods that configure a monitor ([filter_by],
    [filter_by_tag], [remove_filter], [set_receive_buffer_size]) on any
    monitor, started or not.  None of them starts the monitor, enables
    receiving, receives or touches the socket, whether it returns or
    raises; one that returns, followed by [start()], leaves the monitor as
    [start()] followed by it does.  [filter_by] and [filter_by_tag] return,
    having added their filter after the filters there are and made one
    filter update.  [remove_filter] removes the filters and makes one
    filter update, or, on a daemon whose removal is broken, raises
    [ValueError] with the filters as they were and no update made.
    [set_receive_buffer_size] sets the size and makes no filter update, or,
    in a process without the capability, raises [EnvironmentError] and
    changes nothing. *)
Theorem X15_configuring_a_monitor :
  forall (self : Monitor.t) (subsystem tag : string) (device_type : option string)
         (size : Z) (permitted broken : bool),
    let um := Monitor._as_parameter_ self in
    Forall
      (fun method : M Monitor.t unit =>
         let um' := Monitor._as_parameter_ (fst (method self)) in
         Monitor._started (fst (method self)) = Monitor._started self /\
         Monitor.receiving um' = Monitor.receiving um /\
         Monitor.enable_receiving_calls um' = Monitor.enable_receiving_calls um /\
         Monitor.receive_device_calls um' = Monitor.receive_device_calls um /\
         Monitor.socket um' = Monitor.socket um /\
         Monitor.delivered um' = Monitor.delivered um /\
         (snd (method self) = Return tt ->
          bind method (fun _ => Monitor.start) self =
          bind Monitor.start (fun _ => method) self))
      [Monitor.filter_by subsystem device_type; Monitor.filter_by_tag tag;
       Monitor.remove_filter broken;
       Monitor.set_receive_buffer_size permitted size] /\
    (let um' := Monitor._as_parameter_
                  (fst (Monitor.filter_by subsystem device_type self)) in
     snd (Monitor.filter_by subsystem device_type self) = Return tt /\
     Monitor.filters um' =
       Monitor.filters um ++ [Monitor.MatchSubsystemDevtype subsystem device_type] /\
     Monitor.filter_updates um' = S (Monitor.filter_updates um)) /\
    (let um' := Monitor._as_parameter_ (fst (Monitor.filter_by_tag tag self)) in
     snd (Monitor.filter_by_tag tag self) = Return tt /\
     Monitor.filters um' = Monitor.filters um ++ [Monitor.MatchTag tag] /\
     Monitor.filter_updates um' = S (Monitor.filter_updates um)) /\
    (let um' := Monitor._as_parameter_ (fst (Monitor.remove_filter false self)) in
     snd (Monitor.remove_filter false self) = Return tt /\
     Monitor.filters um' = [] /\
     Monitor.filter_updates um' = S (Monitor.filter_updates um)) /\
    Monitor.remove_filter true self = (self, Raise ValueError) /\
    (let um' := Monitor._as_parameter_
                  (fst (Monitor.set_receive_buffer_size true size self)) in
     snd (Monitor.set_receive_buffer_size true size self) = Return tt /\
     Monitor.filters um' = Monitor.filters um /\
     Monitor.filter_updates um' = Monitor.filter_updates um /\
     Monitor.receive_buffer_size um' = Some size) /\
    Monitor.set_receive_buffer_size false size self = (self, Raise EnvironmentError).
Proof.
  intros [um started] subsystem tag device_type size permitted broken. cbv zeta.
  split.
  - repeat constructor; destruct started, broken, permitted;
      try reflexivity; discriminate.
  - destruct device_type; conjuncts; reflexivity.
Qed.

Section WakeFacts.

Import MonitorObserver.

(** What [poll(timeout=0)] takes from the socket: nothing from an empty
    one, else the oldest datagram, with one receive call. *)
Lemma poll_zero_taken (self : Monitor.t) :
  let um := Monitor._as_parameter_ self in
  let um' := Monitor._as_parameter_ (fst (Monitor.poll (Some 0%Q) self)) in
  exists taken : list Monitor.Datagram,
    Monitor.socket um = taken ++ Monitor.socket um' /\
    List.length taken <= 1 /\
    Monitor.receive_device_calls um' =
      Monitor.receive_device_calls um + List.length taken /\
    match snd (Monitor.poll (Some 0%Q) self) with
    | Return (Some d) => Monitor.devices taken = [d]
    | Return None => taken = []
    | Raise _ => Monitor.devices taken = []
    | Blocks => False
    end.
Proof.
  cbv zeta.
  unfold Monitor.poll, Monitor.select_select, Monitor.fileno,
    Monitor.libudev, Monitor.udev_monitor_get_fd,
    Monitor.udev_monitor_receive_device, bind.
  destruct self as [um flag]. cbn [Monitor._as_parameter_].
  change (Monitor.timeout_error (Some 0%Q)) with (@None exn). cbv iota.
  destruct (Monitor.selectable (Monitor.fd um)); cbn [negb];
    [|exists []; simpl; conjuncts; auto].
  destruct (Monitor.socket um) as [|[p|] rest] eqn:Hsock.
  - exists []. simpl. rewrite Hsock. conjuncts; auto.
  - simpl. rewrite Z.eqb_refl. simpl. rewrite Hsock. simpl.
    exists [Monitor.Event p]. conjuncts; auto. simpl. lia.
  - simpl. rewrite Z.eqb_refl. simpl. rewrite Hsock. simpl.
    exists [Monitor.Garbled]. conjuncts; auto. simpl. lia.
Qed.

(** One entry of a wake takes at most one datagram from the socket, and
    the callback is invoked with the device it holds, if any. *)
Lemma body_taken (fd : Z) (w : World) :
  let um := Monitor._as_parameter_ (monitor w) in
  let w' := fst (body fd w) in
  let um' := Monitor._as_parameter_ (monitor w') in
  exists taken : list Monitor.Datagram,
    Monitor.socket um = taken ++ Monitor.socket um' /\
    List.length taken <= 1 /\
    Monitor.receive_device_calls um' =
      Monitor.receive_device_calls um + List.length taken /\
    invoked w' = invoked w ++ Monitor.devices taken /\
    (fd = _stop_event_source w -> taken = []).
Proof.
  cbv zeta. rewrite body_unfold.
  destruct (Z.eqb_spec fd (_stop_event_source w)) as [Hfd|Hfd].
  - exists []. cbn [app List.length Monitor.devices]. rewrite app_nil_r, Nat.add_0_r.
    unfold os_close.
    destruct ((_stop_event_source w =? write_end (pipe w))%Z && write_open (pipe w));
      [conjuncts; auto|].
    destruct ((_stop_event_source w =? read_end (pipe w))%Z && read_open (pipe w));
      conjuncts; auto.
  - destruct (poll_zero_taken (monitor w)) as (taken & Hsock & Hlen & Hcalls & Hout).
    unfold on_monitor.
    destruct (Monitor.poll (Some 0%Q) (monitor w)) as [mon o].
    cbn [fst snd] in Hsock, Hcalls, Hout.
    exists taken.
    assert (Hcall : forall d,
              monitor (fst (call_callback d (set_monitor mon w))) = mon /\
              invoked (fst (call_callback d (set_monitor mon w))) = invoked w ++ [d]).
    { intros d. rewrite call_callback_unfold.
      destruct (_callback (set_monitor mon w) d).
      - split; reflexivity.
      - destruct (send_stop_frame (record_call d (set_monitor mon w)))
          as (Hm & _ & Hi & _).
        rewrite Hm, Hi. split; reflexivity.
      - destruct (send_stop_frame (record_call d (set_monitor mon w)))
          as (Hm & _ & Hi & _).
        rewrite Hm, Hi. split; reflexivity.
      - split; reflexivity. }
    destruct o as [[d|]|e|]; cbn [fst].
    + destruct (Hcall d) as [Hm Hi].
      destruct (call_callback d (set_monitor mon w)) as [w2 [u|e|]];
        cbn [fst] in *; rewrite Hm, Hi, Hout; conjuncts; auto; contradiction.
    + subst taken. cbn [set_monitor monitor invoked Monitor.devices].
      rewrite app_nil_r. conjuncts; auto.
    + rewrite Hout. cbn [set_monitor monitor invoked].
      rewrite app_nil_r. conjuncts; auto. contradiction.
    + contradiction.
Qed.

Lemma for_loop_taken (fds : list Z) :
  forall w : World,
    let um := Monitor._as_parameter_ (monitor w) in
    let w' := fst (for_loop fds w) in
    let um' := Monitor._as_parameter_ (monitor w') in
    exists taken : list Monitor.Datagram,
      Monitor.socket um = taken ++ Monitor.socket um' /\
      List.length taken <= List.length fds /\
      Monitor.receive_device_calls um' =
        Monitor.receive_device_calls um + List.length taken /\
      invoked w' = invoked w ++ Monitor.devices taken.
Proof.
  induction fds as [|fd fds IH]; intros w; cbv zeta.
  - exists []. cbn. rewrite app_nil_r, Nat.add_0_r. conjuncts; auto.
  - destruct (body_taken fd w) as (taken & Hsock & Hlen & Hcalls & Hinv & _).
    cbn [for_loop]. unfold bind.
    destruct (body fd w) as [w1 [[|]|e|]]; cbn [fst] in *.
    + destruct (IH w1) as (taken' & Hsock' & Hlen' & Hcalls' & Hinv').
      exists (taken ++ taken'). rewrite Hsock, Hsock', Hcalls', Hcalls, Hinv', Hinv.
      rewrite devices_app, !length_app, <- !app_assoc. cbn [List.length].
      conjuncts; auto; lia.
    + exists taken. cbn [List.length]. conjuncts; auto. lia.
    + exists taken. cbn [List.length]. conjuncts; auto. lia.
    + exists taken. cbn [List.length]. conjuncts; auto. lia.
Qed.

End WakeFacts.

(** X16.  One wake of the loop of [run], in any state of the observer:
    each entry of the wake takes at most one datagram from the socket, the
    oldest, by one receive call, and an entry that is the read end of the
    pipe takes none.  So the loop over a wake takes a first part of the
    socket no longer than the wake, makes one receive call for each
    datagram taken, and the callback is invoked with the devices among
    those datagrams, in their order; what is queued beyond that stays on
    the socket for a later wake. *)
Theorem X16_one_datagram_for_each_entry_of_a_wake :
  forall (fds : list Z) (w : MonitorObserver.World),
    let um := Monitor._as_parameter_ (MonitorObserver.monitor w) in
    let w' := fst (MonitorObserver.for_loop fds w) in
    let um' := Monitor._as_parameter_ (MonitorObserver.monitor w') in
    (exists taken : list Monitor.Datagram,
       Monitor.socket um = taken ++ Monitor.socket um' /\
       List.length taken <= List.length fds /\
       Monitor.receive_device_calls um' =
         Monitor.receive_device_calls um + List.length taken /\
       MonitorObserver.invoked w' =
         MonitorObserver.invoked w ++ Monitor.devices taken) /\
    (forall fd : Z,
       fds = [fd] -> fd = MonitorObserver._stop_event_source w ->
       Monitor.socket um' = Monitor.socket um /\
       MonitorObserver.invoked w' = MonitorObserver.invoked w).
Proof.
  intros fds w. cbv zeta. split; [apply for_loop_taken|].
  intros fd -> Hfd.
  destruct (body_taken fd w) as (taken & Hsock & _ & _ & Hinv & Hstop).
  rewrite (Hstop Hfd) in Hsock, Hinv. cbn [app Monitor.devices] in Hsock, Hinv.
  rewrite app_nil_r in Hinv.
  cbn [MonitorObserver.for_loop]. unfold bind, ret.
  destruct (MonitorObserver.body fd w) as [w1 [[|]|e|]]; cbn [fst] in *;
    split; congruence.
Qed.

(** ** The test plugin: strings and dictionaries *)

Section StringFacts.

Import Str.

Lemma append_nil_r (s : string) : (s ++ "")%string = s.
Proof. induction s as [|c s IH]; simpl; congruence. Qed.

Lemma append_assoc (a b c : string) :
  ((a ++ b) ++ c)%string = (a ++ (b ++ c))%string.
Proof. induction a as [|x a IH]; simpl; congruence. Qed.

Lemma prefix_nil (s : string) : String.prefix "" s = true.
Proof. destruct s; reflexivity. Qed.

(** A separator of one byte starts a text when the text's first byte is
    that byte. *)
Lemma prefix_one (c x : ascii) (r : string) :
  String.prefix (String c "") (String x r) = Ascii.eqb x c.
Proof.
  simpl. destruct (ascii_dec c x) as [->|Hne].
  - rewrite prefix_nil, Ascii.eqb_refl. reflexivity.
  - symmetry. apply Ascii.eqb_neq. congruence.
Qed.

(** A separator does not start a text whose first byte differs from the
    separator's. *)
Lemma prefix_other (c x : ascii) (sep r : string) :
  Ascii.eqb x c = false -> String.prefix (String c sep) (String x r) = false.
Proof.
  intros H. simpl. destruct (ascii_dec c x) as [->|Hne]; [|reflexivity].
  rewrite Ascii.eqb_refl in H. discriminate.
Qed.

Lemma prefix_append (p s : string) : String.prefix p (p ++ s)%string = true.
Proof.
  induction p as [|c p IH]; simpl.
  - apply prefix_nil.
  - destruct (ascii_dec c c); [exact IH|congruence].
Qed.

Lemma drop_append (p s : string) : drop (String.length p) (p ++ s)%string = s.
Proof. induction p as [|c p IH]; simpl; auto. Qed.

(** The first occurrence of a separator is found behind a text that has
    none of the separator's first byte. *)
Lemma cut_append (c : ascii) (sep a b : string) :
  lacks c a = true ->
  cut (String c sep) (a ++ String c sep ++ b)%string = Some (a, b).
Proof.
  induction a as [|x a IH]; intros Hl.
  - change (("" ++ String c sep ++ b)%string) with (String c (sep ++ b)%string).
    unfold cut.
    replace (String.prefix (String c sep) (String c (sep ++ b)))
      with true by (symmetry; apply (prefix_append (String c sep) b)).
    f_equal. f_equal. apply (drop_append (String c sep) b).
  - simpl in Hl. apply andb_true_iff in Hl. destruct Hl as [Hx Hl].
    apply negb_true_iff in Hx.
    change ((String x a ++ String c sep ++ b)%string)
      with (String x (a ++ String c sep ++ b)%string).
    cbn [cut]. rewrite (prefix_other c x sep _ Hx), (IH Hl). reflexivity.
Qed.

Lemma cut_lacks (c : ascii) (sep s : string) :
  lacks c s = true -> cut (String c sep) s = None.
Proof.
  induction s as [|x s IH]; intros Hl; [reflexivity|].
  simpl in Hl. apply andb_true_iff in Hl. destruct Hl as [Hx Hl].
  apply negb_true_iff in Hx.
  cbn [cut]. rewrite (prefix_other c x sep _ Hx), (IH Hl). reflexivity.
Qed.

(** Text that ends in a byte that is not white space is left alone by
    [rstrip]. *)
Lemma rstrip_fixed_cons (c : ascii) (s : string) :
  rstrip s = s -> s <> EmptyString -> rstrip (String c s) = String c s.
Proof.
  intros Hs Hne. simpl. rewrite Hs. destruct s; [contradiction|reflexivity].
Qed.

Lemma rstrip_append (a b : string) :
  rstrip b = b -> b <> EmptyString -> rstrip (a ++ b)%string = (a ++ b)%string.
Proof.
  intros Hb Hne. induction a as [|x a IH]; [exact Hb|].
  simpl append. apply rstrip_fixed_cons; [exact IH|].
  destruct a; simpl; [exact Hne|discriminate].
Qed.

Lemma rstrip_last (a : string) (c : ascii) :
  isspace c = false ->
  rstrip (a ++ String c "")%string = (a ++ String c "")%string.
Proof.
  intros Hc. apply rstrip_append; [|discriminate].
  simpl. rewrite Hc. reflexivity.
Qed.

(** White space in front goes; the text behind it stays when it starts
    with another byte. *)
Lemma lstrip_indent (indent : string) (c : ascii) (s : string) :
  (forall x, lacks x indent = false -> isspace x = true) ->
  isspace c = false ->
  lstrip (indent ++ String c s)%string = String c s.
Proof.
  intros Hind Hc. induction indent as [|x indent IH].
  - simpl. rewrite Hc. reflexivity.
  - simpl. rewrite (Hind x).
    + apply IH. intros y Hy. apply Hind. simpl. rewrite Hy. apply andb_false_r.
    + simpl. rewrite Ascii.eqb_refl. reflexivity.
Qed.

Lemma all_continuation_last (a : string) (c : ascii) :
  continuation c = false -> all_continuation (a ++ String c "")%string = false.
Proof.
  intros Hc. induction a as [|x a IH]; cbn [append all_continuation].
  - rewrite Hc. reflexivity.
  - rewrite IH. apply andb_false_r.
Qed.

Lemma init_last (a : string) (c : ascii) :
  continuation c = false -> init (a ++ String c "")%string = a.
Proof.
  intros Hc. induction a as [|x a IH]; [reflexivity|].
  cbn [append init]. rewrite (all_continuation_last a c Hc), IH. reflexivity.
Qed.

(** Behind a first character of one byte comes the rest of the text,
    when the rest starts with a character. *)
Lemma tail_one (c x : ascii) (s : string) :
  continuation x = false -> tail (String c (String x s)) = String x s.
Proof. intros Hx. cbn [tail drop_continuation]. rewrite Hx. reflexivity. Qed.

Lemma until_last_end (c : ascii) (a : string) :
  until_last c (a ++ String c "")%string = Some a.
Proof.
  induction a as [|x a IH]; simpl.
  - rewrite Ascii.eqb_refl. reflexivity.
  - rewrite IH. reflexivity.
Qed.

Lemma first_line_whole (s : string) :
  lacks "010"%char s = true -> first_line s = s.
Proof.
  induction s as [|x s IH]; intros H; [reflexivity|].
  simpl in *. apply andb_true_iff in H. destruct H as [Hx Hs].
  apply negb_true_iff in Hx. rewrite Hx, (IH Hs). reflexivity.
Qed.

Lemma lacks_append (c : ascii) (a b : string) :
  lacks c (a ++ b)%string = lacks c a && lacks c b.
Proof.
  induction a as [|x a IH]; simpl; [reflexivity|].
  rewrite IH. apply andb_assoc.
Qed.

(** [split] on a byte: a text without the byte is one part, and a part
    without the byte in front of the byte is the first part. *)
Lemma split_lacks (c : ascii) (s : string) :
  lacks c s = true -> split c s = [s].
Proof.
  induction s as [|x s IH]; intros H; [reflexivity|].
  simpl in *. apply andb_true_iff in H. destruct H as [Hx Hs].
  apply negb_true_iff in Hx. rewrite Hx, (IH Hs). reflexivity.
Qed.

Lemma split_append (c : ascii) (a b : string) :
  lacks c a = true ->
  split c (a ++ String c b)%string = a :: split c b.
Proof.
  induction a as [|x a IH]; intros H.
  - simpl. rewrite Ascii.eqb_refl. reflexivity.
  - simpl in *. apply andb_true_iff in H. destruct H as [Hx Hs].
    apply negb_true_iff in Hx. rewrite Hx, (IH Hs). reflexivity.
Qed.

Lemma split_parts_lack (c : ascii) (s : string) :
  Forall (fun part => lacks c part = true) (split c s).
Proof.
  induction s as [|x s IH]; simpl.
  - repeat constructor.
  - destruct (Ascii.eqb x c) eqn:Hx.
    + constructor; [reflexivity|exact IH].
    + destruct (split c s) as [|h t]; inversion IH; subst.
      * repeat constructor. simpl. rewrite Hx. reflexivity.
      * constructor; [|assumption]. simpl. rewrite Hx. simpl. assumption.
Qed.

Lemma space_width_ascii (c : ascii) (r : string) :
  space_width (String c r) = 0 -> isspace_text c = false.
Proof.
  cbn [space_width]. destruct (isspace_text c); [discriminate|reflexivity].
Qed.

(** The parts [split()] gives are not empty and hold no ASCII white
    space. *)
Lemma words_from_plain (s : string) :
  forall skip : nat,
    Forall (fun word => word <> EmptyString /\
                        forall x, isspace_text x = true -> lacks x word = true)
           (words_from skip s).
Proof.
  induction s as [|c s IH]; intros skip; [constructor|].
  cbn [words_from]. destruct skip as [|k]; [|apply IH].
  destruct (space_width (String c s)) as [|k] eqn:Hwidth; [|apply IH].
  pose proof (space_width_ascii c s Hwidth) as Hc.
  assert (Hone : forall x, isspace_text x = true -> lacks x (String c "") = true).
  { intros x Hx. simpl. rewrite andb_true_r. apply negb_true_iff.
    apply Ascii.eqb_neq. intros ->. congruence. }
  destruct s as [|c' s'].
  - repeat constructor; [discriminate|exact Hone].
  - destruct (0 <? space_width (String c' s')).
    + constructor; [split; [discriminate|exact Hone]|apply IH].
    + specialize (IH 0).
      destruct (words_from 0 (String c' s')) as [|h t]; inversion IH; subst.
      * repeat constructor; [discriminate|exact Hone].
      * constructor; [|assumption]. split; [discriminate|].
        intros x Hx. simpl. destruct H1 as [_ Hh]. rewrite (Hh x Hx).
        rewrite andb_true_r. apply negb_true_iff.
        apply Ascii.eqb_neq. intros ->. congruence.
Qed.

Lemma words_plain (s : string) :
  Forall (fun word => word <> EmptyString /\
                      forall x, isspace_text x = true -> lacks x word = true)
         (words s).
Proof. apply words_from_plain. Qed.

End StringFacts.

Section DictFacts.

Context {V : Type}.

Lemma get_none_keys (k : string) (d : Dict.t V) :
  Dict.get k d = None <-> ~ In k (Dict.keys d).
Proof.
  induction d as [|[k' v] d IH]; simpl.
  - tauto.
  - destruct (String.eqb_spec k' k) as [->|Hne].
    + split; [discriminate|]. intros H. exfalso. apply H. auto.
    + rewrite IH. split; [intros H [?|?]; [contradiction|auto]|tauto].
Qed.

Lemma get_in (k : string) (v : V) (d : Dict.t V) :
  Dict.get k d = Some v -> In (k, v) d.
Proof.
  induction d as [|[k' v'] d IH]; simpl; [discriminate|].
  destruct (String.eqb_spec k' k) as [->|Hne].
  - intros H. inversion H. auto.
  - auto.
Qed.

Lemma in_get (k : string) (v : V) (d : Dict.t V) :
  NoDup (Dict.keys d) -> In (k, v) d -> Dict.get k d = Some v.
Proof.
  induction d as [|[k' v'] d IH]; simpl; [tauto|].
  intros Hnd [Heq|Hin].
  - inversion Heq; subst. rewrite String.eqb_refl. reflexivity.
  - inversion Hnd; subst.
    destruct (String.eqb_spec k' k) as [->|Hne]; [|auto].
    exfalso. apply H1. change k with (fst (k, v)). apply in_map. exact Hin.
Qed.

Lemma set_keys_present (k : string) (v : V) (d : Dict.t V) :
  In k (Dict.keys d) -> Dict.keys (Dict.set k v d) = Dict.keys d.
Proof.
  induction d as [|[k' v'] d IH]; simpl; [tauto|].
  destruct (String.eqb_spec k' k) as [->|Hne]; [reflexivity|].
  intros [?|Hin]; [contradiction|]. simpl. f_equal. apply IH. exact Hin.
Qed.

Lemma set_absent (k : string) (v : V) (d : Dict.t V) :
  ~ In k (Dict.keys d) -> Dict.set k v d = d ++ [(k, v)].
Proof.
  induction d as [|[k' v'] d IH]; simpl; [reflexivity|].
  intros H. destruct (String.eqb_spec k' k) as [->|Hne].
  - exfalso. apply H. auto.
  - f_equal. apply IH. tauto.
Qed.

Lemma get_last (k : string) (v : V) (d : Dict.t V) :
  ~ In k (Dict.keys d) -> Dict.get k (d ++ [(k, v)]) = Some v.
Proof.
  induction d as [|[k' v'] d IH]; simpl.
  - rewrite String.eqb_refl. reflexivity.
  - intros H. destruct (String.eqb_spec k' k) as [->|Hne].
    + exfalso. apply H. auto.
    + apply IH. tauto.
Qed.

Lemma set_last (k : string) (v v' : V) (d : Dict.t V) :
  ~ In k (Dict.keys d) -> Dict.set k v' (d ++ [(k, v)]) = d ++ [(k, v')].
Proof.
  induction d as [|[k0 v0] d IH]; simpl.
  - rewrite String.eqb_refl. reflexivity.
  - intros H. destruct (String.eqb_spec k0 k) as [->|Hne].
    + exfalso. apply H. auto.
    + f_equal. apply IH. tauto.
Qed.

Lemma setdefault_keys (k : string) (v : V) (d : Dict.t V) :
  NoDup (Dict.keys d) -> NoDup (Dict.keys (Dict.setdefault k v d)).
Proof.
  intros Hnd. unfold Dict.setdefault.
  destruct (Dict.get k d) eqn:E; [exact Hnd|].
  apply get_none_keys in E.
  unfold Dict.keys. rewrite map_app. simpl.
  apply NoDup_app; [exact Hnd|repeat constructor; intros []|].
  intros x Hx [<-|[]]. exact (E Hx).
Qed.

End DictFacts.

(** ** The test plugin: the database *)

Section DatabaseFacts.

Import UdevDatabase.

Lemma filter_dict_get (d : Dict.t string) (blacklist : list string) (k : string) :
  Dict.get k (_filter_dict d blacklist) =
  if existsb (String.eqb k) blacklist then None else Dict.get k d.
Proof.
  induction d as [|[k' v] d IH]; simpl.
  - destruct (existsb _ blacklist); reflexivity.
  - destruct (existsb (String.eqb k') blacklist) eqn:Hk'; simpl.
    + rewrite IH. destruct (String.eqb_spec k' k) as [->|Hne]; [|reflexivity].
      rewrite Hk'. reflexivity.
    + rewrite IH. destruct (String.eqb_spec k' k) as [->|Hne]; [|reflexivity].
      rewrite Hk'. reflexivity.
Qed.

Lemma filter_dict_again (d : Dict.t string) (blacklist : list string) :
  _filter_dict (_filter_dict d blacklist) blacklist = _filter_dict d blacklist.
Proof.
  unfold _filter_dict. induction d as [|[k v] d IH]; simpl; [reflexivity|].
  destruct (existsb (String.eqb k) blacklist) eqn:Hk; simpl; [exact IH|].
  rewrite Hk. simpl. f_equal. exact IH.
Qed.

Lemma existsb_eqb_in (k : string) (l : list string) :
  existsb (String.eqb k) l = true <-> In k l.
Proof.
  rewrite existsb_exists. split.
  - intros (x & Hx & Heq). apply String.eqb_eq in Heq. subst. exact Hx.
  - intros H. exists k. split; [exact H|apply String.eqb_refl].
Qed.

Lemma setdefault_has_key {V : Type} (k : string) (v : V) (d : Dict.t V) :
  In k (Dict.keys (Dict.setdefault k v d)).
Proof.
  unfold Dict.setdefault. destruct (Dict.get k d) eqn:E.
  - apply get_in in E. change k with (fst (k, v0)). apply in_map. exact E.
  - unfold Dict.keys. rewrite map_app. apply in_or_app. right. simpl. auto.
Qed.

Lemma set_property_keys (path property value : string)
  (devices : Dict.t (Dict.t string)) :
  Dict.keys (UDevAdm.set_property path property value devices) = Dict.keys devices.
Proof.
  unfold UDevAdm.set_property.
  destruct (Dict.get path devices) eqn:E; [|reflexivity].
  apply set_keys_present. apply get_in in E.
  change path with (fst (path, t)). apply in_map. exact E.
Qed.

Lemma read_devices_line_ok (encoding : Codec.t) (st st' : UDevAdm.reading)
  (line : string) :
  UDevAdm.reading_ok st -> UDevAdm.read_devices_line encoding st line = Ok st' ->
  UDevAdm.reading_ok st'.
Proof.
  intros [Hnd Hcur]. unfold UDevAdm.read_devices_line.
  destruct (decode encoding (Str.strip line)) as [text|e]; [|discriminate].
  destruct (String.eqb text ""); [intros H; inversion H; subst; split; assumption|].
  destruct (unpack2 (Str.split1 ": " text)) as [[type value]|e];
    [|discriminate].
  destruct (String.eqb type "P").
  - intros H. inversion H; subst; clear H. split; simpl.
    + apply setdefault_keys. exact Hnd.
    + apply setdefault_has_key.
  - destruct (String.eqb type "E");
      [|intros H; inversion H; subst; split; assumption].
    destruct (unpack2 (Str.split1 "=" value)) as [[property value']|e];
      [|discriminate].
    destruct (UDevAdm.current_properties st) as [path|]; [|discriminate].
    intros H. inversion H; subst; clear H. split; simpl.
    + rewrite set_property_keys. exact Hnd.
    + rewrite set_property_keys. exact Hcur.
Qed.

Lemma read_devices_loop_ok (encoding : Codec.t) (database : list string)
  (st st' : UDevAdm.reading) :
  UDevAdm.reading_ok st -> UDevAdm.read_devices_loop encoding database st = Ok st' ->
  UDevAdm.reading_ok st'.
Proof.
  revert st. induction database as [|line rest IH]; intros st Hok; simpl.
  - intros H. inversion H; subst. exact Hok.
  - destruct (UDevAdm.read_devices_line encoding st line) as [st1|e] eqn:E;
      [|discriminate].
    apply IH. eapply read_devices_line_ok; eauto.
Qed.

Lemma read_devices_lines_keys (encoding : Codec.t) (database : list string)
  (devices : Dict.t (Dict.t string)) :
  UDevAdm.read_devices_lines encoding database = Ok devices ->
  NoDup (Dict.keys devices).
Proof.
  unfold UDevAdm.read_devices_lines.
  destruct (UDevAdm.read_devices_loop encoding database _) as [st|e] eqn:E;
    [|discriminate].
  intros H. inversion H; subst.
  eapply read_devices_loop_ok; [|exact E].
  split; simpl; [constructor|exact I].
Qed.

End DatabaseFacts.

(** X1.  [_filter_dict] keeps exactly the items whose key is not
    blacklisted, with their values: a blacklisted key is not found in the
    result, any other key is found with the value it had.  Filtering again
    changes nothing.  So [DeviceData.properties] never shows the volatile
    power-supply properties and shows every other property unchanged. *)
Theorem X1_filter_dict_lookup :
  forall (d : Dict.t string) (blacklist : list string) (k : string),
    Dict.get k (UdevDatabase._filter_dict d blacklist) =
      (if existsb (String.eqb k) blacklist then None else Dict.get k d) /\
    UdevDatabase._filter_dict (UdevDatabase._filter_dict d blacklist) blacklist =
      UdevDatabase._filter_dict d blacklist /\
    (forall self : UdevDatabase.DeviceData.t,
       Dict.get k (UdevDatabase.DeviceData.properties self) =
       if existsb (String.eqb k) UdevDatabase.DeviceData.PROPERTIES_BLACKLIST
       then None
       else Dict.get k (UdevDatabase.DeviceData._all_properties self)).
Proof.
  intros d blacklist k. split; [|split].
  - apply filter_dict_get.
  - apply filter_dict_again.
  - intros self. apply filter_dict_get.
Qed.

(** X2.  [DeviceData.tags]: every tag is a non-empty text without a
    colon; a device without a TAGS property has no tags; and when TAGS is
    the tags joined by colons, with a colon in front and behind as udev
    writes it, or without, the tags come back as they were, in order. *)
Theorem X2_tags_of_the_TAGS_property :
  forall self : UdevDatabase.DeviceData.t,
    Forall (fun tag => tag <> EmptyString /\ Str.lacks ":"%char tag = true)
           (UdevDatabase.DeviceData.tags self) /\
    (Dict.get "TAGS" (UdevDatabase.DeviceData._all_properties self) = None ->
     UdevDatabase.DeviceData.tags self = []) /\
    (forall tags : list string,
       Forall (fun tag => tag <> EmptyString /\ Str.lacks ":"%char tag = true) tags ->
       (Dict.get "TAGS" (UdevDatabase.DeviceData._all_properties self) =
          Some (":" ++ Str.join ":" tags ++ ":")%string \/
        Dict.get "TAGS" (UdevDatabase.DeviceData._all_properties self) =
          Some (Str.join ":" tags)) ->
       UdevDatabase.DeviceData.tags self = tags).
Proof.
  intros self.
  assert (Hkeep : forall tags : list string,
    Forall (fun tag => tag <> EmptyString /\ Str.lacks ":"%char tag = true) tags ->
    filter (fun t => negb (String.eqb t "")) tags = tags).
  { induction 1 as [|t ts [Hne _] _ IH]; [reflexivity|].
    simpl. apply String.eqb_neq in Hne. rewrite Hne. simpl. congruence. }
  assert (Hjoin : forall tags : list string,
    Forall (fun tag => tag <> EmptyString /\ Str.lacks ":"%char tag = true) tags ->
    tags <> [] ->
    forall rest : string,
      Str.split ":"%char (Str.join ":" tags ++ String ":"%char rest)%string =
      tags ++ Str.split ":"%char rest).
  { induction 1 as [|t ts [_ Hl] Hts IH]; [congruence|]. intros _ rest.
    destruct ts as [|t' ts'].
    - simpl Str.join. rewrite (split_append _ _ _ Hl). reflexivity.
    - change (Str.join ":" (t :: t' :: ts'))
        with (t ++ String ":"%char (Str.join ":" (t' :: ts')))%string.
      rewrite append_assoc.
      change ((String ":"%char (Str.join ":" (t' :: ts')) ++ String ":"%char rest)%string)
        with (String ":"%char (Str.join ":" (t' :: ts') ++ String ":"%char rest)%string).
      rewrite (split_append _ _ _ Hl), IH; [reflexivity|discriminate]. }
  assert (Hplain : forall tags : list string,
    Forall (fun tag => tag <> EmptyString /\ Str.lacks ":"%char tag = true) tags ->
    filter (fun t => negb (String.eqb t ""))
           (Str.split ":"%char (Str.join ":" tags)) = tags).
  { induction 1 as [|t ts [Hne Hl] Hts IH]; [reflexivity|].
    destruct ts as [|t' ts'].
    - simpl Str.join. rewrite (split_lacks _ _ Hl).
      simpl. apply String.eqb_neq in Hne. rewrite Hne. reflexivity.
    - change (Str.join ":" (t :: t' :: ts'))
        with (t ++ String ":"%char (Str.join ":" (t' :: ts')))%string.
      rewrite (split_append _ _ _ Hl). simpl filter.
      apply String.eqb_neq in Hne. rewrite Hne. simpl negb. cbv iota.
      f_equal. exact IH. }
  unfold UdevDatabase.DeviceData.tags.
  split; [|split].
  - apply Forall_forall. intros tag Hin. apply filter_In in Hin.
    destruct Hin as [Hin Hne]. split.
    + apply negb_true_iff in Hne. apply String.eqb_neq. exact Hne.
    + pose proof (split_parts_lack ":"%char
        (match Dict.get "TAGS" (UdevDatabase.DeviceData._all_properties self) with
         | Some v => v
         | None => EmptyString
         end)) as Hall.
      rewrite Forall_forall in Hall. apply Hall. exact Hin.
  - intros ->. reflexivity.
  - intros tags Htags [-> | ->].
    + destruct tags as [|t ts].
      * reflexivity.
      * change ((":" ++ Str.join ":" (t :: ts) ++ ":")%string)
          with (String ":"%char (Str.join ":" (t :: ts) ++ String ":"%char "")%string).
        cbn [Str.split]. rewrite Ascii.eqb_refl.
        rewrite (Hjoin (t :: ts) Htags); [|discriminate].
        simpl Str.split. cbn [filter String.eqb negb].
        rewrite filter_app. rewrite (Hkeep _ Htags). simpl.
        rewrite app_nil_r. reflexivity.
    + apply Hplain. exact Htags.
Qed.

(** X3.  A [DeviceDatabase] over devices that [read_devices] has read:
    every device the database iterates over is found by
    [find_device_data] under its own path, as that same device; whatever
    [find_device_data] finds is one of those; it finds nothing exactly for
    the paths that are not in the database; and the iteration yields as
    many devices as [__len__] says. *)
Theorem X3_find_device_data_and_iteration :
  forall (encoding : Codec.t) (database : list string)
         (devices : Dict.t (Dict.t string)) (udevadm : UdevDatabase.UDevAdm.t),
    UdevDatabase.UDevAdm.read_devices_lines encoding database =
      UdevDatabase.Ok devices ->
    let db := {| UdevDatabase.DeviceDatabase._udevadm := udevadm;
                 UdevDatabase.DeviceDatabase._devices := devices |} in
    (forall data : UdevDatabase.DeviceData.t,
       In data (UdevDatabase.DeviceDatabase.__iter__ db) ->
       UdevDatabase.DeviceDatabase.find_device_data db
         (UdevDatabase.DeviceData.device_path data) = Some data) /\
    (forall (path : string) (data : UdevDatabase.DeviceData.t),
       UdevDatabase.DeviceDatabase.find_device_data db path = Some data ->
       In data (UdevDatabase.DeviceDatabase.__iter__ db) /\
       UdevDatabase.DeviceData.device_path data = path) /\
    (forall path : string,
       UdevDatabase.DeviceDatabase.find_device_data db path = None <->
       ~ In path (map UdevDatabase.DeviceData.device_path
                      (UdevDatabase.DeviceDatabase.__iter__ db))) /\
    List.length (UdevDatabase.DeviceDatabase.__iter__ db) =
      UdevDatabase.DeviceDatabase.__len__ db.
Proof.
  intros encoding database devices udevadm Hread db.
  pose proof (read_devices_lines_keys encoding database devices Hread) as Hnd.
  unfold UdevDatabase.DeviceDatabase.__iter__,
    UdevDatabase.DeviceDatabase.find_device_data,
    UdevDatabase.DeviceDatabase.__len__. subst db. simpl.
  split; [|split; [|split]].
  - intros data Hin. apply in_map_iff in Hin.
    destruct Hin as ([path properties] & <- & Hin). simpl.
    rewrite (in_get path properties devices Hnd Hin). reflexivity.
  - intros path data Hfind.
    destruct (Dict.get path devices) as [properties|] eqn:E; [|discriminate].
    inversion Hfind; subst; clear Hfind. split; [|reflexivity].
    apply in_map_iff. exists (path, properties). split; [reflexivity|].
    apply get_in. exact E.
  - intros path. rewrite map_map. simpl.
    change (map (fun x : string * Dict.t string => fst x) devices)
      with (Dict.keys devices).
    rewrite <- get_none_keys.
    destruct (Dict.get path devices); split; congruence.
  - apply length_map.
Qed.

(** ** The test plugin: reading the database *)

Section ReadDevicesFacts.

Import UdevDatabase.

Variable encoding : Codec.t.

Lemma read_devices_loop_app (a b : list string) (st : UDevAdm.reading) :
  UDevAdm.read_devices_loop encoding (a ++ b) st =
  match UDevAdm.read_devices_loop encoding a st with
  | Ok st' => UDevAdm.read_devices_loop encoding b st'
  | Error e => Error e
  end.
Proof.
  revert st. induction a as [|line a IH]; intros st; simpl; [reflexivity|].
  destruct (UDevAdm.read_devices_line encoding st line); [apply IH|reflexivity].
Qed.

(** A line whose text is a type, ": " and a value, once stripped and
    decoded. *)
Lemma read_typed_line (st : UDevAdm.reading) (line type value : string) :
  encoding (Str.strip line) = Some (type ++ ": " ++ value)%string ->
  Str.lacks ":"%char type = true ->
  type <> EmptyString ->
  UDevAdm.read_devices_line encoding st line =
  if String.eqb type "P" then
    Ok {| UDevAdm.devices := Dict.setdefault value [] (UDevAdm.devices st);
          UDevAdm.current_properties := Some value |}
  else if String.eqb type "E" then
    match unpack2 (Str.split1 "=" value) with
    | Error e => Error e
    | Ok (property, value') =>
        match UDevAdm.current_properties st with
        | None => Error TypeError
        | Some path =>
            Ok {| UDevAdm.devices :=
                    UDevAdm.set_property path property value' (UDevAdm.devices st);
                  UDevAdm.current_properties := Some path |}
        end
    end
  else Ok st.
Proof.
  intros Hdecode Hlacks Hne. unfold UDevAdm.read_devices_line, decode.
  rewrite Hdecode.
  assert (Hnonempty : String.eqb (type ++ ": " ++ value)%string "" = false).
  { destruct type; [contradiction|reflexivity]. }
  rewrite Hnonempty. unfold Str.split1.
  change ((type ++ ": " ++ value)%string)
    with ((type ++ String ":"%char " " ++ value)%string).
  rewrite (cut_append ":"%char " " type value Hlacks). reflexivity.
Qed.

Lemma strip_typed (type rest : string) (c : ascii) :
  Str.isspace c = false ->
  Str.rstrip rest = rest -> rest <> EmptyString ->
  Str.strip (String c type ++ rest)%string = (String c type ++ rest)%string.
Proof.
  intros Hc Hrest Hne. unfold Str.strip.
  change ((String c type ++ rest)%string) with (String c (type ++ rest)%string).
  cbn [Str.lstrip]. rewrite Hc.
  change (String c (type ++ rest)%string) with ((String c type ++ rest)%string).
  apply rstrip_append; assumption.
Qed.

Lemma read_P_line (st : UDevAdm.reading) (path : string) :
  path <> EmptyString -> Str.rstrip path = path ->
  encoding ("P: " ++ path)%string = Some ("P: " ++ path)%string ->
  UDevAdm.read_devices_line encoding st ("P: " ++ path)%string =
  Ok {| UDevAdm.devices := Dict.setdefault path [] (UDevAdm.devices st);
        UDevAdm.current_properties := Some path |}.
Proof.
  intros Hne Hpath Hdecode.
  rewrite (read_typed_line st _ "P" path); [reflexivity| |reflexivity|discriminate].
  rewrite (strip_typed ": " path "P"%char eq_refl Hpath Hne). exact Hdecode.
Qed.

Lemma read_E_line (st : UDevAdm.reading) (path property value : string) :
  Str.lacks "="%char property = true -> Str.rstrip value = value ->
  encoding ("E: " ++ property ++ "=" ++ value)%string =
    Some ("E: " ++ property ++ "=" ++ value)%string ->
  UDevAdm.current_properties st = Some path ->
  UDevAdm.read_devices_line encoding st ("E: " ++ property ++ "=" ++ value)%string =
  Ok {| UDevAdm.devices :=
          UDevAdm.set_property path property value (UDevAdm.devices st);
        UDevAdm.current_properties := Some path |}.
Proof.
  intros Hprop Hvalue Hdecode Hcur.
  assert (Hstrip :
    Str.strip ("E: " ++ property ++ "=" ++ value)%string =
    ("E: " ++ property ++ "=" ++ value)%string).
  { change (("E: " ++ property ++ "=" ++ value)%string)
      with ((String "E"%char ": " ++ (property ++ String "="%char value))%string).
    rewrite <- append_assoc.
    assert (Hend : Str.rstrip (String "="%char value) = String "="%char value).
    { simpl. rewrite Hvalue. destruct value; reflexivity. }
    change ((String "E"%char ": " ++ property)%string)
      with (String "E"%char (": " ++ property)%string).
    rewrite (strip_typed (": " ++ property) (String "="%char value) "E"%char
               eq_refl Hend); [|discriminate].
    reflexivity. }
  rewrite (read_typed_line st _ "E" (property ++ "=" ++ value)%string);
    [|rewrite Hstrip; exact Hdecode|reflexivity|discriminate].
  simpl String.eqb. cbv iota. unfold Str.split1.
  change ((property ++ "=" ++ value)%string)
    with ((property ++ String "="%char "" ++ value)%string).
  rewrite (cut_append "="%char "" property value Hprop). simpl. rewrite Hcur.
  reflexivity.
Qed.

Lemma read_blank_line (st : UDevAdm.reading) (line : string) :
  encoding (Str.strip line) = Some EmptyString ->
  UDevAdm.read_devices_line encoding st line = Ok st.
Proof.
  intros H. unfold UDevAdm.read_devices_line, decode. rewrite H. reflexivity.
Qed.

Lemma read_undecodable_line (st : UDevAdm.reading) (line : string) :
  encoding (Str.strip line) = None ->
  UDevAdm.read_devices_line encoding st line = Error UnicodeDecodeError.
Proof.
  intros H. unfold UDevAdm.read_devices_line, decode. rewrite H. reflexivity.
Qed.

Lemma keys_app {V : Type} (a b : Dict.t V) :
  Dict.keys (a ++ b) = Dict.keys a ++ Dict.keys b.
Proof. apply map_app. Qed.

Lemma setdefault_absent {V : Type} (k : string) (v : V) (d : Dict.t V) :
  ~ In k (Dict.keys d) -> Dict.setdefault k v d = d ++ [(k, v)].
Proof.
  intros H. unfold Dict.setdefault.
  destruct (Dict.get k d) eqn:E; [|reflexivity].
  exfalso. apply H. apply get_in in E.
  change k with (fst (k, v0)). apply in_map. exact E.
Qed.

(** The property lines of a block fill the dictionary of its path. *)
Lemma read_property_lines (done : Dict.t (Dict.t string)) (path : string) :
  ~ In path (Dict.keys done) ->
  forall (properties read : Dict.t string),
    NoDup (Dict.keys (read ++ properties)) ->
    Forall (fun kv => Str.lacks "="%char (fst kv) = true /\
                      Str.rstrip (snd kv) = snd kv) properties ->
    Forall (fun line => encoding line = Some line)
      (map (fun kv => ("E: " ++ fst kv ++ "=" ++ snd kv)%string) properties) ->
    UDevAdm.read_devices_loop encoding
      (map (fun kv => ("E: " ++ fst kv ++ "=" ++ snd kv)%string) properties)
      {| UDevAdm.devices := done ++ [(path, read)];
         UDevAdm.current_properties := Some path |} =
    Ok {| UDevAdm.devices := done ++ [(path, read ++ properties)];
          UDevAdm.current_properties := Some path |}.
Proof.
  intros Hpath.
  induction properties as [|[k v] properties IH]; intros read Hnd Hall Hdec.
  - simpl. rewrite app_nil_r. reflexivity.
  - inversion Hall as [|? ? [Hk Hv] Hrest]; subst. simpl in Hk, Hv.
    cbn [map fst snd] in Hdec.
    inversion Hdec as [|? ? Hline Hlines]; subst.
    rewrite keys_app in Hnd. simpl in Hnd.
    pose proof (NoDup_remove_2 _ _ _ Hnd) as Hfresh.
    assert (Hk' : ~ In k (Dict.keys read)).
    { intros Hin. apply Hfresh. apply in_or_app. auto. }
    cbn [map UDevAdm.read_devices_loop fst snd].
    rewrite (read_E_line
               {| UDevAdm.devices := done ++ [(path, read)];
                  UDevAdm.current_properties := Some path |}
               path k v Hk Hv Hline eq_refl).
    cbn [UDevAdm.devices].
    unfold UDevAdm.set_property.
    rewrite (get_last path read done Hpath), (set_last path read _ done Hpath).
    rewrite (set_absent k v read Hk').
    rewrite (IH (read ++ [(k, v)])).
    + rewrite <- app_assoc. reflexivity.
    + rewrite <- app_assoc. simpl. rewrite keys_app. simpl. exact Hnd.
    + exact Hrest.
    + exact Hlines.
Qed.

Lemma read_exported (blocks : Dict.t (Dict.t string)) :
  forall (done : Dict.t (Dict.t string)) (current : option string),
    NoDup (Dict.keys (done ++ blocks)) ->
    Forall exportable_block blocks ->
    Forall (fun line => encoding line = Some line) (export_db blocks) ->
    exists current',
      UDevAdm.read_devices_loop encoding (export_db blocks)
        {| UDevAdm.devices := done; UDevAdm.current_properties := current |} =
      Ok {| UDevAdm.devices := done ++ blocks;
            UDevAdm.current_properties := current' |}.
Proof.
  induction blocks as [|[path properties] blocks IH];
    intros done current Hnd Hall Hdec.
  - exists current. simpl. rewrite app_nil_r. reflexivity.
  - inversion Hall as [|? ? (Hne & Hpath & Hkeys & Hprops) Hrest]; subst.
    simpl in Hne, Hpath, Hkeys, Hprops.
    unfold export_db in Hdec. cbn [flat_map] in Hdec. fold (export_db blocks) in Hdec.
    unfold export_block in Hdec. cbn [fst snd app] in Hdec.
    inversion Hdec as [|? ? HdecP Hdec']; subst.
    rewrite <- app_assoc in Hdec'.
    apply Forall_app in Hdec'. destruct Hdec' as [HdecE Hdec'].
    cbn [app] in Hdec'. inversion Hdec' as [|? ? Hblank Hlater]; subst.
    rewrite keys_app in Hnd. simpl in Hnd.
    pose proof (NoDup_remove_2 _ _ _ Hnd) as Hfresh.
    assert (Hnew : ~ In path (Dict.keys done)).
    { intros Hin. apply Hfresh. apply in_or_app. auto. }
    destruct (IH (done ++ [(path, properties)]) (Some path)) as [current' Hloop].
    { rewrite <- app_assoc. simpl. rewrite keys_app. exact Hnd. }
    { exact Hrest. }
    { exact Hlater. }
    exists current'.
    unfold export_db. cbn [flat_map]. fold (export_db blocks).
    unfold export_block. cbn [fst snd].
    cbn [app UDevAdm.read_devices_loop].
    rewrite (read_P_line _ path Hne Hpath HdecP). cbn [UDevAdm.devices].
    rewrite (setdefault_absent path [] done Hnew).
    rewrite <- app_assoc, read_devices_loop_app.
    pose proof (read_property_lines done path Hnew properties [] Hkeys Hprops HdecE)
      as Hlines.
    match goal with
    | |- context [UDevAdm.read_devices_loop encoding (map ?f properties) ?st] =>
        replace (UDevAdm.read_devices_loop encoding (map f properties) st)
          with (Ok {| UDevAdm.devices := done ++ [(path, properties)];
                      UDevAdm.current_properties := Some path |})
          by (symmetry; exact Hlines)
    end.
    cbn [app UDevAdm.read_devices_loop].
    rewrite (read_blank_line _ "" Hblank).
    rewrite Hloop, <- app_assoc. reflexivity.
Qed.

End ReadDevicesFacts.

(** X4.  [read_devices] reads a dump back: for blocks that a dump holds
    as they are, on a machine whose encoding decodes each line of the dump
    to the text it was written from, reading the lines [export_db] writes
    for them gives those blocks, every device with its properties, in the
    order they were written. *)
Theorem X4_read_devices_reads_a_dump_back :
  forall (encoding : Codec.t) (blocks : Dict.t (Dict.t string)),
    UdevDatabase.exportable blocks ->
    Forall (fun line => encoding line = Some line) (UdevDatabase.export_db blocks) ->
    UdevDatabase.UDevAdm.read_devices_lines encoding (UdevDatabase.export_db blocks) =
    UdevDatabase.Ok blocks.
Proof.
  intros encoding blocks [Hnd Hall] Hdec.
  destruct (read_exported encoding blocks [] None Hnd Hall Hdec) as [current' Hloop].
  unfold UdevDatabase.UDevAdm.read_devices_lines. rewrite Hloop. reflexivity.
Qed.

Lemma X3_find_device_data_and_iteration_witness :
  UdevDatabase.UDevAdm.read_devices_lines Codec.utf_8 Sample.database =
    UdevDatabase.Ok Sample.blocks /\
  (forall path : string,
     UdevDatabase.DeviceDatabase.find_device_data Sample.device_database path = None <->
     ~ In path (map UdevDatabase.DeviceData.device_path
                    (UdevDatabase.DeviceDatabase.__iter__ Sample.device_database))).
Proof.
  split; [vm_compute; reflexivity|].
  exact (proj1 (proj2 (proj2
    (X3_find_device_data_and_iteration Codec.utf_8 Sample.database Sample.blocks
       Sample.udevadm eq_refl)))).
Defined.

Lemma X4_read_devices_reads_a_dump_back_witness :
  UdevDatabase.exportable Sample.blocks /\
  Forall (fun line => Codec.utf_8 line = Some line) Sample.database /\
  UdevDatabase.UDevAdm.read_devices_lines Codec.utf_8 Sample.database =
    UdevDatabase.Ok Sample.blocks.
Proof.
  assert (H : UdevDatabase.exportable Sample.blocks).
  { split.
    - repeat constructor; simpl; intuition discriminate.
    - repeat constructor; simpl; try discriminate; intuition discriminate. }
  assert (Hdec : Forall (fun line => Codec.utf_8 line = Some line) Sample.database).
  { repeat constructor. }
  split; [exact H|]. split; [exact Hdec|].
  exact (X4_read_devices_reads_a_dump_back Codec.utf_8 Sample.blocks H Hdec).
Defined.

(** ** The test plugin: lines, attributes and commands *)

Import UdevDatabase.

Section ReadingFacts.

Variable encoding : Codec.t.

(** [read_devices] at one line of the database. *)
Lemma read_devices_lines_at (before after : list string) (line : string) :
  UDevAdm.read_devices_lines encoding (before ++ line :: after) =
  match UDevAdm.read_devices_loop encoding before UDevAdm.nothing_read with
  | Error e => Error e
  | Ok st =>
      match UDevAdm.read_devices_line encoding st line with
      | Error e => Error e
      | Ok st' =>
          match UDevAdm.read_devices_loop encoding after st' with
          | Ok st'' => Ok (UDevAdm.devices st'')
          | Error e => Error e
          end
      end
  end.
Proof.
  unfold UDevAdm.read_devices_lines. fold UDevAdm.nothing_read.
  rewrite read_devices_loop_app.
  destruct (UDevAdm.read_devices_loop encoding before UDevAdm.nothing_read);
    [|reflexivity].
  cbn [UDevAdm.read_devices_loop].
  destruct (UDevAdm.read_devices_line encoding a line); reflexivity.
Qed.

Lemma read_devices_lines_without (before after : list string) :
  UDevAdm.read_devices_lines encoding (before ++ after) =
  match UDevAdm.read_devices_loop encoding before UDevAdm.nothing_read with
  | Error e => Error e
  | Ok st =>
      match UDevAdm.read_devices_loop encoding after st with
      | Ok st' => Ok (UDevAdm.devices st')
      | Error e => Error e
      end
  end.
Proof.
  unfold UDevAdm.read_devices_lines. fold UDevAdm.nothing_read.
  rewrite read_devices_loop_app.
  destruct (UDevAdm.read_devices_loop encoding before UDevAdm.nothing_read);
    reflexivity.
Qed.

Lemma read_blank_lines (blank : list string) (st : UDevAdm.reading) :
  Forall (fun line => encoding (Str.strip line) = Some EmptyString) blank ->
  UDevAdm.read_devices_loop encoding blank st = Ok st.
Proof.
  induction 1 as [|line blank Hline _ IH]; [reflexivity|].
  cbn [UDevAdm.read_devices_loop].
  rewrite (read_blank_line encoding st line Hline).
  exact IH.
Qed.

(** The loop of [read_device_attributes] ends at the first line of a
    parent device. *)
Lemma read_attributes_stop (own rest : list string) (parent text : string) :
  encoding (Str.strip parent) = Some text ->
  Str.startswith "looking at parent device" text = true ->
  forall attributes : Dict.t string,
    UDevAdm.read_attributes_loop encoding (own ++ parent :: rest) attributes =
    UDevAdm.read_attributes_loop encoding own attributes.
Proof.
  intros Hdecode Hparent. induction own as [|line own IH]; intros attributes.
  - cbn [app UDevAdm.read_attributes_loop]. unfold decode.
    rewrite Hdecode, Hparent. reflexivity.
  - cbn [app UDevAdm.read_attributes_loop].
    destruct (decode encoding (Str.strip line)) as [decoded|e]; [|reflexivity].
    destruct (Str.startswith "looking at parent device" decoded);
      [reflexivity|].
    destruct (Str.startswith "ATTR" decoded); [|apply IH].
    destruct (unpack2 (Str.split1 "==" decoded)) as [[name value]|];
      [|reflexivity].
    destruct (Str.search_braces name); [apply IH|reflexivity].
Qed.

Lemma strip_attribute_line (indent name value : string) :
  (forall x, Str.lacks x indent = false -> Str.isspace x = true) ->
  Str.strip (attribute_line indent name value) = attribute_line "" name value.
Proof.
  intros Hindent. unfold attribute_line, Str.strip.
  change (("ATTR{" ++ ?s)%string) with (String "A"%char ("TTR{" ++ s)%string).
  rewrite (lstrip_indent indent "A"%char _ Hindent eq_refl).
  set (quote := ascii_of_nat 34).
  change (("" ++ String "A"%char
             ("TTR{" ++ name ++ "}==" ++ String quote (value ++ String quote "")))%string)
    with (("ATTR{" ++ name ++ "}==" ++ String quote (value ++ String quote ""))%string).
  change (String "A"%char
            ("TTR{" ++ name ++ "}==" ++ String quote (value ++ String quote ""))%string)
    with (("ATTR{" ++ name ++ "}==" ++ String quote (value ++ String quote ""))%string).
  assert (E : ("ATTR{" ++ name ++ "}==" ++ String quote (value ++ String quote ""))%string
              = (("ATTR{" ++ name ++ "}==" ++ String quote value) ++ String quote "")%string).
  { rewrite !append_assoc. reflexivity. }
  rewrite E. apply rstrip_last. reflexivity.
Qed.

(** The value between the quotation marks. *)
Lemma slice_quoted (value : string) :
  Str.starts_at_character value = true ->
  Str.slice_1_m1
    (String (ascii_of_nat 34) (value ++ String (ascii_of_nat 34) ""))%string = value.
Proof.
  intros Hstart. unfold Str.slice_1_m1.
  assert (Htail : Str.tail (String (ascii_of_nat 34)
                              (value ++ String (ascii_of_nat 34) ""))%string =
                  (value ++ String (ascii_of_nat 34) "")%string).
  { destruct value as [|x value]; [reflexivity|].
    cbn [append]. apply tail_one.
    cbn [Str.starts_at_character] in Hstart. apply negb_true_iff. exact Hstart. }
  rewrite Htail. apply init_last. reflexivity.
Qed.

(** One attribute line sets one attribute. *)
Lemma read_attribute_line (indent name value : string) (rest : list string)
  (attributes : Dict.t string) :
  (forall x, Str.lacks x indent = false -> Str.isspace x = true) ->
  Str.lacks "="%char name = true -> Str.lacks "010"%char name = true ->
  Str.starts_at_character value = true ->
  encoding (attribute_line "" name value) = Some (attribute_line "" name value) ->
  UDevAdm.read_attributes_loop encoding
    (attribute_line indent name value :: rest) attributes =
  UDevAdm.read_attributes_loop encoding rest (Dict.set name value attributes).
Proof.
  intros Hindent Hequal Hline Hstart Hdecode. cbn [UDevAdm.read_attributes_loop].
  rewrite (strip_attribute_line indent name value Hindent).
  unfold decode. rewrite Hdecode.
  assert (Hparent : Str.startswith "looking at parent device"
                      (attribute_line "" name value) = false) by reflexivity.
  assert (Hattr : Str.startswith "ATTR" (attribute_line "" name value) = true).
  { unfold Str.startswith, attribute_line. simpl. reflexivity. }
  rewrite Hparent, Hattr.
  set (quote := ascii_of_nat 34).
  assert (E : attribute_line "" name value =
              (("ATTR{" ++ name ++ "}") ++ String "="%char "=" ++
               String quote (value ++ String quote ""))%string).
  { unfold attribute_line. rewrite !append_assoc. reflexivity. }
  unfold Str.split1. rewrite E, cut_append.
  2:{ simpl. rewrite lacks_append, Hequal. reflexivity. }
  cbn [unpack2]. subst quote. rewrite (slice_quoted value Hstart).
  assert (Hname : Str.search_braces ("ATTR{" ++ name ++ "}")%string = Some name).
  { simpl. rewrite first_line_whole.
    - rewrite until_last_end. reflexivity.
    - rewrite lacks_append, Hline. reflexivity. }
  rewrite Hname. reflexivity.
Qed.

Lemma read_attribute_lines (indent : string) (attributes read : Dict.t string)
  (rest : list string) :
  (forall x, Str.lacks x indent = false -> Str.isspace x = true) ->
  NoDup (Dict.keys (read ++ attributes)) ->
  Forall (walkable encoding) attributes ->
  UDevAdm.read_attributes_loop encoding
    (map (fun kv => attribute_line indent (fst kv) (snd kv)) attributes ++ rest) read =
  UDevAdm.read_attributes_loop encoding rest (read ++ attributes).
Proof.
  intros Hindent. revert read.
  induction attributes as [|[name value] attributes IH]; intros read Hnd Hall.
  - rewrite app_nil_r. reflexivity.
  - inversion Hall as [|? ? (Hequal & Hline & Hstart & Hdecode) Hrest]; subst.
    simpl in Hequal, Hline, Hstart, Hdecode.
    rewrite keys_app in Hnd. simpl in Hnd.
    pose proof (NoDup_remove_2 _ _ _ Hnd) as Hfresh.
    assert (Hname : ~ In name (Dict.keys read)).
    { intros Hin. apply Hfresh. apply in_or_app. auto. }
    cbn [map app fst snd].
    rewrite (read_attribute_line indent name value _ read Hindent Hequal Hline
               Hstart Hdecode).
    rewrite (set_absent name value read Hname).
    rewrite (IH (read ++ [(name, value)])).
    + rewrite <- app_assoc. reflexivity.
    + rewrite <- app_assoc. simpl. rewrite keys_app. simpl. exact Hnd.
    + exact Hrest.
Qed.

End ReadingFacts.

(** X5.  What [read_devices] does with one line of the database, by the
    text the machine decodes the stripped line to.  A line that does not
    decode raises [UnicodeDecodeError].  A blank line, and a line of a
    type other than "P" and "E", is left out as if it were not there.  An
    error at an earlier line is the error of the whole.  After lines that
    were read, a line that is not blank and holds no ": " raises
    [ValueError], as does an "E" line without "=".  An "E" line with only
    blank lines before it, when there is no device yet, raises
    [TypeError]. *)
Theorem X5_read_devices_line_by_line :
  forall (encoding : Codec.t) (before after : list string) (line : string),
    let whole := UDevAdm.read_devices_lines encoding (before ++ line :: after) in
    (encoding (Str.strip line) = Some EmptyString ->
     whole = UDevAdm.read_devices_lines encoding (before ++ after)) /\
    (forall type value : string,
       encoding (Str.strip line) = Some (type ++ ": " ++ value)%string ->
       Str.lacks ":"%char type = true ->
       type <> EmptyString -> type <> "P"%string -> type <> "E"%string ->
       whole = UDevAdm.read_devices_lines encoding (before ++ after)) /\
    (forall e : error,
       UDevAdm.read_devices_lines encoding before = Error e -> whole = Error e) /\
    (forall devices : Dict.t (Dict.t string),
       UDevAdm.read_devices_lines encoding before = Ok devices ->
       (encoding (Str.strip line) = None -> whole = Error UnicodeDecodeError) /\
       (forall text : string,
          encoding (Str.strip line) = Some text ->
          text <> EmptyString ->
          Str.cut ": " text = None ->
          whole = Error ValueError) /\
       (forall rest : string,
          encoding (Str.strip line) = Some ("E: " ++ rest)%string ->
          Str.lacks "="%char rest = true ->
          whole = Error ValueError)) /\
    (forall property value : string,
       Forall (fun l => encoding (Str.strip l) = Some EmptyString) before ->
       encoding (Str.strip line) = Some ("E: " ++ property ++ "=" ++ value)%string ->
       Str.lacks "="%char property = true ->
       whole = Error TypeError).
Proof.
  intros encoding before after line whole. subst whole.
  rewrite read_devices_lines_at, read_devices_lines_without.
  conjuncts.
  - intros Hblank.
    destruct (UDevAdm.read_devices_loop encoding before UDevAdm.nothing_read)
      as [st|]; [|reflexivity].
    rewrite (read_blank_line encoding st line Hblank). reflexivity.
  - intros type value Hline Hlacks Hne HP HE.
    destruct (UDevAdm.read_devices_loop encoding before UDevAdm.nothing_read)
      as [st|]; [|reflexivity].
    rewrite (read_typed_line encoding st line type value Hline Hlacks Hne).
    apply String.eqb_neq in HP, HE. rewrite HP, HE. reflexivity.
  - intros e. unfold UDevAdm.read_devices_lines. fold UDevAdm.nothing_read.
    destruct (UDevAdm.read_devices_loop encoding before UDevAdm.nothing_read);
      congruence.
  - intros devices. unfold UDevAdm.read_devices_lines. fold UDevAdm.nothing_read.
    destruct (UDevAdm.read_devices_loop encoding before UDevAdm.nothing_read)
      as [st|]; [|discriminate].
    intros _. conjuncts.
    + intros Hnone. rewrite (read_undecodable_line encoding st line Hnone).
      reflexivity.
    + intros text Hdecode Hne Hcut. unfold UDevAdm.read_devices_line, decode.
      rewrite Hdecode. apply String.eqb_neq in Hne. rewrite Hne.
      unfold Str.split1. rewrite Hcut. reflexivity.
    + intros rest Hline Hlacks.
      rewrite (read_typed_line encoding st line "E" rest Hline eq_refl);
        [|discriminate].
      unfold Str.split1.
      rewrite (cut_lacks "="%char "" rest Hlacks). reflexivity.
  - intros property value Hblank Hline Hlacks.
    rewrite (read_blank_lines encoding before UDevAdm.nothing_read Hblank).
    rewrite (read_typed_line encoding UDevAdm.nothing_read line "E" _ Hline eq_refl);
      [|discriminate].
    unfold Str.split1.
    change ((property ++ "=" ++ value)%string)
      with ((property ++ String "="%char "" ++ value)%string).
    rewrite (cut_append "="%char "" property value Hlacks). reflexivity.
Qed.

(** X6.  [read_device_attributes] reads the attributes of the device
    itself only: whatever comes from the first line on whose text starts
    with "looking at parent device" changes neither the attributes read
    nor an error. *)
Theorem X6_read_device_attributes_stops_at_the_parent :
  forall (encoding : Codec.t) (own rest : list string) (parent text : string)
         (attributes : Dict.t string),
    encoding (Str.strip parent) = Some text ->
    Str.startswith "looking at parent device" text = true ->
    UDevAdm.read_attributes_loop encoding (own ++ parent :: rest) attributes =
      UDevAdm.read_attributes_loop encoding own attributes /\
    UDevAdm.read_attributes_loop encoding (parent :: rest) attributes = Ok attributes.
Proof.
  intros encoding own rest parent text attributes Hdecode Hparent. split.
  - apply (read_attributes_stop encoding own rest parent text Hdecode Hparent).
  - exact (read_attributes_stop encoding [] rest parent text Hdecode Hparent
             attributes).
Qed.

Lemma X6_read_device_attributes_stops_at_the_parent_witness :
  UDevAdm.read_attributes_loop Codec.utf_8 Sample.attribute_walk [] =
  UDevAdm.read_attributes_loop Codec.utf_8
    (map (fun kv => attribute_line "    " (fst kv) (snd kv)) Sample.attributes) [].
Proof.
  exact (proj1 (X6_read_device_attributes_stops_at_the_parent Codec.utf_8
    (map (fun kv => attribute_line "    " (fst kv) (snd kv)) Sample.attributes)
    [attribute_line "    " "power" "on"] Sample.parent_line
    "looking at parent device '/devices/virtual/mem':"%string [] eq_refl eq_refl)).
Defined.

(** X7.  [read_device_attributes] reads a walk back: indented lines of
    the form ATTR{name}=="value", for names that differ and hold neither
    "=" nor a line break and values that are text, each line decoded by
    the machine to itself, then the line of a parent device or the end of
    the output, give the attributes under their names with the quotation
    marks removed, in the order of the lines; a line for a name read
    before sets that attribute again. *)
Theorem X7_read_device_attributes_reads_a_walk :
  forall (encoding : Codec.t) (indent : string) (attributes : Dict.t string),
    (forall x, Str.lacks x indent = false -> Str.isspace x = true) ->
    Forall (walkable encoding) attributes ->
    let walk := map (fun kv => attribute_line indent (fst kv) (snd kv)) attributes in
    (NoDup (Dict.keys attributes) ->
     UDevAdm.read_attributes_loop encoding walk [] = Ok attributes /\
     forall (parent text : string) (rest : list string),
       encoding (Str.strip parent) = Some text ->
       Str.startswith "looking at parent device" text = true ->
       UDevAdm.read_attributes_loop encoding (walk ++ parent :: rest) [] =
         Ok attributes) /\
    (forall (read : Dict.t string) (rest : list string),
       UDevAdm.read_attributes_loop encoding (walk ++ rest) read =
       UDevAdm.read_attributes_loop encoding rest
         (fold_left (fun d kv => Dict.set (fst kv) (snd kv) d) attributes read)).
Proof.
  intros encoding indent attributes Hindent Hall walk. subst walk. split.
  - intros Hnd. split.
    + rewrite <- (app_nil_r (map _ attributes)).
      rewrite (read_attribute_lines encoding indent attributes [] [] Hindent Hnd Hall).
      reflexivity.
    + intros parent text rest Hdecode Hparent.
      rewrite (read_attributes_stop encoding _ rest parent text Hdecode Hparent).
      rewrite <- (app_nil_r (map _ attributes)).
      rewrite (read_attribute_lines encoding indent attributes [] [] Hindent Hnd Hall).
      reflexivity.
  - induction attributes as [|[name value] attributes IH]; intros read rest.
    + reflexivity.
    + inversion Hall as [|? ? (Hequal & Hline & Hstart & Hdecode) Hrest]; subst.
      simpl in Hequal, Hline, Hstart, Hdecode.
      cbn [map app fst snd fold_left].
      rewrite (read_attribute_line encoding indent name value _ read Hindent
                 Hequal Hline Hstart Hdecode).
      apply IH. exact Hrest.
Qed.

Lemma X7_read_device_attributes_reads_a_walk_witness :
  UDevAdm.read_attributes_loop Codec.utf_8 Sample.attribute_walk [] =
    Ok Sample.attributes.
Proof.
  assert (Hindent : forall x, Str.lacks x "    " = false -> Str.isspace x = true).
  { intros x. cbn [Str.lacks].
    destruct (Ascii.eqb " "%char x) eqn:E; [|discriminate].
    apply Ascii.eqb_eq in E. subst x. reflexivity. }
  assert (Hall : Forall (walkable Codec.utf_8) Sample.attributes).
  { repeat constructor. }
  assert (Hnd : NoDup (Dict.keys Sample.attributes)).
  { repeat constructor; simpl; intuition discriminate. }
  exact (proj2 (proj1 (X7_read_device_attributes_reads_a_walk Codec.utf_8 "    "
           Sample.attributes Hindent Hall) Hnd)
           Sample.parent_line
           "looking at parent device '/devices/virtual/mem':"%string
           [attribute_line "    " "power" "on"] eq_refl eq_refl).
Defined.

Section CommandFacts.

(** The host after the version of each of some candidates was asked for. *)
Lemma find_among_missing (missing rest : list string) :
  forall host : Host,
    Forall (fun c => spawn host [c; "--version"%string] = NotStarted ENOENT) missing ->
    UDevAdm.find_among (missing ++ rest) host =
    UDevAdm.find_among rest
      {| spawn := spawn host;
         commands := commands host ++ map (fun c => [c; "--version"%string]) missing |}.
Proof.
  induction missing as [|c missing IH]; intros host Hmissing.
  - destruct host as [sp cs]. simpl. rewrite app_nil_r. reflexivity.
  - inversion Hmissing as [|? ? Hc Hrest]; subst.
    cbn [app UDevAdm.find_among].
    unfold UDevAdm.read_version, UDevAdm._execute.
    cbn [UDevAdm.udevadm UDevAdm.__init__]. rewrite Hc.
    change (negb (ENOENT =? ENOENT)%Z) with false. cbv iota.
    rewrite (IH (ran [c; "--version"%string] host) Hrest).
    unfold ran. cbn [spawn commands map]. rewrite <- app_assoc. reflexivity.
Qed.

(** What [_execute] leaves of one command. *)
Lemma execute_once (self : UDevAdm.t) (args : list string) (host : Host) :
  UDevAdm._execute self args host =
  (ran (UDevAdm.udevadm self :: args) host,
   match spawn host (UDevAdm.udevadm self :: args) with
   | NotStarted errno => Error (EnvironmentError errno)
   | Exited returncode stdout =>
       if (returncode =? 0)%Z then Ok (Str.strip stdout)
       else Error (CalledProcessError returncode (UDevAdm.udevadm self :: args))
   end).
Proof.
  unfold UDevAdm._execute.
  destruct (spawn host (UDevAdm.udevadm self :: args)) as [errno|rc out];
    [reflexivity|].
  destruct (rc =? 0)%Z; reflexivity.
Qed.

Lemma query_device_run (encoding : Codec.t) (self : UDevAdm.t)
  (device_path query_type : string) (host : Host) :
  query_type = "symlink"%string \/ query_type = "name"%string ->
  let command :=
    UDevAdm.udevadm self ::
      ["info"; "--root"; "--path"; device_path; "--query"; query_type]%string in
  UDevAdm.query_device encoding self device_path query_type host =
  (ran command host,
   match spawn host command with
   | NotStarted errno => Error (EnvironmentError errno)
   | Exited returncode stdout =>
       if (returncode =? 0)%Z then
         match encoding (Str.strip stdout) with
         | Some text => Ok (Some text)
         | None => Error UnicodeDecodeError
         end
       else Ok None
   end).
Proof.
  intros Hquery command. unfold UDevAdm.query_device.
  assert (Hin : existsb (String.eqb query_type) ["symlink"; "name"]%string = true).
  { apply existsb_eqb_in. simpl. destruct Hquery; auto. }
  rewrite Hin. cbn [negb]. rewrite execute_once. fold command.
  destruct (spawn host command) as [errno|rc out]; [reflexivity|].
  destruct (rc =? 0)%Z; [|reflexivity].
  unfold decode. destruct (encoding (Str.strip out)); reflexivity.
Qed.

End CommandFacts.

(** X8.  [UDevAdm.find] over candidates of which the first ones do not
    exist ([ENOENT] when started): it asks each of them for its version, in
    order, and no candidate after the first that runs.  When none exists
    the result is [None].  It returns the first candidate that prints a
    version; a candidate that cannot be started for another reason, or
    that exits with a return code other than 0, ends the search with that
    error. *)
Theorem X8_find_first_candidate_that_runs :
  forall (missing rest : list string) (candidate : string) (host : Host),
    Forall (fun c => spawn host [c; "--version"%string] = NotStarted ENOENT) missing ->
    let tried := fun candidates : list string =>
      {| spawn := spawn host;
         commands := commands host ++
                     map (fun c => [c; "--version"%string]) candidates |} in
    UDevAdm.find_among missing host = (tried missing, Ok None) /\
    (forall (stdout : string) (version : Z),
       spawn host [candidate; "--version"%string] = Exited 0 stdout ->
       Str.int (Str.strip stdout) = Some version ->
       UDevAdm.find_among (missing ++ candidate :: rest) host =
       (tried (missing ++ [candidate]), Ok (Some (UDevAdm.__init__ candidate)))) /\
    (forall errno : Z,
       spawn host [candidate; "--version"%string] = NotStarted errno ->
       errno <> ENOENT ->
       UDevAdm.find_among (missing ++ candidate :: rest) host =
       (tried (missing ++ [candidate]), Error (EnvironmentError errno))) /\
    (forall (returncode : Z) (stdout : string),
       spawn host [candidate; "--version"%string] = Exited returncode stdout ->
       returncode <> 0%Z ->
       UDevAdm.find_among (missing ++ candidate :: rest) host =
       (tried (missing ++ [candidate]),
        Error (CalledProcessError returncode [candidate; "--version"%string]))).
Proof.
  intros missing rest candidate host Hmissing tried.
  assert (Htried : forall cmd,
            ran cmd (tried missing) =
            {| spawn := spawn host;
               commands := (commands host ++
                            map (fun c => [c; "--version"%string]) missing) ++ [cmd] |})
    by reflexivity.
  assert (Hlast : tried (missing ++ [candidate]) =
                  ran [candidate; "--version"%string] (tried missing)).
  { rewrite Htried. unfold tried. rewrite map_app, app_assoc. reflexivity. }
  conjuncts.
  - rewrite <- (app_nil_r missing) at 1.
    rewrite (find_among_missing missing [] host Hmissing). reflexivity.
  - intros stdout version Hspawn Hint.
    rewrite (find_among_missing missing _ host Hmissing). fold (tried missing).
    cbn [UDevAdm.find_among]. unfold UDevAdm.read_version.
    rewrite execute_once. cbn [UDevAdm.udevadm UDevAdm.__init__].
    change (spawn (tried missing)) with (spawn host).
    rewrite Hspawn. cbn [Z.eqb]. rewrite Hint, Hlast. reflexivity.
  - intros errno Hspawn Herrno.
    rewrite (find_among_missing missing _ host Hmissing). fold (tried missing).
    cbn [UDevAdm.find_among]. unfold UDevAdm.read_version.
    rewrite execute_once. cbn [UDevAdm.udevadm UDevAdm.__init__].
    change (spawn (tried missing)) with (spawn host).
    rewrite Hspawn. apply Z.eqb_neq in Herrno. rewrite Herrno, Hlast. reflexivity.
  - intros returncode stdout Hspawn Hcode.
    rewrite (find_among_missing missing _ host Hmissing). fold (tried missing).
    cbn [UDevAdm.find_among]. unfold UDevAdm.read_version.
    rewrite execute_once. cbn [UDevAdm.udevadm UDevAdm.__init__].
    change (spawn (tried missing)) with (spawn host).
    rewrite Hspawn. apply Z.eqb_neq in Hcode. rewrite Hcode, Hlast. reflexivity.
Qed.

Lemma X8_find_first_candidate_that_runs_witness :
  UDevAdm.find Sample.host =
  ({| spawn := spawn Sample.host;
      commands := [["/sbin/udevadm"; "--version"]; ["udevadm"; "--version"]]%string |},
   Ok (Some Sample.udevadm)).
Proof.
  exact (proj1 (proj2
    (X8_find_first_candidate_that_runs ["/sbin/udevadm"%string] [] "udevadm"
       Sample.host
       (@Forall_cons _ _ "/sbin/udevadm"%string [] eq_refl (Forall_nil _))))
    _ 245%Z eq_refl eq_refl).
Defined.

(** X9.  [query_device] refuses a query type other than "symlink" and
    "name" with [ValueError] before any command is run.  For these two it
    runs one command, [udevadm info --root --path <path> --query <type>]:
    when the return code is 0, the text the machine decodes the stripped
    output to, or [UnicodeDecodeError] when it does not decode; [None] for
    any other return code whatever was printed; and the error of a program
    that could not be started. *)
Theorem X9_query_device_outcomes :
  forall (encoding : Codec.t) (self : UDevAdm.t) (device_path query_type : string)
         (host : Host),
    (query_type <> "symlink"%string -> query_type <> "name"%string ->
     UDevAdm.query_device encoding self device_path query_type host =
       (host, Error ValueError)) /\
    (query_type = "symlink"%string \/ query_type = "name"%string ->
     let command :=
       UDevAdm.udevadm self ::
         ["info"; "--root"; "--path"; device_path; "--query"; query_type]%string in
     UDevAdm.query_device encoding self device_path query_type host =
     (ran command host,
      match spawn host command with
      | NotStarted errno => Error (EnvironmentError errno)
      | Exited returncode stdout =>
          if (returncode =? 0)%Z then
            match encoding (Str.strip stdout) with
            | Some text => Ok (Some text)
            | None => Error UnicodeDecodeError
            end
          else Ok None
      end)).
Proof.
  intros encoding self device_path query_type host. split.
  - intros Hsymlink Hname. unfold UDevAdm.query_device.
    apply String.eqb_neq in Hsymlink, Hname. simpl. rewrite Hsymlink, Hname.
    reflexivity.
  - apply query_device_run.
Qed.

(** X10.  [device_links] runs the one "symlink" query of the device.
    When the query exits with a return code other than 0 there are no
    links; when it exits with 0 the links are the words of the text the
    output decodes to, split at white space as [split()] does for text:
    they are not empty and hold no ASCII white space, and there are none
    for an output of white space only.  It raises the error of a program
    that could not be started, and [UnicodeDecodeError] for an output
    that does not decode, and nothing else.  [device_node] is the "name"
    query: [None] exactly when the return code is not 0. *)
Theorem X10_device_links_and_node :
  forall (encoding : Codec.t) (self : DeviceData.t) (host : Host),
    let query := fun query_type : string =>
      UDevAdm.udevadm (DeviceData._udevadm self) ::
        ["info"; "--root"; "--path"; DeviceData.device_path self;
         "--query"; query_type]%string in
    fst (DeviceData.device_links encoding self host) =
      ran (query "symlink"%string) host /\
    match snd (DeviceData.device_links encoding self host) with
    | Ok links =>
        Forall (fun link => link <> EmptyString /\
                  forall x, Str.isspace_text x = true -> Str.lacks x link = true)
               links /\
        (exists returncode stdout,
           spawn host (query "symlink"%string) = Exited returncode stdout /\
           (returncode <> 0%Z -> links = []) /\
           (returncode = 0%Z ->
            exists text, encoding (Str.strip stdout) = Some text /\
                         links = Str.words text))
    | Error e =>
        match spawn host (query "symlink"%string) with
        | NotStarted errno => e = EnvironmentError errno
        | Exited returncode stdout =>
            returncode = 0%Z /\ encoding (Str.strip stdout) = None /\
            e = UnicodeDecodeError
        end
    end /\
    DeviceData.device_node encoding self host =
    (ran (query "name"%string) host,
     match spawn host (query "name"%string) with
     | NotStarted errno => Error (EnvironmentError errno)
     | Exited returncode stdout =>
         if (returncode =? 0)%Z then
           match encoding (Str.strip stdout) with
           | Some text => Ok (Some text)
           | None => Error UnicodeDecodeError
           end
         else Ok None
     end).
Proof.
  intros encoding self host query.
  unfold DeviceData.device_links, DeviceData.device_node.
  rewrite (query_device_run encoding _ _ "symlink" host (or_introl eq_refl)).
  rewrite (query_device_run encoding _ _ "name" host (or_intror eq_refl)).
  cbv zeta. fold (query "symlink"%string). fold (query "name"%string).
  destruct (spawn host (query "symlink"%string)) as [errno|rc out].
  - cbn [fst snd]. conjuncts; reflexivity.
  - destruct (Z.eqb_spec rc 0) as [->|Hrc].
    + destruct (encoding (Str.strip out)) as [text|] eqn:Hdecode.
      * destruct (String.eqb_spec text EmptyString) as [Htext|Htext].
        -- cbn [fst snd]. conjuncts; [reflexivity| | |reflexivity].
           ++ constructor.
           ++ exists 0%Z, out. conjuncts; [reflexivity|intros H; contradiction|].
              intros _. exists text. split; [exact Hdecode|].
              rewrite Htext. reflexivity.
        -- cbn [fst snd]. conjuncts; [reflexivity| | |reflexivity].
           ++ apply words_plain.
           ++ exists 0%Z, out. conjuncts; [reflexivity|intros H; contradiction|].
              intros _. exists text. split; [exact Hdecode|reflexivity].
      * cbn [fst snd]. conjuncts; reflexivity.
    + cbn [fst snd]. conjuncts; [reflexivity| | |reflexivity].
      * constructor.
      * exists rc, out. conjuncts; [reflexivity|reflexivity|].
        intros H. contradiction.
Qed.

Section ConfigureFacts.

Lemma find_device_data_in (database : DeviceDatabase.t) (path : string)
  (data : DeviceData.t) :
  DeviceDatabase.find_device_data database path = Some data ->
  In data (DeviceDatabase.__iter__ database) /\ DeviceData.device_path data = path.
Proof.
  unfold DeviceDatabase.find_device_data, DeviceDatabase.__iter__.
  destruct (Dict.get path (DeviceDatabase._devices database)) as [properties|] eqn:E;
    [|discriminate].
  intros H. inversion H; subst; clear H. split; [|reflexivity].
  apply in_map_iff. exists (path, properties). split; [reflexivity|].
  apply get_in. exact E.
Qed.

(** A search that found a program asked the candidates before it, which
    do not exist, and the program, for their versions. *)
Lemma find_among_found (candidates : list string) :
  forall (host host' : Host) (udevadm : UDevAdm.t),
    UDevAdm.find_among candidates host = (host', Ok (Some udevadm)) ->
    exists missing rest : list string,
      candidates = missing ++ UDevAdm.udevadm udevadm :: rest /\
      Forall (fun c => spawn host [c; "--version"%string] = NotStarted ENOENT) missing /\
      host' = {| spawn := spawn host;
                 commands := commands host ++
                   map (fun c => [c; "--version"%string])
                       (missing ++ [UDevAdm.udevadm udevadm]) |}.
Proof.
  induction candidates as [|c candidates IH]; intros host host' udevadm Hfind.
  - discriminate.
  - cbn [UDevAdm.find_among] in Hfind. unfold UDevAdm.read_version in Hfind.
    rewrite execute_once in Hfind. cbn [UDevAdm.udevadm UDevAdm.__init__] in Hfind.
    destruct (spawn host [c; "--version"%string]) as [errno|rc out] eqn:Hspawn.
    + destruct (Z.eqb_spec errno ENOENT) as [->|Hne]; cbn [negb] in Hfind;
        [|discriminate].
      apply IH in Hfind. destruct Hfind as (missing & rest & -> & Hmissing & ->).
      exists (c :: missing), rest. conjuncts.
      * reflexivity.
      * constructor; [exact Hspawn|exact Hmissing].
      * unfold ran. cbn [spawn commands app map]. rewrite <- app_assoc. reflexivity.
    + destruct (rc =? 0)%Z; [|discriminate].
      destruct (Str.int (Str.strip out)); [|discriminate].
      inversion Hfind; subst; clear Hfind.
      exists [], candidates. conjuncts; [reflexivity|constructor|reflexivity].
Qed.

End ConfigureFacts.

(** X11.  [_get_device_sample] on a configuration that has its database,
    with a [random.sample] that answers a size within the population by
    that many of its items.  The sample holds devices of the database
    only.  With [--device] it is that one device, and [ValueError] when the
    database has no such path, whatever the other options; with
    [--all-devices] it is every device, in the order of the database;
    otherwise it has the sample size or, when the database is smaller, the
    size of the database, and a negative sample size is a [ValueError].
    Nothing else is raised. *)
Theorem X11_get_device_sample_outcomes :
  forall (random_sample : list DeviceData.t -> nat -> list DeviceData.t)
         (config : Config) (database : DeviceDatabase.t),
    (forall (population : list DeviceData.t) (k : nat),
       k <= List.length population ->
       List.length (random_sample population k) = k /\
       incl (random_sample population k) population) ->
    udev_database config = Some database ->
    match _get_device_sample random_sample config with
    | Ok sample =>
        incl sample (DeviceDatabase.__iter__ database) /\
        match option_device config with
        | Some device =>
            exists data, sample = [data] /\ DeviceData.device_path data = device
        | None =>
            if option_all_devices config then
              sample = DeviceDatabase.__iter__ database
            else
              (0 <= device_sample_size config)%Z /\
              Z.of_nat (List.length sample) =
              Z.min (device_sample_size config)
                    (Z.of_nat (DeviceDatabase.__len__ database))
        end
    | Error e =>
        e = ValueError /\
        match option_device config with
        | Some device => DeviceDatabase.find_device_data database device = None
        | None => option_all_devices config = false /\
                  (device_sample_size config < 0)%Z
        end
    end.
Proof.
  intros random_sample config database Hsample Hdatabase.
  unfold _get_device_sample. rewrite Hdatabase.
  destruct (option_device config) as [device|].
  - destruct (DeviceDatabase.find_device_data database device) as [data|] eqn:Hfind.
    + destruct (find_device_data_in database device data Hfind) as [Hin Hpath].
      split.
      * intros x [<-|[]]. exact Hin.
      * exists data. split; [reflexivity|exact Hpath].
    + split; reflexivity.
  - destruct (option_all_devices config).
    + split; [apply incl_refl|reflexivity].
    + assert (Hlen : List.length (DeviceDatabase.__iter__ database) =
                     DeviceDatabase.__len__ database) by apply length_map.
      destruct (Z.ltb_spec
                  (Z.min (device_sample_size config)
                         (Z.of_nat (DeviceDatabase.__len__ database))) 0)
        as [Hneg|Hpos].
      * split; [reflexivity|]. split; [reflexivity|lia].
      * destruct (Hsample (DeviceDatabase.__iter__ database)
                    (Z.to_nat (Z.min (device_sample_size config)
                                 (Z.of_nat (DeviceDatabase.__len__ database)))))
          as [Hsize Hincl]; [lia|].
        split; [exact Hincl|]. split; [lia|]. rewrite Hsize. lia.
Qed.

Lemma X11_get_device_sample_outcomes_witness :
  match _get_device_sample Sample.first_items Sample.config with
  | Ok sample =>
      incl sample (DeviceDatabase.__iter__ Sample.device_database) /\
      ((0 <= 10)%Z /\ Z.of_nat (List.length sample) = Z.min 10 2)
  | Error e => e = ValueError /\ False
  end.
Proof.
  assert (Hsample : forall (population : list DeviceData.t) (k : nat),
            k <= List.length population ->
            List.length (Sample.first_items population k) = k /\
            incl (Sample.first_items population k) population).
  { intros population k Hk. unfold Sample.first_items. split.
    - apply firstn_length_le. exact Hk.
    - intros x Hx. rewrite <- (firstn_skipn k population).
      apply in_or_app. left. exact Hx. }
  exact (X11_get_device_sample_outcomes Sample.first_items Sample.config
           Sample.device_database Hsample eq_refl).
Defined.

(** X12.  [pytest_configure].  On a machine where none of the candidates
    exists it asks each for its version and raises [AttributeError],
    setting nothing: [UDevAdm.find()] returned [None].  When it returns, a
    candidate was found after the ones that do not exist; that program was
    asked for its version twice and then for the database, and no other
    command was run; the three attributes are set, the options are as they
    were, no path is twice in the database, and the sample is the one
    [_get_device_sample] gives for the configuration with its database. *)
Theorem X12_pytest_configure_outcomes :
  forall (encoding : Codec.t)
         (random_sample : list DeviceData.t -> nat -> list DeviceData.t)
         (config : Config) (host : Host),
    (Forall (fun c => spawn host [c; "--version"%string] = NotStarted ENOENT)
            UDevAdm.CANDIDATES ->
     pytest_configure encoding random_sample config host =
     ({| spawn := spawn host;
         commands := commands host ++
                     map (fun c => [c; "--version"%string]) UDevAdm.CANDIDATES |},
      config, Error AttributeError)) /\
    (forall (host' : Host) (config' : Config),
       pytest_configure encoding random_sample config host = (host', config', Ok tt) ->
       exists (missing rest : list string) (program : string) (version : Z)
              (database : DeviceDatabase.t) (sample : list DeviceData.t),
         UDevAdm.CANDIDATES = missing ++ program :: rest /\
         Forall (fun c => spawn host [c; "--version"%string] = NotStarted ENOENT)
                missing /\
         commands host' =
           commands host ++
           map (fun c => [c; "--version"%string]) missing ++
           [[program; "--version"]; [program; "--version"];
            [program; "info"; "--export-db"]]%string /\
         config' = set_udev_device_sample sample
                     (set_udev_database database (set_udev_version version config)) /\
         DeviceDatabase._udevadm database = UDevAdm.__init__ program /\
         NoDup (Dict.keys (DeviceDatabase._devices database)) /\
         _get_device_sample random_sample
           (set_udev_database database (set_udev_version version config)) = Ok sample).
Proof.
  intros encoding random_sample config host. split.
  - intros Hmissing. unfold pytest_configure, UDevAdm.find.
    rewrite <- (app_nil_r UDevAdm.CANDIDATES) at 1.
    rewrite (find_among_missing UDevAdm.CANDIDATES [] host Hmissing). reflexivity.
  - intros host' config'. unfold pytest_configure, UDevAdm.find.
    destruct (UDevAdm.find_among UDevAdm.CANDIDATES host)
      as [host1 [[udevadm|]|e]] eqn:Hfind; try discriminate.
    apply find_among_found in Hfind.
    destruct Hfind as (missing & rest & Hcandidates & Hmissing & ->).
    unfold UDevAdm.read_version. rewrite execute_once.
    match goal with
    | |- context [spawn ?h ?c] => destruct (spawn h c) as [errno|rc out]
    end; [discriminate|].
    destruct (rc =? 0)%Z; [|discriminate].
    destruct (Str.int (Str.strip out)) as [version|]; [|discriminate].
    unfold DeviceDatabase.__init__, UDevAdm.read_devices. rewrite execute_once.
    match goal with
    | |- context [spawn ?h ?c] => destruct (spawn h c) as [errno|rc' out']
    end; [discriminate|].
    destruct (rc' =? 0)%Z; [|discriminate].
    destruct (UDevAdm.read_devices_lines encoding (Str.splitlines (Str.strip out')))
      as [devices|] eqn:Hread; [|discriminate].
    cbv zeta.
    match goal with
    | |- context [_get_device_sample random_sample ?c] =>
        destruct (_get_device_sample random_sample c) as [sample|] eqn:Hsample
    end; [|discriminate].
    intros H. inversion H; subst; clear H.
    destruct udevadm as [program]. cbn [UDevAdm.udevadm] in *.
    exists missing, rest, program, version,
      {| DeviceDatabase._udevadm := {| UDevAdm.udevadm := program |};
         DeviceDatabase._devices := devices |}, sample.
    conjuncts.
    + exact Hcandidates.
    + exact Hmissing.
    + unfold ran. cbn [commands]. rewrite map_app, <- !app_assoc. reflexivity.
    + reflexivity.
    + reflexivity.
    + exact (read_devices_lines_keys encoding _ devices Hread).
    + exact Hsample.
Qed.

Lemma X12_pytest_configure_outcomes_witness :
  pytest_configure Codec.utf_8 Sample.first_items Sample.fresh_config
    Sample.bare_host =
    ({| spawn := spawn Sample.bare_host;
        commands := [["/sbin/udevadm"; "--version"]; ["udevadm"; "--version"]]%string |},
     Sample.fresh_config, Error AttributeError).
Proof.
  apply (proj1 (X12_pytest_configure_outcomes Codec.utf_8 Sample.first_items
                  Sample.fresh_config Sample.bare_host)).
  repeat constructor.
Defined.

(** X17.  The property [attributes] of a device runs the one attribute
    walk of its path.  What it returns holds none of the attributes of
    [ATTRIBUTES_BLACKLIST], and every other attribute as
    [read_device_attributes] read it from the output; it raises what
    running the program or reading its output raises. *)
Theorem X17_attributes_without_the_volatile_ones :
  forall (encoding : Codec.t) (self : DeviceData.t) (host : Host),
    let command :=
      UDevAdm.udevadm (DeviceData._udevadm self) ::
        ["info"; "--attribute-walk"; "--path"; DeviceData.device_path self]%string in
    fst (DeviceData.attributes encoding self host) = ran command host /\
    match snd (DeviceData.attributes encoding self host) with
    | Ok attrs =>
        (forall name : string,
           In name DeviceData.ATTRIBUTES_BLACKLIST -> Dict.get name attrs = None) /\
        exists (stdout : string) (read : Dict.t string),
          spawn host command = Exited 0 stdout /\
          UDevAdm.read_attributes_loop encoding (Str.splitlines (Str.strip stdout)) [] = Ok read /\
          forall name : string,
            ~ In name DeviceData.ATTRIBUTES_BLACKLIST ->
            Dict.get name attrs = Dict.get name read
    | Error e =>
        match spawn host command with
        | NotStarted errno => e = EnvironmentError errno
        | Exited returncode stdout =>
            if (returncode =? 0)%Z then
              UDevAdm.read_attributes_loop encoding (Str.splitlines (Str.strip stdout)) [] = Error e
            else e = CalledProcessError returncode command
        end
    end.
Proof.
  intros encoding self host command.
  unfold DeviceData.attributes, UDevAdm.read_device_attributes.
  rewrite execute_once. fold command.
  destruct (spawn host command) as [errno|rc out]; [split; reflexivity|].
  destruct (Z.eqb_spec rc 0) as [->|Hrc]; [|split; reflexivity].
  destruct (UDevAdm.read_attributes_loop encoding (Str.splitlines (Str.strip out)) [])
    as [read|e] eqn:Hread; [|split; reflexivity].
  cbn [fst snd]. split; [reflexivity|]. split.
  - intros name Hin. rewrite filter_dict_get.
    apply existsb_eqb_in in Hin. rewrite Hin. reflexivity.
  - exists out, read. conjuncts; [reflexivity|first [exact Hread|reflexivity]|].
    intros name Hout. rewrite filter_dict_get.
    destruct (existsb (String.eqb name) DeviceData.ATTRIBUTES_BLACKLIST) eqn:E;
      [|reflexivity].
    apply existsb_eqb_in in E. contradiction.
Qed.
